(** * FromBitToQubit: the quantum visualizer backends

    A shallow embedding of the three Flask backends of the repository

    - [quantum_backend.py]        (Qiskit-backed endpoint),
    - [quantum_backend_simple.py] (pattern-matching fallback),
    - [quantum_backend_docker.py] (both, selected by [QISKIT_AVAILABLE]),

    together with the statevector engine that the specification describes
    and that the repository delegates to Qiskit.

    Conventions.
    - Python [int]s are [Z]; loop indices produced by [range] are kept in
      [Z] as well.
    - Python [float]s of the fallback simulators are IEEE binary64 values
      ([PrimFloat.float]); [x**2] is taken to be the correctly rounded
      product [x*x].
    - The analytics loops (probabilities, marginals) are generic in the
      scalar type, so that they can be run on binary64 values and reasoned
      about over the reals.
    - Python [str]s are byte strings restricted to ASCII text. *)

From Stdlib Require Import ZArith List String Ascii Bool Lia.
From Stdlib Require Import Floats.
From Stdlib Require Import Reals Lra Psatz.
Import ListNotations.

Set Implicit Arguments.

(* ================================================================== *)
(** * Python-level data shared by the three backends *)

Module Py.

(** One entry of the ['marginal_probabilities'] list:
    [{"qubit": i, "prob_0": p0, "prob_1": p1}]. *)
Record marginal (F : Type) : Type := Marginal {
  qubit : Z;
  prob_0 : F;
  prob_1 : F
}.

(** The dictionary returned on success.  The two last keys exist only in
    the docker backend; [None] stands for an absent key. *)
Record result (F : Type) : Type := Result {
  success : bool;
  statevector : list (F * F);
  num_qubits : Z;
  probabilities : list F;
  marginal_probabilities : list (marginal F);
  circuit_depth : Z;
  circuit_size : Z;
  simulation_type : option string;
  circuit_type : option string
}.

(** What an endpoint hands to [jsonify]: either a result dictionary
    (HTTP 200) or [{'success': False, 'error': msg}] with a status code.
    The ['traceback'] text of the 500 answers is not modelled. *)
Inductive response (F : Type) : Type :=
| Success (r : result F)
| Failure (status : Z) (error : string).

Arguments Failure {F} status error.

(** A value found under a key of the request's JSON object: a string, or
    anything else; [exn] is the text of the exception that Python raises
    when the endpoint uses such a value as a string. *)
Inductive pyval : Type :=
| PStr (s : string)
| POther (exn : string).

(** The outcome of [request.get_json()]: [None], or a JSON object given
    as its key/value pairs.  Bodies that are not JSON objects, and a
    [get_json] that raises, are left out. *)
Definition json_body : Type := option (list (string * pyval)).

Fixpoint dict_get (k : string) (d : list (string * pyval)) : option pyval :=
  match d with
  | [] => None
  | (k', v) :: d' => if String.eqb k k' then Some v else dict_get k d'
  end.

(** [range(n)] *)
Definition range (n : Z) : list Z :=
  map Z.of_nat (seq 0 (Z.to_nat n)).

(** [l[i]] for a non-negative index; [None] stands for [IndexError]. *)
Definition index {A : Type} (l : list A) (i : Z) : option A :=
  if (i <? 0)%Z then None else nth_error l (Z.to_nat i).

End Py.

(* ================================================================== *)
(** * Python string operations used by the pattern matchers *)

Module PyStr.

Definition lower_char (c : ascii) : ascii :=
  let n := nat_of_ascii c in
  if (65 <=? n)%nat && (n <=? 90)%nat then ascii_of_nat (n + 32) else c.

(** [s.lower()] *)
Fixpoint lower (s : string) : string :=
  match s with
  | EmptyString => EmptyString
  | String c s' => String (lower_char c) (lower s')
  end.

(** [s.startswith(p)] *)
Fixpoint starts_with (p s : string) : bool :=
  match p, s with
  | EmptyString, _ => true
  | String _ _, EmptyString => false
  | String a p', String b s' => Ascii.eqb a b && starts_with p' s'
  end.

(** [p in s] *)
Fixpoint contains (p s : string) : bool :=
  starts_with p s ||
  match s with
  | EmptyString => false
  | String _ s' => contains p s'
  end.

End PyStr.

(* ================================================================== *)
(** * quantum_backend_simple.py *)

Module Simple.
Import Py PyStr.
Local Open Scope float_scope.

(** [x**2] on a Python float. *)
Definition pow2 (x : float) : float := x * x.

(** [1/math.sqrt(2)] *)
Definition inv_sqrt2 : float := 1 / PrimFloat.sqrt 2.

Definition bell_statevector : list (float * float) :=
  [ (inv_sqrt2, 0); (0, 0); (0, 0); (inv_sqrt2, 0) ].

Definition ghz_statevector : list (float * float) :=
  [ (inv_sqrt2, 0); (0, 0); (0, 0); (0, 0);
    (0, 0); (0, 0); (0, 0); (inv_sqrt2, 0) ].

Definition half_half (q : Z) : marginal float :=
  {| qubit := q; prob_0 := 0.5; prob_1 := 0.5 |}.

(** The [if]/[elif] chain of [simulate_simple_circuit]: every branch
    assigns [num_qubits], [statevector] and [marginal_probabilities]. *)
Definition branches (circuit_type : string) (num_qubits : Z)
  : Z * list (float * float) * list (marginal float) :=
  if String.eqb circuit_type "bell_state" then
    let num_qubits := 2%Z in
    (num_qubits, bell_statevector, [half_half 0; half_half 1])
  else if String.eqb circuit_type "ghz_state" then
    let num_qubits := 3%Z in
    (num_qubits, ghz_statevector, [half_half 0; half_half 1; half_half 2])
  else if String.eqb circuit_type "superposition" then
    let num_qubits := 1%Z in
    (num_qubits, [ (inv_sqrt2, 0); (inv_sqrt2, 0) ], [half_half 0])
  else if String.eqb circuit_type "x_gate" then
    let num_qubits := 1%Z in
    (num_qubits, [ (0, 0); (1, 0) ],
     [ {| qubit := 0; prob_0 := 0; prob_1 := 1 |} ])
  else
    let num_qubits := 2%Z in
    (num_qubits,
     [ (1, 0) ] ++ repeat (0, 0) (Z.to_nat (2 ^ num_qubits - 1)),
     map (fun i => {| qubit := i; prob_0 := 1; prob_1 := 0 |})
         (range num_qubits)).

(** [[sv[0]**2 + sv[1]**2 for sv in statevector]] *)
Definition probabilities_of (statevector : list (float * float)) : list float :=
  map (fun sv => pow2 (fst sv) + pow2 (snd sv)) statevector.

Definition simulate_simple_circuit (circuit_type : string) (num_qubits : Z)
  : result float :=
  let '(num_qubits, statevector, marginal_probabilities) :=
    branches circuit_type num_qubits in
  let probabilities := probabilities_of statevector in
  {| success := true;
     statevector := statevector;
     num_qubits := num_qubits;
     probabilities := probabilities;
     marginal_probabilities := marginal_probabilities;
     circuit_depth := 2;
     circuit_size := 2;
     simulation_type := None;
     circuit_type := None |}.

(** The pattern matcher of the [/simulate] endpoint: which
    [circuit_type] the lower-cased request text is mapped to. *)
Definition classify (qiskit_code : string) : string :=
  if contains "ghz" qiskit_code
     || (contains "quantumcircuit(3)" qiskit_code
         && contains "cx(0, 2)" qiskit_code) then "ghz_state"
  else if contains "bell" qiskit_code
     || (contains "quantumcircuit(2)" qiskit_code
         && contains "h(0)" qiskit_code
         && contains "cx(0, 1)" qiskit_code) then "bell_state"
  else if contains "h(0)" qiskit_code
     && contains "quantumcircuit(1)" qiskit_code then "superposition"
  else if contains "x(0)" qiskit_code then "x_gate"
  else "default".

(** The [/simulate] endpoint.  [simulate_simple_circuit] is called with
    one argument, so [num_qubits] takes its default value 2. *)
Definition simulate_quantum_circuit (data : json_body) : response float :=
  match data with
  | None | Some [] => Failure 400 "Missing qiskit_code parameter"
  | Some d =>
    match dict_get "qiskit_code" d with
    | None => Failure 400 "Missing qiskit_code parameter"
    | Some (POther exn) => Failure 500 ("Simulation error: " ++ exn)
    | Some (PStr code) =>
      let qiskit_code := lower code in
      Success (simulate_simple_circuit (classify qiskit_code) 2)
    end
  end.

End Simple.

(* ================================================================== *)
(** * The Qiskit interface used by the two Qiskit-backed endpoints

    Qiskit is an external library.  The endpoints use it through five
    operations, gathered here; [F] is the scalar type of the amplitudes. *)

Module QiskitAPI.

(** [exec(qiskit_code, safe_globals, safe_locals)] followed by the search
    of [safe_locals] for the first [QuantumCircuit]: the script raised, or
    it ran and left a circuit (or none) behind. *)
Inductive exec_result (circuit : Type) : Type :=
| Raised (msg : string)
| Locals (found : option circuit).

Arguments Raised {circuit} msg.

Class Qiskit (F : Type) : Type := {
  circuit : Type;
  exec_code : string -> exec_result circuit;
  (** [circuit.num_qubits] *)
  qc_num_qubits : circuit -> Z;
  (** [Statevector.from_int(0, 2**num_qubits).evolve(circuit).data], or
      the message of the exception it raised *)
  evolve_from_zero : circuit -> string + list (F * F);
  (** [circuit.depth()] and [circuit.size()] *)
  qc_depth : circuit -> Z;
  qc_size : circuit -> Z
}.

End QiskitAPI.

(* ================================================================== *)
(** * The analytics loops of the Qiskit-backed endpoints

    [quantum_backend.py] lines 75-100 and [quantum_backend_docker.py]
    lines 67-92 are the same code; it is embedded once. *)

Module Analytics.
Import Py.

Section Loops.

Variable F : Type.
(** [0.0] and [+] on Python floats *)
Variable zero : F.
Variable add : F -> F -> F.
(** [float(abs(amplitude)**2)] on a numpy complex *)
Variable abs_sq : F * F -> F.

(** [[float(abs(amplitude)**2) for amplitude in final_state.data]] *)
Definition probabilities_of (data : list (F * F)) : list F :=
  map abs_sq data.

(** The test [(state_idx >> qubit_idx) & 1 == 0]. *)
Definition bit_is_zero (state_idx qubit_idx : Z) : bool :=
  (Z.land (Z.shiftr state_idx qubit_idx) 1 =? 0)%Z.

(** One iteration of the inner loop over [state_idx]; the accumulator is
    the pair [(prob_0, prob_1)], [None] after an [IndexError]. *)
Definition marginal_step (probabilities : list F) (qubit_idx : Z)
    (acc : option (F * F)) (state_idx : Z) : option (F * F) :=
  match acc with
  | None => None
  | Some (prob_0, prob_1) =>
    match index probabilities state_idx with
    | None => None
    | Some p =>
      if bit_is_zero state_idx qubit_idx
      then Some (add prob_0 p, prob_1)
      else Some (prob_0, add prob_1 p)
    end
  end.

(** The body of the outer loop for one [qubit_idx]. *)
Definition marginal_of (probabilities : list F) (num_qubits qubit_idx : Z)
  : option (marginal F) :=
  match fold_left (marginal_step probabilities qubit_idx)
                  (range (2 ^ num_qubits)) (Some (zero, zero)) with
  | None => None
  | Some (prob_0, prob_1) =>
    Some {| qubit := qubit_idx; prob_0 := prob_0; prob_1 := prob_1 |}
  end.

(** The outer loop [for qubit_idx in range(num_qubits)], appending one
    dictionary per qubit. *)
Definition marginal_probabilities_of (probabilities : list F) (num_qubits : Z)
  : option (list (marginal F)) :=
  fold_left
    (fun acc qubit_idx =>
       match acc with
       | None => None
       | Some ms =>
         match marginal_of probabilities num_qubits qubit_idx with
         | None => None
         | Some m => Some (ms ++ [m])
         end
       end)
    (range num_qubits) (Some []).

End Loops.

End Analytics.

(* ================================================================== *)
(** * quantum_backend.py *)

Module Backend.
Import Py QiskitAPI Analytics.

(** What the endpoint did on the way to its answer: it ran the script,
    and it built and evolved a statevector of the given dimension. *)
Inductive event : Type :=
| EvExec
| EvStatevector (dims : Z).

Section Endpoint.

Variable F : Type.
Variable zero : F.
Variable add : F -> F -> F.
Variable abs_sq : F * F -> F.
Context {Q : Qiskit F}.

Definition simulate_quantum_circuit (data : json_body)
  : response F * list event :=
  match data with
  | None | Some [] => (Failure 400 "Missing qiskit_code parameter", [])
  | Some d =>
    match dict_get "qiskit_code" d with
    | None => (Failure 400 "Missing qiskit_code parameter", [])
    | Some (POther exn) =>
      (Failure 500 ("Simulation error: " ++ exn), [EvExec])
    | Some (PStr qiskit_code) =>
      match exec_code qiskit_code with
      | Raised msg => (Failure 500 ("Simulation error: " ++ msg), [EvExec])
      | Locals None =>
        (Failure 400 "No QuantumCircuit found in the provided code", [EvExec])
      | Locals (Some circuit) =>
        let num_qubits := qc_num_qubits circuit in
        let log := [EvExec; EvStatevector (2 ^ num_qubits)] in
        match evolve_from_zero circuit with
        | inl msg => (Failure 500 ("Simulation error: " ++ msg), log)
        | inr final_state =>
          let statevector_data := final_state in
          let probabilities := probabilities_of abs_sq final_state in
          match marginal_probabilities_of zero add probabilities num_qubits with
          | None =>
            (Failure 500 "Simulation error: list index out of range", log)
          | Some marginal_probabilities =>
            (Success {| success := true;
                        statevector := statevector_data;
                        num_qubits := num_qubits;
                        probabilities := probabilities;
                        marginal_probabilities := marginal_probabilities;
                        circuit_depth := qc_depth circuit;
                        circuit_size := qc_size circuit;
                        simulation_type := None;
                        circuit_type := None |}, log)
          end
        end
      end
    end
  end.

End Endpoint.

End Backend.

(* ================================================================== *)
(** * quantum_backend_docker.py *)

Module Docker.
Import Py PyStr QiskitAPI Analytics.
Local Open Scope float_scope.
Local Open Scope string_scope.

Section WithQiskit.

(** [float(abs(amplitude)**2)] on binary64 components (numpy's complex
    modulus is not part of the development). *)
Variable abs_sq : float * float -> float.
Context {Q : Qiskit float}.

(** The function re-raises every exception after logging it: [inl msg]
    is the raised exception. *)
Definition simulate_with_qiskit (qiskit_code : string)
  : string + result float :=
  match exec_code qiskit_code with
  | Raised msg => inl msg
  | Locals None => inl "No QuantumCircuit found in the provided code"
  | Locals (Some circuit) =>
    let num_qubits := qc_num_qubits circuit in
    match evolve_from_zero circuit with
    | inl msg => inl msg
    | inr final_state =>
      let statevector_data := final_state in
      let probabilities := probabilities_of abs_sq final_state in
      match marginal_probabilities_of 0 PrimFloat.add probabilities num_qubits with
      | None => inl "list index out of range"
      | Some marginal_probabilities =>
        inr {| success := true;
               statevector := statevector_data;
               num_qubits := num_qubits;
               probabilities := probabilities;
               marginal_probabilities := marginal_probabilities;
               circuit_depth := qc_depth circuit;
               circuit_size := qc_size circuit;
               simulation_type := Some "qiskit";
               circuit_type := None |}
      end
    end
  end.

End WithQiskit.

(** The four tests of the [if]/[elif] chain of [simulate_simple_circuit],
    on the lower-cased text. *)
Definition is_bell (qiskit_code_lower : string) : bool :=
  contains "bell" qiskit_code_lower
  || (contains "h(0)" qiskit_code_lower
      && contains "cx(0, 1)" qiskit_code_lower).

Definition is_ghz (qiskit_code_lower : string) : bool :=
  contains "ghz" qiskit_code_lower
  || (contains "quantumcircuit(3)" qiskit_code_lower
      && contains "cx(0, 2)" qiskit_code_lower).

Definition is_superposition (qiskit_code_lower : string) : bool :=
  contains "h(0)" qiskit_code_lower
  && contains "quantumcircuit(1)" qiskit_code_lower.

Definition is_x_gate (qiskit_code_lower : string) : bool :=
  contains "x(0)" qiskit_code_lower.

(** The chain itself: every branch assigns [num_qubits], [statevector],
    [marginal_probabilities] and [circuit_type]. *)
Definition branches (qiskit_code_lower : string)
  : Z * list (float * float) * list (marginal float) * string :=
  let inv_sqrt2 := 1 / PrimFloat.sqrt 2 in
  if is_bell qiskit_code_lower then
    let num_qubits := 2%Z in
    (num_qubits,
     [ (inv_sqrt2, 0); (0, 0); (0, 0); (inv_sqrt2, 0) ],
     [ {| qubit := 0; prob_0 := 0.5; prob_1 := 0.5 |};
       {| qubit := 1; prob_0 := 0.5; prob_1 := 0.5 |} ],
     "bell_state")
  else if is_ghz qiskit_code_lower then
    let num_qubits := 3%Z in
    (num_qubits,
     [ (inv_sqrt2, 0); (0, 0); (0, 0); (0, 0);
       (0, 0); (0, 0); (0, 0); (inv_sqrt2, 0) ],
     [ {| qubit := 0; prob_0 := 0.5; prob_1 := 0.5 |};
       {| qubit := 1; prob_0 := 0.5; prob_1 := 0.5 |};
       {| qubit := 2; prob_0 := 0.5; prob_1 := 0.5 |} ],
     "ghz_state")
  else if is_superposition qiskit_code_lower then
    let num_qubits := 1%Z in
    (num_qubits,
     [ (inv_sqrt2, 0); (inv_sqrt2, 0) ],
     [ {| qubit := 0; prob_0 := 0.5; prob_1 := 0.5 |} ],
     "superposition")
  else if is_x_gate qiskit_code_lower then
    let num_qubits := 1%Z in
    (num_qubits,
     [ (0, 0); (1, 0) ],
     [ {| qubit := 0; prob_0 := 0; prob_1 := 1 |} ],
     "x_gate")
  else
    let num_qubits := 2%Z in
    (num_qubits,
     ([ (1, 0) ] ++ repeat (0, 0) (Z.to_nat (2 ^ num_qubits - 1)))%list,
     map (fun i => {| qubit := i; prob_0 := 1; prob_1 := 0 |})
         (range num_qubits),
     "default").

(** [[sv[0]**2 + sv[1]**2 for sv in statevector]] *)
Definition probabilities_of (statevector : list (float * float)) : list float :=
  map (fun sv => fst sv * fst sv + snd sv * snd sv) statevector.

Definition simulate_simple_circuit (qiskit_code : string) : result float :=
  let qiskit_code_lower := lower qiskit_code in
  let '(num_qubits, statevector, marginal_probabilities, circuit_type) :=
    branches qiskit_code_lower in
  let probabilities := probabilities_of statevector in
  {| success := true;
     statevector := statevector;
     num_qubits := num_qubits;
     probabilities := probabilities;
     marginal_probabilities := marginal_probabilities;
     circuit_depth := 2;
     circuit_size := 2;
     simulation_type := Some "simple";
     circuit_type := Some circuit_type |}.

Section Endpoint.

Variable QISKIT_AVAILABLE : bool.
Variable abs_sq : float * float -> float.
Context {Q : Qiskit float}.

Definition simulate_quantum_circuit (data : json_body) : response float :=
  match data with
  | None | Some [] => Failure 400 "Missing qiskit_code parameter"
  | Some d =>
    match dict_get "qiskit_code" d with
    | None => Failure 400 "Missing qiskit_code parameter"
    | Some (POther exn) => Failure 500 ("Simulation error: " ++ exn)
    | Some (PStr qiskit_code) =>
      if QISKIT_AVAILABLE then
        match simulate_with_qiskit abs_sq qiskit_code with
        | inl msg => Failure 500 ("Simulation error: " ++ msg)
        | inr result => Success result
        end
      else Success (simulate_simple_circuit qiskit_code)
    end
  end.

End Endpoint.

End Docker.

(* ================================================================== *)
(** * The statevector engine

    Modelled from the spec: the repository has no engine of its own, it
    calls Qiskit ([QuantumCircuit], [Statevector.evolve], [depth()],
    [size()]).  This module follows sections 3, 4.1, 4.2, 4.3 and 4.4 of
    the specification: gate catalog, circuit validation, in-place
    evolution and metrics.  Amplitudes are pairs of real numbers, rounding
    is not modelled; qubit indices and basis indices are natural
    numbers. *)

Module Engine.
Local Open Scope R_scope.

(** ** Amplitudes *)

Definition amplitude : Type := (R * R)%type.

Definition Czero : amplitude := (0, 0).
Definition Cone : amplitude := (1, 0).

Definition Cadd (a b : amplitude) : amplitude :=
  (fst a + fst b, snd a + snd b).

Definition Cmul (a b : amplitude) : amplitude :=
  (fst a * fst b - snd a * snd b, fst a * snd b + snd a * fst b).

(** Squared magnitude. *)
Definition norm2 (a : amplitude) : R := fst a * fst a + snd a * snd a.

(** ** Gate catalog (spec 4.1) *)

Record matrix2 : Type := Matrix2 {
  m00 : amplitude; m01 : amplitude;
  m10 : amplitude; m11 : amplitude
}.

(** Modelled from the spec: the gate catalog is Qiskit's.  The named
    single-qubit gates of spec 4.1, and an arbitrary 2x2 matrix. *)
Inductive unitary1 : Type :=
| GateH | GateX | GateY | GateZ
| GateU (m : matrix2).

(** Modelled from the spec: Qiskit's gate matrices.  H is the normalised
    Hadamard matrix, X, Y and Z are the Pauli matrices. *)
Definition matrix_of (u : unitary1) : matrix2 :=
  match u with
  | GateH => Matrix2 (/ sqrt 2, 0) (/ sqrt 2, 0) (/ sqrt 2, 0) (- / sqrt 2, 0)
  | GateX => Matrix2 Czero Cone Cone Czero
  | GateY => Matrix2 Czero (0, -1) (0, 1) Czero
  | GateZ => Matrix2 Cone Czero Czero (-1, 0)
  | GateU m => m
  end.

(** The columns of a unitary matrix are orthonormal; [conj_mul a b] is
    the product of the conjugate of [a] with [b]. *)
Definition conj_mul (a b : amplitude) : amplitude :=
  (fst a * fst b + snd a * snd b, fst a * snd b - snd a * fst b).

Definition unitary (m : matrix2) : Prop :=
  norm2 (m00 m) + norm2 (m10 m) = 1
  /\ norm2 (m01 m) + norm2 (m11 m) = 1
  /\ Cadd (conj_mul (m00 m) (m01 m)) (conj_mul (m10 m) (m11 m)) = Czero.

(** Modelled from the spec: Qiskit's instructions.  A gate operation of
    spec 3: kind, qubit indices and, for the controlled phase, its
    angle. *)
Inductive operation : Type :=
| Single (u : unitary1) (target : nat)
| Controlled (u : unitary1) (control target : nat)
| CPhase (theta : R) (control target : nat)
| Swap (a b : nat).

(** Shorthands for the gates of the example circuits. *)
Definition H (q : nat) : operation := Single GateH q.
Definition X (q : nat) : operation := Single GateX q.
Definition CX (c t : nat) : operation := Controlled GateX c t.

Definition qubits_of (op : operation) : list nat :=
  match op with
  | Single _ q => [q]
  | Controlled _ c q => [c; q]
  | CPhase _ c q => [c; q]
  | Swap a b => [a; b]
  end.

(** Every qubit index of the operation is below the qubit count. *)
Definition in_range (n : nat) (op : operation) : Prop :=
  Forall (fun q => (q < n)%nat) (qubits_of op).

(** The operation is a controlled gate whose control is its target. *)
Definition control_is_target (op : operation) : Prop :=
  match op with
  | Controlled _ c q | CPhase _ c q => c = q
  | _ => False
  end.

(** The matrix carried by an operation is unitary (a named gate always
    is; see [named_gates_unitary]). *)
Definition unitary_operation (op : operation) : Prop :=
  match op with
  | Single (GateU m) _ | Controlled (GateU m) _ _ => unitary m
  | _ => True
  end.

(** ** Circuit model and validation (spec 3 and 4.2) *)

(** Modelled from the spec: Qiskit's [QuantumCircuit].  A qubit count
    and an ordered sequence of gate operations. *)
Record circuit : Type := Circuit {
  qubit_count : nat;
  operations : list operation
}.

Record config : Type := Config {
  max_qubits : nat;
  max_operations : nat
}.

Inductive constraint : Type :=
| QubitCountOutOfBounds
| OperationListTooLong
| IndexOutOfRange
| ControlEqualsTarget.

(** A validation failure: the violated constraint and, for the
    per-operation constraints, the position of the operation. *)
Record validation_error : Type := ValidationError {
  violated : constraint;
  at_operation : option nat
}.

(** Modelled from the spec: the checks Qiskit makes when a gate is
    appended.  Spec 4.2: every index within [0, n), control different from
    target for controlled gates. *)
Definition check_operation (n : nat) (op : operation) : option constraint :=
  if negb (forallb (fun q => q <? n)%nat (qubits_of op)) then Some IndexOutOfRange
  else match op with
       | Controlled _ c q | CPhase _ c q =>
         if (c =? q)%nat then Some ControlEqualsTarget else None
       | _ => None
       end.

(** The first operation, from position [k] on, that violates a
    constraint. *)
Fixpoint check_operations (n k : nat) (ops : list operation)
  : option validation_error :=
  match ops with
  | [] => None
  | op :: ops' =>
    match check_operation n op with
    | Some c => Some (ValidationError c (Some k))
    | None => check_operations n (S k) ops'
    end
  end.

(** Modelled from the spec: [validate(n, operations)] of spec 4.2, which
    the repository leaves to Qiskit.  The qubit count within
    [1, max_qubits], the operation list within the configured length, then
    the operations in order. *)
Definition validate (cfg : config) (n : nat) (ops : list operation)
  : validation_error + circuit :=
  if negb ((1 <=? n)%nat && (n <=? max_qubits cfg)%nat)
  then inl (ValidationError QubitCountOutOfBounds None)
  else if (max_operations cfg <? List.length ops)%nat
  then inl (ValidationError OperationListTooLong None)
  else match check_operations n 0 ops with
       | Some e => inl e
       | None => inr (Circuit n ops)
       end.

(** What it means for a reported failure to be truthful: the constraint
    it names is violated, at the operation it points to. *)
Definition violation (cfg : config) (n : nat) (ops : list operation)
    (e : validation_error) : Prop :=
  match violated e, at_operation e with
  | QubitCountOutOfBounds, None => ~ (1 <= n <= max_qubits cfg)%nat
  | OperationListTooLong, None => (max_operations cfg < List.length ops)%nat
  | IndexOutOfRange, Some k =>
    exists op, nth_error ops k = Some op /\ ~ in_range n op
  | ControlEqualsTarget, Some k =>
    exists op, nth_error ops k = Some op /\ control_is_target op
  | _, _ => False
  end.

(** ** Evolution (spec 4.3) *)

Definition state : Type := list amplitude.

(** [st[i] := v], in place. *)
Fixpoint upd (i : nat) (v : amplitude) (st : state) : state :=
  match st, i with
  | [], _ => []
  | _ :: st', O => v :: st'
  | a :: st', S i' => a :: upd i' v st'
  end.

Definition amp (st : state) (i : nat) : amplitude := nth i st Czero.

Definition bit (i q : nat) : bool := Nat.testbit i q.

(** Modelled from the spec: [Statevector.from_int(0, 2**n)].  Allocate
    [2^n] amplitudes, set amplitude 0 to (1, 0), all others (0, 0). *)
Definition ground_state (n : nat) : state :=
  upd 0 Cone (repeat Czero (2 ^ n)).

(** Apply a 2x2 matrix to the pair of amplitudes at [i] and [j]. *)
Definition apply_pair (m : matrix2) (i j : nat) (st : state)
  : state :=
  let a := amp st i in
  let b := amp st j in
  upd j (Cadd (Cmul (m10 m) a) (Cmul (m11 m) b))
      (upd i (Cadd (Cmul (m00 m) a) (Cmul (m01 m) b)) st).

(** Exchange the amplitudes at [i] and [j]. *)
Definition exchange (i j : nat) (st : state) : state :=
  let a := amp st i in
  let b := amp st j in
  upd j a (upd i b st).

(** Modelled from the spec: the action of each gate kind, spec 4.1.  What
    one operation does at index [i] of the sweep over all indices: a
    single-qubit unitary on [q] transforms the pair [(i, i | 2^q)] when bit
    [q] of [i] is 0; its controlled version does so only when bit [c] is
    1; the controlled phase multiplies the amplitude at [i] by
    [e^(i theta)] when both bits are 1; SWAP exchanges the amplitudes of
    the two indices that differ by exchanging bits [a] and [b]. *)
Definition visit (op : operation) (st : state) (i : nat) : state :=
  match op with
  | Single u q =>
    if bit i q then st
    else apply_pair (matrix_of u) i (Nat.setbit i q) st
  | Controlled u c q =>
    if bit i c && negb (bit i q)
    then apply_pair (matrix_of u) i (Nat.setbit i q) st
    else st
  | CPhase theta c q =>
    if bit i c && bit i q
    then upd i (Cmul (cos theta, sin theta) (amp st i)) st
    else st
  | Swap a b =>
    if bit i a && negb (bit i b)
    then exchange i (Nat.setbit (Nat.clearbit i a) b) st
    else st
  end.

Definition apply_operation (n : nat) (st : state) (op : operation)
  : state :=
  fold_left (visit op) (seq 0 (2 ^ n)) st.

(** Modelled from the spec: [Statevector.evolve], as [simulate(circuit)]
    of spec 4.3.  The operations are applied in circuit order to the
    ground state. *)
Definition simulate (c : circuit) : state :=
  fold_left (apply_operation (qubit_count c)) (operations c)
            (ground_state (qubit_count c)).

(** ** Metrics (spec 4.4) *)

(** The per-qubit depths after scheduling [op]: every qubit it touches
    gets one more than the largest depth among them. *)
Definition schedule (depths : nat -> nat) (op : operation) : nat -> nat :=
  let d := S (fold_right Nat.max 0%nat (map depths (qubits_of op))) in
  fun q => if existsb (Nat.eqb q) (qubits_of op) then d else depths q.

(** Modelled from the spec: [circuit.depth()] and [circuit.size()], as
    [metrics(circuit)] of spec 4.4.  Depth is the largest per-qubit depth
    once every operation is scheduled, size the number of operations. *)
Definition metrics (c : circuit) : nat * nat :=
  let depths := fold_left schedule (operations c) (fun _ => 0%nat) in
  (fold_right Nat.max 0%nat (map depths (seq 0 (qubit_count c))),
   List.length (operations c)).

(** ** The engine behind the Qiskit interface *)

Definition describe (c : constraint) : string :=
  match c with
  | QubitCountOutOfBounds => "qubit count out of configured bounds"
  | OperationListTooLong => "operation list too long"
  | IndexOutOfRange => "qubit index out of range"
  | ControlEqualsTarget => "control equals target"
  end.

(** Modelled from the spec: the effect of [exec] on a script that
    declares [n] qubits and appends [ops] in order.  It leaves an
    exception naming the violated constraint, or the circuit. *)
Definition run_script (cfg : config) (n : nat) (ops : list operation)
  : QiskitAPI.exec_result circuit :=
  match validate cfg n ops with
  | inl e => QiskitAPI.Raised (describe (violated e))
  | inr c => QiskitAPI.Locals (Some c)
  end.

(** [abs(amplitude)**2] over the reals. *)
Definition abs_sq (a : amplitude) : R :=
  let r := sqrt (fst a * fst a + snd a * snd a) in r * r.

Definition qiskit (exec : string -> QiskitAPI.exec_result circuit)
  : QiskitAPI.Qiskit R :=
  {| QiskitAPI.circuit := circuit;
     QiskitAPI.exec_code := exec;
     QiskitAPI.qc_num_qubits := fun c => Z.of_nat (qubit_count c);
     QiskitAPI.evolve_from_zero := fun c => inr (simulate c);
     QiskitAPI.qc_depth := fun c => Z.of_nat (fst (metrics c));
     QiskitAPI.qc_size := fun c => Z.of_nat (snd (metrics c)) |}.

End Engine.

(* ================================================================== *)
(** * Vocabulary of the statements *)

Module Stmt.
Import Py.

(** Sum of a sequence of binary64 values, left to right from [0.0]. *)
Definition fsum (l : list float) : float :=
  fold_left PrimFloat.add l 0%float.

(** The binary64 value of the literal [1e-6]. *)
Definition tolerance : float := 0x1.0c6f7a0b5ed8dp-20%float.

(** [abs(x - y) <= 1e-6] on binary64 values. *)
Definition close (x y : float) : bool :=
  PrimFloat.leb (PrimFloat.abs (x - y)) tolerance.

Definition all_close (l l' : list float) : bool :=
  (List.length l =? List.length l')%nat
  && forallb (fun p => close (fst p) (snd p)) (combine l l').

(** Sum of a sequence of reals. *)
Definition rsum (l : list R) : R := fold_right Rplus 0%R l.

(** Sum of the squared magnitudes of a statevector. *)
Definition total (st : Engine.state) : R := rsum (map Engine.norm2 st).

(** The answer of the fallback simulators when no pattern matches: the
    ground state of two qubits. *)
Definition ground2 (simulation_type circuit_type : option string)
  : result float :=
  {| success := true;
     statevector := [ (1, 0); (0, 0); (0, 0); (0, 0) ]%float;
     num_qubits := 2;
     probabilities := [ 1; 0; 0; 0 ]%float;
     marginal_probabilities :=
       [ {| qubit := 0; prob_0 := 1%float; prob_1 := 0%float |};
         {| qubit := 1; prob_0 := 1%float; prob_1 := 0%float |} ];
     circuit_depth := 2;
     circuit_size := 2;
     simulation_type := simulation_type;
     circuit_type := circuit_type |}.

Section MarginalSpec.

Variable F : Type.
Variable zero : F.
Variable add : F -> F -> F.

(** The probabilities, in index order, of the indices of [idxs] whose
    bit [q] is [b]; bit [q] of an index is [Z.testbit], so that the
    least-significant bit is qubit 0. *)
Definition select (probabilities : list F) (q : Z) (b : bool) (idxs : list Z)
  : list F :=
  flat_map
    (fun i =>
       if Bool.eqb (Z.testbit i q) b
       then match index probabilities i with Some p => [p] | None => [] end
       else [])
    idxs.

(** The marginal pair as the specification words it: for each value of
    bit [q], the sum of the probabilities of the basis indices
    [0 .. 2^n - 1] that have this value at bit [q]. *)
Definition marginal_spec (probabilities : list F) (n q : Z) : F * F :=
  (fold_left add (select probabilities q false (range (2 ^ n))) zero,
   fold_left add (select probabilities q true (range (2 ^ n))) zero).

End MarginalSpec.

(** A result dictionary of binary64 values is well formed: one
    probability per amplitude, [2^num_qubits] of them, each the sum of the
    squares of the two components, and their sum within [1e-6] of 1. *)
Definition normalised (r : result float) : Prop :=
  probabilities r
    = map (fun a => (fst a * fst a + snd a * snd a)%float) (statevector r)
  /\ List.length (probabilities r) = List.length (statevector r)
  /\ Z.of_nat (List.length (probabilities r)) = (2 ^ num_qubits r)%Z
  /\ close (fsum (probabilities r)) 1 = true.

(** The marginal dictionaries as the specification words them. *)
Definition marginals_spec (F : Type) (zero : F) (add : F -> F -> F)
    (probabilities : list F) (n : Z) : list (marginal F) :=
  map (fun q =>
         {| qubit := q;
            prob_0 := fst (marginal_spec zero add probabilities n q);
            prob_1 := snd (marginal_spec zero add probabilities n q) |})
      (range n).

(** A step of the engine keeps the dimension and the norm. *)
Definition preserved (n : nat) (st st' : Engine.state) : Prop :=
  List.length st' = (2 ^ n)%nat /\ total st' = total st.

(** The dictionary the Qiskit-backed endpoint builds from the state the
    engine evolves. *)
Definition engine_result (c : Engine.circuit) : result R :=
  let n := Z.of_nat (Engine.qubit_count c) in
  let probabilities :=
    Analytics.probabilities_of Engine.abs_sq (Engine.simulate c) in
  {| success := true;
     statevector := Engine.simulate c;
     num_qubits := n;
     probabilities := probabilities;
     marginal_probabilities := marginals_spec 0%R Rplus probabilities n;
     circuit_depth := Z.of_nat (fst (Engine.metrics c));
     circuit_size := Z.of_nat (snd (Engine.metrics c));
     simulation_type := None;
     circuit_type := None |}.

(** The circuits of the specification's examples. *)
Definition bell_circuit : list Engine.operation :=
  [ Engine.H 0; Engine.CX 0 1 ].

Definition ghz_circuit : list Engine.operation :=
  [ Engine.H 0; Engine.CX 0 1; Engine.CX 0 2 ].

Definition depth_example : list Engine.operation :=
  [ Engine.H 0; Engine.X 1; Engine.CX 0 1 ].

(** The same circuit as a script. *)
Definition depth_example_script : string :=
  String.concat (String (ascii_of_nat 10) EmptyString)
    [ "circ = QuantumCircuit(2)"; "circ.h(0)"; "circ.x(1)";
      "circ.cx(0, 1)" ]%string.

(** A configuration: the default of 24 qubits, and room for 1000
    operations. *)
Definition example_config : Engine.config := Engine.Config 24 1000.

(** The Bell answer on binary64 values: two qubits, probabilities within
    [1e-6] of [0.5, 0, 0, 0.5], both marginals 0.5/0.5. *)
Definition bell_answer (r : result float) : Prop :=
  success r = true
  /\ num_qubits r = 2%Z
  /\ all_close (probabilities r) [ 0.5; 0; 0; 0.5 ]%float = true
  /\ marginal_probabilities r
     = [ {| qubit := 0; prob_0 := 0.5%float; prob_1 := 0.5%float |};
         {| qubit := 1; prob_0 := 0.5%float; prob_1 := 0.5%float |} ].

(** The GHZ answer on binary64 values: three qubits, probabilities within
    [1e-6] of 0.5 at indices 0 and 7 and of 0 elsewhere, all marginals
    0.5/0.5. *)
Definition ghz_answer (r : result float) : Prop :=
  success r = true
  /\ num_qubits r = 3%Z
  /\ all_close (probabilities r) [ 0.5; 0; 0; 0; 0; 0; 0; 0.5 ]%float = true
  /\ marginal_probabilities r
     = [ {| qubit := 0; prob_0 := 0.5%float; prob_1 := 0.5%float |};
         {| qubit := 1; prob_0 := 0.5%float; prob_1 := 0.5%float |};
         {| qubit := 2; prob_0 := 0.5%float; prob_1 := 0.5%float |} ].

(** Two lists of marginal dictionaries agree: same qubits, values within
    [1e-6]. *)
Definition marginals_close (ms ms' : list (marginal float)) : bool :=
  (List.length ms =? List.length ms')%nat
  && forallb (fun p =>
                (qubit (fst p) =? qubit (snd p))%Z
                && close (prob_0 (fst p)) (prob_0 (snd p))
                && close (prob_1 (fst p)) (prob_1 (snd p)))
             (combine ms ms').

(** The marginals of a result dictionary of binary64 values are
    consistent: each pair adds up to exactly 1, and the list is within
    [1e-6] of the sums, grouped by bit, of the probabilities of the
    dictionary. *)
Definition marginals_consistent (r : result float) : Prop :=
  Forall (fun m => (prob_0 m + prob_1 m)%float = 1%float)
         (marginal_probabilities r)
  /\ marginals_close (marginal_probabilities r)
       (marginals_spec 0%float PrimFloat.add (probabilities r) (num_qubits r))
     = true.

(** The request body [{"qiskit_code": code}]. *)
Definition body (code : string) : json_body :=
  Some [ ("qiskit_code"%string, PStr code) ].

Definition newline : string := String (ascii_of_nat 10) EmptyString.

Definition lines (ls : list string) : string :=
  String.concat newline ls.

(** The Bell circuit written without a space after the comma. *)
Definition bell_compact : string :=
  lines [ "circ = QuantumCircuit(2)"; "circ.h(0)"; "circ.cx(0,1)" ]%string.

(** The example circuits served by [get_example_circuits]. *)
Definition bell_example : string :=
  lines [ "# Bell State (Entanglement)"; "circ = QuantumCircuit(2)";
          "circ.h(0)"; "circ.cx(0, 1)" ]%string.

Definition ghz_example : string :=
  lines [ "# GHZ State (3-qubit entanglement)"; "circ = QuantumCircuit(3)";
          "circ.h(0)"; "circ.cx(0, 1)"; "circ.cx(0, 2)" ]%string.

End Stmt.

(* ================================================================== *)
(** * The example circuits route of the three backends *)

Module Routes.
Import Py.
Local Open Scope string_scope.

(** What [get_example_circuits] hands to [jsonify]: the ['examples']
    dictionary in insertion order, and the optional keys ['note'] and
    ['qiskit_available']. *)
Record examples_response : Type := ExamplesResponse {
  ex_success : bool;
  examples : list (string * string);
  note : option string;
  qiskit_available : option bool
}.

Definition text (ls : list string) : string :=
  String.concat (String (ascii_of_nat 10) EmptyString) ls.

(** The four texts that the three files share. *)
Definition bell_state_text : string :=
  text [ "# Bell State (Entanglement)"; "circ = QuantumCircuit(2)";
         "circ.h(0)"; "circ.cx(0, 1)" ].

Definition ghz_state_text : string :=
  text [ "# GHZ State (3-qubit entanglement)"; "circ = QuantumCircuit(3)";
         "circ.h(0)"; "circ.cx(0, 1)"; "circ.cx(0, 2)" ].

Definition superposition_text : string :=
  text [ "# Single qubit superposition"; "circ = QuantumCircuit(1)";
         "circ.h(0)" ].

Definition x_gate_text : string :=
  text [ "# Simple X gate (bit flip)"; "circ = QuantumCircuit(1)";
         "circ.x(0)" ].

Definition common_examples : list (string * string) :=
  [ ("bell_state", bell_state_text); ("ghz_state", ghz_state_text);
    ("superposition", superposition_text); ("x_gate", x_gate_text) ].

(** [get_example_circuits] of [quantum_backend_simple.py]. *)
Definition simple_get_example_circuits : examples_response :=
  {| ex_success := true;
     examples := common_examples;
     note := Some "Simple demonstration circuits";
     qiskit_available := None |}.

(** [get_example_circuits] of [quantum_backend.py]. *)
Definition backend_get_example_circuits : examples_response :=
  {| ex_success := true;
     examples :=
       (common_examples ++
        [ ("quantum_fourier_transform",
           text [ "# QFT on 3 qubits"; "circ = QuantumCircuit(3)";
                  "circ.h(0)"; "circ.cp(np.pi/2, 0, 1)";
                  "circ.cp(np.pi/4, 0, 2)"; "circ.h(1)";
                  "circ.cp(np.pi/2, 1, 2)"; "circ.h(2)";
                  "circ.swap(0, 2)" ]) ])%list;
     note := None;
     qiskit_available := None |}.

(** [get_example_circuits] of [quantum_backend_docker.py]: the QFT
    example is added when Qiskit is available. *)
Definition docker_get_example_circuits (QISKIT_AVAILABLE : bool)
  : examples_response :=
  let examples := common_examples in
  let examples :=
    if QISKIT_AVAILABLE then
      (examples ++
       [ ("quantum_fourier_transform",
          text [ "# QFT on 3 qubits"; "import numpy as np";
                 "circ = QuantumCircuit(3)";
                 "circ.h(0)"; "circ.cp(np.pi/2, 0, 1)";
                 "circ.cp(np.pi/4, 0, 2)"; "circ.h(1)";
                 "circ.cp(np.pi/2, 1, 2)"; "circ.h(2)";
                 "circ.swap(0, 2)" ]) ])%list
    else examples in
  {| ex_success := true;
     examples := examples;
     note := None;
     qiskit_available := Some QISKIT_AVAILABLE |}.

(** [result] with the ['simulation_type'] key set. *)
Definition with_simulation_type (F : Type) (r : result F) (t : string)
  : result F :=
  {| success := success r;
     statevector := statevector r;
     num_qubits := num_qubits r;
     probabilities := probabilities r;
     marginal_probabilities := marginal_probabilities r;
     circuit_depth := circuit_depth r;
     circuit_size := circuit_size r;
     simulation_type := Some t;
     circuit_type := circuit_type r |}.

(** The request carries no ['qiskit_code']: [get_json] returned [None],
    an empty object, or an object without the key. *)
Definition lacks_code (data : json_body) : Prop :=
  match data with
  | None => True
  | Some d => dict_get "qiskit_code" d = None
  end.

(** The ['qiskit_code'] of the request, when there is one, is a
    string. *)
Definition text_code (data : json_body) : Prop :=
  match data with
  | None => True
  | Some d =>
    match dict_get "qiskit_code" d with
    | Some (POther _) => False
    | _ => True
    end
  end.

(** The probabilities of the basis state of index [k] on [n] qubits: 1
    at index [k], 0 at the other indices below [2^n]. *)
Definition basis_probabilities (n k : Z) : list R :=
  map (fun i => if (i =? k)%Z then 1%R else 0%R) (range (2 ^ n)).

(** What the two implementations of the fallback have in common in an
    answer: everything but the two keys of the docker backend. *)
Definition same_simulation (r r' : result float) : Prop :=
  success r = success r'
  /\ statevector r = statevector r'
  /\ num_qubits r = num_qubits r'
  /\ probabilities r = probabilities r'
  /\ marginal_probabilities r = marginal_probabilities r'
  /\ circuit_depth r = circuit_depth r'
  /\ circuit_size r = circuit_size r'.

End Routes.

(* ================================================================== *)
(** * Binary64 numbers as real numbers

    [PrimFloat] specifies its operations on the type [spec_float] of
    [SpecFloat]: a finite number is a sign, a mantissa and an exponent.
    This module gives these numbers their real values and names the
    quantities that bound the rounding error of one operation. *)

Module Binary64.
Local Open Scope R_scope.

(** [2^e] *)
Definition bpow (e : Z) : R := powerRZ 2 e.

Definition sgn (s : bool) : R := if s then -1 else 1.

(** The value of a floating-point number.  Infinities and NaN are set
    apart by [SFfinite]; their value here is 0. *)
Definition SF2R (x : spec_float) : R :=
  match x with
  | S754_finite s m e => sgn s * (IZR (Zpos m) * bpow e)
  | _ => 0
  end.

Definition SFfinite (x : spec_float) : bool :=
  match x with
  | S754_zero _ | S754_finite _ _ _ => true
  | _ => false
  end.

Definition SFvalid (x : spec_float) : Prop := valid_binary x = true.

(** The value of a binary64 number, and whether it is finite. *)
Definition B2R (x : float) : R := SF2R (Prim2SF x).

Definition finite (x : float) : bool := SFfinite (Prim2SF x).

(** A finite number that is not negative, as a probability must be. *)
Definition nonneg (x : float) : bool :=
  match Prim2SF x with
  | S754_zero _ | S754_finite false _ _ => true
  | _ => false
  end.

(** The unit roundoff of binary64, and half its smallest positive
    number. *)
Definition u64 : R := bpow (-53).
Definition eta64 : R := bpow (-1075).

(** The exponent of the last place of a number of magnitude below
    [2^e]. *)
Definition fexp64 (e : Z) : Z := Z.max (e - 53) (-1074).

(** What the two bits kept by a right shift of [k] places say about the
    part [rem] that was shifted out: nothing, less than half a unit,
    half a unit, more. *)
Definition loc_ok (k rem : Z) (r s : bool) : Prop :=
  match r, s with
  | false, false => rem = 0
  | false, true => 0 < rem /\ 2 * rem < 2 ^ k
  | true, false => 2 * rem = 2 ^ k
  | true, true => 2 ^ k < 2 * rem
  end%Z.

(** The number that rounding hands back for a mantissa and an exponent
    in range. *)
Definition rounded (s : bool) (m2 e2 : Z) : spec_float :=
  match m2 with
  | Z0 => S754_zero s
  | Zpos p => if (e2 <=? 971)%Z then S754_finite s p e2 else S754_infinity s
  | Zneg _ => S754_nan
  end.

(** Half a unit in the last place of [m * 2^e] when it has to be
    rounded, 0 when it is representable as it is. *)
Definition round_err (m : positive) (e : Z) : R :=
  if (e <? fexp64 (Zpos (digits2_pos m) + e))%Z
  then bpow (fexp64 (Zpos (digits2_pos m) + e) - 1)
  else 0.

(** The exact sum of the values of a sequence of binary64 numbers. *)
Definition vsum (l : list float) : R := Stmt.rsum (map B2R l).

(** The exact squared magnitude of a binary64 amplitude. *)
Definition norm2 (a : float * float) : R :=
  B2R (fst a) * B2R (fst a) + B2R (snd a) * B2R (snd a).

(** [1e-6] *)
Definition tolerance : R := / 1000000.

End Binary64.

(* ================================================================== *)
(** * The squared modulus of a numpy complex

    [quantum_backend.py] line 81 and [quantum_backend_docker.py] line 73
    compute [float(abs(amplitude)**2)] on the entries of Qiskit's array.
    [abs] of a numpy complex is the [hypot] of the C library, which is
    not part of the development; it is a parameter.  As for the Python
    floats of the fallback simulators, [x**2] is the rounded product. *)

Module Numpy.
Import Binary64.

Section Modulus.

Variable hypot : float -> float -> float.

Definition abs_sq (a : float * float) : float :=
  let h := hypot (fst a) (snd a) in (h * h)%float.

(** What the C library promises of [hypot] at one amplitude: a finite
    result within one unit in the last place of the modulus, that is,
    with a relative error of at most [2^-52]. *)
Definition accurate (a : float * float) : Prop :=
  finite (hypot (fst a) (snd a)) = true
  /\ (Rabs (B2R (hypot (fst a) (snd a)) - sqrt (norm2 a))
      <= bpow (-52) * sqrt (norm2 a))%R.

End Modulus.

End Numpy.

(* ================================================================== *)
(** * The fallback simulators *)

Import Py.
Unset Implicit Arguments.

(** The string operations on the texts the pattern matchers meet. *)

Example lower_example :
  PyStr.lower "circ = QuantumCircuit(3)" = "circ = quantumcircuit(3)"%string.
Proof. reflexivity. Qed.

Example contains_examples :
  PyStr.contains "h(0)" "circ.h(0)" = true
  /\ PyStr.contains "x(0)" "circ.cx(0, 0)" = false
  /\ PyStr.contains "x(0)" "circ.cx(0)" = true
  /\ PyStr.contains "" "" = true
  /\ PyStr.contains "ghz" "gh" = false.
Proof. repeat split. Qed.

Example classify_examples :
  Simple.classify (PyStr.lower Stmt.bell_example) = "bell_state"%string
  /\ Simple.classify (PyStr.lower Stmt.ghz_example) = "ghz_state"%string
  /\ Docker.is_bell (PyStr.lower Stmt.ghz_example) = true.
Proof. repeat split. Qed.

(** The loops on binary64 values: the Bell probabilities, and a list that
    is too short for two qubits ([IndexError]). *)
Example marginal_loop_examples :
  Analytics.marginal_probabilities_of 0%float PrimFloat.add
    [ 0.5; 0; 0; 0.5 ]%float 2
  = Some [ {| qubit := 0; prob_0 := 0.5%float; prob_1 := 0.5%float |};
           {| qubit := 1; prob_0 := 0.5%float; prob_1 := 0.5%float |} ]
  /\ Analytics.marginal_probabilities_of 0%float PrimFloat.add
       [ 0.25; 0.25; 0.5 ]%float 2
     = None.
Proof. split; reflexivity. Qed.

(** Case analysis on the [if]/[elif] chain: a property of the five
    branches holds for every [circuit_type]. *)
Lemma branches_cases (P : Z * list (float * float) * list (marginal float) -> Prop)
    (n : Z) :
  P (Simple.branches "bell_state" n) ->
  P (Simple.branches "ghz_state" n) ->
  P (Simple.branches "superposition" n) ->
  P (Simple.branches "x_gate" n) ->
  P (Simple.branches "default" n) ->
  forall circuit_type, P (Simple.branches circuit_type n).
Proof.
  intros Hbell Hghz Hsup Hx Hdef circuit_type.
  unfold Simple.branches.
  destruct (String.eqb circuit_type "bell_state"); [exact Hbell|].
  destruct (String.eqb circuit_type "ghz_state"); [exact Hghz|].
  destruct (String.eqb circuit_type "superposition"); [exact Hsup|].
  destruct (String.eqb circuit_type "x_gate"); [exact Hx|].
  exact Hdef.
Qed.

Lemma simple_normalised (circuit_type : string) (n : Z) :
  Stmt.normalised (Simple.simulate_simple_circuit circuit_type n).
Proof.
  unfold Simple.simulate_simple_circuit.
  pattern (Simple.branches circuit_type n).
  apply branches_cases; repeat split; vm_compute; reflexivity.
Qed.

Lemma simple_marginals_consistent (circuit_type : string) (n : Z) :
  Stmt.marginals_consistent (Simple.simulate_simple_circuit circuit_type n).
Proof.
  unfold Simple.simulate_simple_circuit.
  pattern (Simple.branches circuit_type n).
  apply branches_cases; (split; [repeat constructor | vm_compute; reflexivity]).
Qed.

Lemma docker_normalised (qiskit_code : string) :
  Stmt.normalised (Docker.simulate_simple_circuit qiskit_code).
Proof.
  unfold Docker.simulate_simple_circuit, Docker.branches.
  destruct (Docker.is_bell _); [repeat split; vm_compute; reflexivity|].
  destruct (Docker.is_ghz _); [repeat split; vm_compute; reflexivity|].
  destruct (Docker.is_superposition _);
    [repeat split; vm_compute; reflexivity|].
  destruct (Docker.is_x_gate _); repeat split; vm_compute; reflexivity.
Qed.

(* ================================================================== *)
(** * The analytics loops *)

Section AnalyticsFacts.

Variable F : Type.
Variable zero : F.
Variable add : F -> F -> F.

Lemma bit_is_zero_testbit (i q : Z) :
  (0 <= q)%Z -> Analytics.bit_is_zero i q = negb (Z.testbit i q).
Proof.
  intros Hq. unfold Analytics.bit_is_zero.
  change 1%Z with (Z.ones 1).
  rewrite Z.land_ones by lia.
  change (2 ^ 1)%Z with 2%Z.
  rewrite <- Z.bit0_mod, Z.shiftr_spec by lia.
  rewrite Z.add_0_l.
  destruct (Z.testbit i q); reflexivity.
Qed.

Lemma index_range (A : Type) (l : list A) (k i : Z) :
  (k <= Z.of_nat (List.length l))%Z -> In i (range k) ->
  exists a, index l i = Some a.
Proof.
  intros Hk Hi. unfold range in Hi.
  apply in_map_iff in Hi. destruct Hi as [j [<- Hj]].
  apply in_seq in Hj.
  unfold index.
  destruct (Z.ltb_spec (Z.of_nat j) 0); [lia|].
  rewrite Nat2Z.id.
  destruct (nth_error l j) eqn:E; [eauto|].
  apply nth_error_None in E. lia.
Qed.

(** The inner loop accumulates, for each value of the bit, the selected
    probabilities in index order. *)
Lemma marginal_fold (probabilities : list F) (q : Z) (idxs : list Z) :
  (0 <= q)%Z ->
  (forall i, In i idxs -> exists p, index probabilities i = Some p) ->
  forall a0 a1,
    fold_left (Analytics.marginal_step add probabilities q) idxs (Some (a0, a1))
    = Some (fold_left add (Stmt.select probabilities q false idxs) a0,
            fold_left add (Stmt.select probabilities q true idxs) a1).
Proof.
  intros Hq. induction idxs as [|i idxs IH]; intros Hin a0 a1.
  - reflexivity.
  - destruct (Hin i (or_introl eq_refl)) as [p Hp].
    assert (Hin' : forall j, In j idxs -> exists p, index probabilities j = Some p)
      by (intros j Hj; apply Hin; right; exact Hj).
    cbn [fold_left Analytics.marginal_step].
    unfold Stmt.select. cbn [flat_map].
    rewrite Hp, bit_is_zero_testbit by exact Hq.
    rewrite !fold_left_app.
    destruct (Z.testbit i q); cbn [negb Bool.eqb fold_left];
      rewrite (IH Hin'); reflexivity.
Qed.

Lemma marginal_of_spec (probabilities : list F) (n q : Z) :
  (0 <= q)%Z ->
  (2 ^ n <= Z.of_nat (List.length probabilities))%Z ->
  Analytics.marginal_of zero add probabilities n q
  = Some {| qubit := q;
            prob_0 := fst (Stmt.marginal_spec zero add probabilities n q);
            prob_1 := snd (Stmt.marginal_spec zero add probabilities n q) |}.
Proof.
  intros Hq Hlen. unfold Analytics.marginal_of.
  rewrite marginal_fold; [reflexivity | exact Hq |].
  intros i. apply index_range. exact Hlen.
Qed.

Lemma outer_loop (probabilities : list F) (n : Z) (g : Z -> marginal F)
    (qs : list Z) :
  (forall q, In q qs ->
     Analytics.marginal_of zero add probabilities n q = Some (g q)) ->
  forall ms,
    fold_left
      (fun acc qubit_idx =>
         match acc with
         | None => None
         | Some ms =>
           match Analytics.marginal_of zero add probabilities n qubit_idx with
           | None => None
           | Some m => Some (ms ++ [m])
           end
         end) qs (Some ms)
    = Some (ms ++ map g qs).
Proof.
  induction qs as [|q qs IH]; intros Hg ms; cbn [fold_left map].
  - now rewrite app_nil_r.
  - rewrite (Hg q (or_introl eq_refl)).
    rewrite IH by (intros q' Hq'; apply Hg; right; exact Hq').
    now rewrite <- app_assoc.
Qed.

Lemma range_nonneg (k i : Z) : In i (range k) -> (0 <= i < k)%Z.
Proof.
  unfold range. intros Hi. apply in_map_iff in Hi.
  destruct Hi as [j [<- Hj]]. apply in_seq in Hj. lia.
Qed.

Lemma marginal_probabilities_spec (probabilities : list F) (n : Z) :
  (2 ^ n <= Z.of_nat (List.length probabilities))%Z ->
  Analytics.marginal_probabilities_of zero add probabilities n
  = Some (Stmt.marginals_spec zero add probabilities n).
Proof.
  intros Hlen. unfold Analytics.marginal_probabilities_of, Stmt.marginals_spec.
  rewrite outer_loop with (g := fun q =>
    {| qubit := q;
       prob_0 := fst (Stmt.marginal_spec zero add probabilities n q);
       prob_1 := snd (Stmt.marginal_spec zero add probabilities n q) |}).
  - reflexivity.
  - intros q Hq. apply range_nonneg in Hq.
    apply marginal_of_spec; [lia | exact Hlen].
Qed.

(** Whenever the loops finish without an [IndexError], what they have
    built is the specification's list. *)

Lemma marginal_fold_none (probabilities : list F) (q : Z) (idxs : list Z) :
  fold_left (Analytics.marginal_step add probabilities q) idxs None = None.
Proof. induction idxs as [|i idxs IH]; [reflexivity | exact IH]. Qed.

Lemma marginal_fold_some (probabilities : list F) (q : Z) (idxs : list Z) :
  (0 <= q)%Z ->
  forall a0 a1 r,
    fold_left (Analytics.marginal_step add probabilities q) idxs (Some (a0, a1))
    = Some r ->
    r = (fold_left add (Stmt.select probabilities q false idxs) a0,
         fold_left add (Stmt.select probabilities q true idxs) a1).
Proof.
  intros Hq. induction idxs as [|i idxs IH]; intros a0 a1 r.
  - cbn. now intros [= <-].
  - cbn [fold_left Analytics.marginal_step].
    unfold Stmt.select. cbn [flat_map].
    destruct (index probabilities i) as [p|].
    + rewrite bit_is_zero_testbit by exact Hq.
      rewrite !fold_left_app.
      destruct (Z.testbit i q); cbn [negb Bool.eqb fold_left]; apply IH.
    + now rewrite marginal_fold_none.
Qed.

Lemma marginal_of_some (probabilities : list F) (n q : Z) (m : marginal F) :
  (0 <= q)%Z ->
  Analytics.marginal_of zero add probabilities n q = Some m ->
  m = {| qubit := q;
         prob_0 := fst (Stmt.marginal_spec zero add probabilities n q);
         prob_1 := snd (Stmt.marginal_spec zero add probabilities n q) |}.
Proof.
  intros Hq. unfold Analytics.marginal_of.
  destruct (fold_left _ _ _) as [[p0 p1]|] eqn:E; [|discriminate].
  apply marginal_fold_some in E; [|exact Hq].
  injection E as -> ->. now intros [= <-].
Qed.

Lemma outer_loop_some (probabilities : list F) (n : Z) (qs : list Z) :
  (forall q, In q qs -> (0 <= q)%Z) ->
  forall ms0 ms,
    fold_left
      (fun acc qubit_idx =>
         match acc with
         | None => None
         | Some ms =>
           match Analytics.marginal_of zero add probabilities n qubit_idx with
           | None => None
           | Some m => Some (ms ++ [m])
           end
         end) qs ms0
    = Some ms ->
    exists ms1, ms0 = Some ms1 /\
      ms = ms1 ++ map (fun q =>
        {| qubit := q;
           prob_0 := fst (Stmt.marginal_spec zero add probabilities n q);
           prob_1 := snd (Stmt.marginal_spec zero add probabilities n q) |}) qs.
Proof.
  induction qs as [|q qs IH]; intros Hqs ms0 ms; cbn [fold_left map].
  - intros ->. exists ms. now rewrite app_nil_r.
  - intros Hf. apply IH in Hf; [|intros q' Hq'; apply Hqs; now right].
    destruct Hf as (ms1 & Hs & ->).
    destruct ms0 as [ms0|]; [|discriminate].
    destruct (Analytics.marginal_of zero add probabilities n q) as [m|] eqn:E;
      [|discriminate].
    apply marginal_of_some in E; [|apply Hqs; now left].
    injection Hs as <-. subst m.
    exists ms0. split; [reflexivity|]. now rewrite <- app_assoc.
Qed.

Lemma marginal_probabilities_some (probabilities : list F) (n : Z)
    (ms : list (marginal F)) :
  Analytics.marginal_probabilities_of zero add probabilities n = Some ms ->
  ms = Stmt.marginals_spec zero add probabilities n.
Proof.
  unfold Analytics.marginal_probabilities_of. intros Hf.
  apply outer_loop_some in Hf.
  - destruct Hf as (ms1 & [= <-] & ->). reflexivity.
  - intros q Hq. apply range_nonneg in Hq. lia.
Qed.

End AnalyticsFacts.

(** Over the reals the two marginals of a qubit add up to the sum of all
    probabilities. *)

Lemma rsum_app (l l' : list R) :
  Stmt.rsum (l ++ l') = (Stmt.rsum l + Stmt.rsum l')%R.
Proof.
  induction l as [|x l IH]; cbn [app Stmt.rsum fold_right].
  - now rewrite Rplus_0_l.
  - fold (Stmt.rsum (l ++ l')). fold (Stmt.rsum l). rewrite IH. ring.
Qed.

Lemma fold_left_Rplus (l : list R) (a : R) :
  fold_left Rplus l a = (a + Stmt.rsum l)%R.
Proof.
  revert a. induction l as [|x l IH]; intros a; cbn [fold_left Stmt.rsum fold_right].
  - now rewrite Rplus_0_r.
  - fold (Stmt.rsum l). rewrite IH. ring.
Qed.

Lemma flat_map_map (A B C : Type) (f : B -> list C) (g : A -> B) (l : list A) :
  flat_map f (map g l) = flat_map (fun x => f (g x)) l.
Proof.
  induction l as [|x l IH]; cbn [map flat_map]; [reflexivity | now rewrite IH].
Qed.

Lemma flat_map_nth_error (A : Type) (l : list A) :
  flat_map (fun i => match nth_error l i with Some p => [p] | None => [] end)
           (seq 0 (List.length l)) = l.
Proof.
  induction l as [|x l IH]; [reflexivity|].
  cbn [List.length seq flat_map nth_error app].
  rewrite <- seq_shift, flat_map_map. cbn [nth_error].
  now rewrite IH.
Qed.

Lemma select_split (probabilities : list R) (q : Z) (idxs : list Z) :
  (Stmt.rsum (Stmt.select probabilities q false idxs)
   + Stmt.rsum (Stmt.select probabilities q true idxs))%R
  = Stmt.rsum
      (flat_map (fun i => match index probabilities i with
                          | Some p => [p] | None => [] end) idxs).
Proof.
  unfold Stmt.select.
  induction idxs as [|i idxs IH]; cbn [flat_map].
  - cbn. ring.
  - rewrite !rsum_app, <- IH.
    destruct (Z.testbit i q), (index probabilities i);
      cbn [Bool.eqb app Stmt.rsum fold_right]; ring.
Qed.

Lemma all_indices (probabilities : list R) (n : Z) :
  Z.of_nat (List.length probabilities) = (2 ^ n)%Z ->
  flat_map (fun i => match index probabilities i with
                     | Some p => [p] | None => [] end) (range (2 ^ n))
  = probabilities.
Proof.
  intros Hlen. unfold range.
  rewrite <- Hlen, Nat2Z.id, flat_map_map.
  rewrite <- (flat_map_nth_error _ probabilities) at 2.
  apply flat_map_ext. intros j. unfold index.
  destruct (Z.ltb_spec (Z.of_nat j) 0); [lia|].
  now rewrite Nat2Z.id.
Qed.

Lemma marginal_spec_total (probabilities : list R) (n q : Z) :
  Z.of_nat (List.length probabilities) = (2 ^ n)%Z ->
  (fst (Stmt.marginal_spec 0%R Rplus probabilities n q)
   + snd (Stmt.marginal_spec 0%R Rplus probabilities n q))%R
  = Stmt.rsum probabilities.
Proof.
  intros Hlen. unfold Stmt.marginal_spec. cbn [fst snd].
  rewrite !fold_left_Rplus, !Rplus_0_l.
  rewrite select_split, all_indices by exact Hlen.
  reflexivity.
Qed.

(* ================================================================== *)
(** * The engine preserves the norm *)

Section EngineNorm.
Import Engine.
Local Open Scope R_scope.

Lemma upd_length (i : nat) (v : amplitude) (st : state) :
  List.length (upd i v st) = List.length st.
Proof.
  revert i. induction st as [|a st IH]; intros [|i]; cbn [upd List.length];
    try reflexivity.
  now rewrite IH.
Qed.

Lemma amp_upd_same (i : nat) (v : amplitude) (st : state) :
  (i < List.length st)%nat -> amp (upd i v st) i = v.
Proof.
  unfold amp. revert i.
  induction st as [|a st IH]; intros [|i] Hi; cbn in Hi |- *;
    try lia; try reflexivity.
  apply IH. lia.
Qed.

Lemma amp_upd_other (i j : nat) (v : amplitude) (st : state) :
  i <> j -> amp (upd i v st) j = amp st j.
Proof.
  unfold amp. revert i j.
  induction st as [|a st IH]; intros [|i] [|j] Hij; cbn; try reflexivity;
    try congruence.
  apply IH. congruence.
Qed.

Lemma total_upd (i : nat) (v : amplitude) (st : state) :
  (i < List.length st)%nat ->
  Stmt.total (upd i v st) = Stmt.total st - norm2 (amp st i) + norm2 v.
Proof.
  unfold Stmt.total, Stmt.rsum, amp. revert i.
  induction st as [|a st IH]; intros [|i] Hi; cbn in Hi |- *; try lia.
  - ring.
  - rewrite IH by lia. ring.
Qed.

(** Rewriting two distinct positions without changing the sum of their
    squared magnitudes keeps the total. *)
Lemma total_pair (i j : nat) (a' b' : amplitude) (st : state) :
  (i < List.length st)%nat -> (j < List.length st)%nat -> i <> j ->
  norm2 a' + norm2 b' = norm2 (amp st i) + norm2 (amp st j) ->
  Stmt.total (upd j b' (upd i a' st)) = Stmt.total st.
Proof.
  intros Hi Hj Hij Hn.
  rewrite total_upd by (rewrite upd_length; exact Hj).
  rewrite total_upd by exact Hi.
  rewrite amp_upd_other by exact Hij.
  lra.
Qed.

Lemma unitary_pair (m : matrix2) (a b : amplitude) :
  unitary m ->
  norm2 (Cadd (Cmul (m00 m) a) (Cmul (m01 m) b))
  + norm2 (Cadd (Cmul (m10 m) a) (Cmul (m11 m) b))
  = norm2 a + norm2 b.
Proof.
  intros (H0 & H1 & H2).
  destruct m as [[u1 u2] [v1 v2] [w1 w2] [x1 x2]], a as [a1 a2], b as [b1 b2].
  unfold norm2, Cadd, Cmul, conj_mul, Czero in *. cbn [fst snd m00 m01 m10 m11] in *.
  injection H2 as Hre Him.
  replace ((u1 * a1 - u2 * a2 + (v1 * b1 - v2 * b2))
           * (u1 * a1 - u2 * a2 + (v1 * b1 - v2 * b2))
           + (u1 * a2 + u2 * a1 + (v1 * b2 + v2 * b1))
             * (u1 * a2 + u2 * a1 + (v1 * b2 + v2 * b1))
           + ((w1 * a1 - w2 * a2 + (x1 * b1 - x2 * b2))
              * (w1 * a1 - w2 * a2 + (x1 * b1 - x2 * b2))
              + (w1 * a2 + w2 * a1 + (x1 * b2 + x2 * b1))
                * (w1 * a2 + w2 * a1 + (x1 * b2 + x2 * b1))))
    with ((u1 * u1 + u2 * u2 + (w1 * w1 + w2 * w2)) * (a1 * a1 + a2 * a2)
          + (v1 * v1 + v2 * v2 + (x1 * x1 + x2 * x2)) * (b1 * b1 + b2 * b2)
          + 2 * ((u1 * v1 + u2 * v2 + (w1 * x1 + w2 * x2)) * (a1 * b1 + a2 * b2)
                 - (u1 * v2 - u2 * v1 + (w1 * x2 - w2 * x1)) * (a1 * b2 - a2 * b1)))
    by ring.
  rewrite H0, H1, Hre, Him. ring.
Qed.

Lemma sqrt2_inv_sq : / sqrt 2 * / sqrt 2 = / 2.
Proof.
  rewrite <- Rinv_mult. f_equal. apply sqrt_sqrt. lra.
Qed.

Lemma named_gates_unitary (u : unitary1) :
  match u with GateU _ => True | _ => unitary (matrix_of u) end.
Proof.
  destruct u; try exact I; unfold unitary; cbn [matrix_of m00 m01 m10 m11];
    unfold norm2, Cadd, conj_mul, Czero, Cone; cbn [fst snd].
  - pose proof sqrt2_inv_sq as E.
    repeat split; try f_equal; try nra.
  - repeat split; try f_equal; ring.
  - repeat split; try f_equal; ring.
  - repeat split; try f_equal; ring.
Qed.

Lemma unitary_matrix_of (u : unitary1) :
  match u with GateU m => unitary m | _ => True end -> unitary (matrix_of u).
Proof.
  destruct u; intros Hu; try exact Hu.
  - exact (named_gates_unitary GateH).
  - exact (named_gates_unitary GateX).
  - exact (named_gates_unitary GateY).
  - exact (named_gates_unitary GateZ).
Qed.

Lemma phase_norm (theta : R) (a : amplitude) :
  norm2 (Cmul (cos theta, sin theta) a) = norm2 a.
Proof.
  destruct a as [a1 a2]. unfold norm2, Cmul. cbn [fst snd].
  pose proof (sin2_cos2 theta) as E. unfold Rsqr in E.
  replace ((cos theta * a1 - sin theta * a2) * (cos theta * a1 - sin theta * a2)
           + (cos theta * a2 + sin theta * a1) * (cos theta * a2 + sin theta * a1))
    with ((sin theta * sin theta + cos theta * cos theta) * (a1 * a1 + a2 * a2))
    by ring.
  rewrite E. ring.
Qed.

(** *** Index arithmetic *)

Lemma pow2_pos (n : nat) : (0 < 2 ^ n)%nat.
Proof. apply Nat.neq_0_lt_0, Nat.pow_nonzero. discriminate. Qed.

Lemma setbit_lt (n i q : nat) :
  (i < 2 ^ n)%nat -> (q < n)%nat -> (Nat.setbit i q < 2 ^ n)%nat.
Proof.
  intros Hi Hq. rewrite Nat.setbit_spec'.
  destruct (Nat.eq_dec (Nat.lor i (2 ^ q)) 0) as [E|E].
  - rewrite E. apply pow2_pos.
  - apply Nat.log2_lt_pow2; [lia|].
    rewrite Nat.log2_lor, Nat.log2_pow2 by lia.
    apply Nat.max_lub_lt; [|exact Hq].
    destruct (Nat.eq_dec i 0) as [->|Hi0]; [cbn; lia|].
    apply Nat.log2_lt_pow2; [lia | exact Hi].
Qed.

Lemma clearbit_le (i a : nat) : (Nat.clearbit i a <= i)%nat.
Proof. rewrite Nat.clearbit_spec'. apply Nat.ldiff_le_l. Qed.

Lemma setbit_changes (i j q : nat) :
  bit i q = false -> Nat.setbit j q <> i.
Proof.
  intros Hb E. unfold bit in Hb.
  rewrite <- E, Nat.setbit_eq in Hb. discriminate.
Qed.

(** *** One step of a sweep, one operation, a whole circuit *)

Lemma apply_pair_preserved (n : nat) (m : matrix2) (i q : nat) (st : state) :
  unitary m -> List.length st = (2 ^ n)%nat ->
  (i < 2 ^ n)%nat -> (q < n)%nat -> bit i q = false ->
  Stmt.preserved n st (apply_pair m i (Nat.setbit i q) st).
Proof.
  intros Hm Hlen Hi Hq Hb. unfold apply_pair. split.
  - now rewrite !upd_length.
  - apply total_pair.
    + lia.
    + rewrite Hlen. now apply setbit_lt.
    + intros E. symmetry in E. revert E. now apply setbit_changes.
    + now apply unitary_pair.
Qed.

Lemma visit_preserved (n : nat) (op : operation) (st : state) (i : nat) :
  in_range n op -> unitary_operation op ->
  List.length st = (2 ^ n)%nat -> (i < 2 ^ n)%nat ->
  Stmt.preserved n st (visit op st i).
Proof.
  intros Hr Hu Hlen Hi.
  assert (Hst : Stmt.preserved n st st) by (split; [exact Hlen | reflexivity]).
  destruct op as [u q | u c q | theta c q | a b]; cbn [visit];
    unfold in_range in Hr; cbn [qubits_of] in Hr.
  - destruct (bit i q) eqn:Hb; [exact Hst|].
    apply apply_pair_preserved; try assumption.
    + apply unitary_matrix_of. destruct u; exact Hu.
    + now inversion Hr.
  - destruct (bit i c); cbn [andb]; [|exact Hst].
    destruct (bit i q) eqn:Hb; cbn [negb]; [exact Hst|].
    apply apply_pair_preserved; try assumption.
    + apply unitary_matrix_of. destruct u; exact Hu.
    + inversion Hr as [|? ? _ Hr']. now inversion Hr'.
  - destruct (bit i c && bit i q); [|exact Hst].
    split; [now rewrite upd_length|].
    rewrite total_upd by lia. rewrite phase_norm. ring.
  - destruct (bit i a); cbn [andb]; [|exact Hst].
    destruct (bit i b) eqn:Hb; cbn [negb]; [exact Hst|].
    unfold exchange. split; [now rewrite !upd_length|].
    apply total_pair.
    + lia.
    + rewrite Hlen. apply setbit_lt.
      * eapply Nat.le_lt_trans; [apply clearbit_le | exact Hi].
      * inversion Hr as [|? ? _ Hr']. now inversion Hr'.
    + intros E. symmetry in E. revert E. now apply setbit_changes.
    + ring.
Qed.

Lemma sweep_preserved (n : nat) (op : operation) (idxs : list nat) :
  in_range n op -> unitary_operation op ->
  (forall i, In i idxs -> (i < 2 ^ n)%nat) ->
  forall st : state, List.length st = (2 ^ n)%nat ->
  Stmt.preserved n st (fold_left (visit op) idxs st).
Proof.
  intros Hr Hu. induction idxs as [|i idxs IH]; intros Hin st Hlen;
    cbn [fold_left].
  - split; [exact Hlen | reflexivity].
  - destruct (visit_preserved n op st i Hr Hu Hlen) as [Hl Ht];
      [apply Hin; now left|].
    destruct (IH (fun j Hj => Hin j (or_intror Hj)) _ Hl) as [Hl' Ht'].
    split; [exact Hl' | now rewrite Ht'].
Qed.

Lemma apply_operation_preserved (n : nat) (op : operation) (st : state) :
  in_range n op -> unitary_operation op -> List.length st = (2 ^ n)%nat ->
  Stmt.preserved n st (apply_operation n st op).
Proof.
  intros Hr Hu Hlen. unfold apply_operation.
  apply sweep_preserved; try assumption.
  intros i Hi. apply in_seq in Hi. lia.
Qed.

Lemma operations_preserved (n : nat) (ops : list operation) :
  Forall (in_range n) ops -> Forall unitary_operation ops ->
  forall st : state, List.length st = (2 ^ n)%nat ->
  Stmt.preserved n st (fold_left (apply_operation n) ops st).
Proof.
  induction ops as [|op ops IH]; intros Hr Hu st Hlen; cbn [fold_left].
  - split; [exact Hlen | reflexivity].
  - inversion Hr as [|? ? Hr1 Hr2]; inversion Hu as [|? ? Hu1 Hu2]; subst.
    destruct (apply_operation_preserved n op st Hr1 Hu1 Hlen) as [Hl Ht].
    destruct (IH Hr2 Hu2 _ Hl) as [Hl' Ht'].
    split; [exact Hl' | now rewrite Ht'].
Qed.

Lemma repeat_Czero (k : nat) :
  Stmt.total (repeat Czero k) = 0 /\
  (forall i, amp (repeat Czero k) i = Czero).
Proof.
  unfold Stmt.total, Stmt.rsum, amp. induction k as [|k [IH1 IH2]]; cbn.
  - split; [reflexivity | now intros [|i]].
  - split.
    + rewrite IH1. unfold norm2, Czero. cbn. ring.
    + intros [|i]; [reflexivity | apply IH2].
Qed.

Lemma ground_state_normalised (n : nat) :
  List.length (ground_state n) = (2 ^ n)%nat /\
  Stmt.total (ground_state n) = 1.
Proof.
  unfold ground_state. split.
  - now rewrite upd_length, repeat_length.
  - rewrite total_upd by (rewrite repeat_length; apply pow2_pos).
    destruct (repeat_Czero (2 ^ n)) as [-> ->].
    unfold norm2, Czero, Cone. cbn. ring.
Qed.

End EngineNorm.

(* ================================================================== *)
(** * Validation *)

Section Validation.
Import Engine.

Lemma in_range_forallb (n : nat) (op : operation) :
  forallb (fun q => q <? n)%nat (qubits_of op) = true <-> in_range n op.
Proof.
  unfold in_range. rewrite forallb_forall, Forall_forall.
  split; intros Hq q Hin; specialize (Hq q Hin); now apply Nat.ltb_lt.
Qed.

Lemma check_operation_none (n : nat) (op : operation) :
  check_operation n op = None <-> in_range n op /\ ~ control_is_target op.
Proof.
  unfold check_operation.
  destruct (forallb (fun q => q <? n)%nat (qubits_of op)) eqn:E; cbn [negb].
  - apply in_range_forallb in E.
    destruct op as [u q | u c q | theta c q | a b]; cbn [control_is_target];
      try (destruct (Nat.eqb_spec c q)); split; try tauto;
      try discriminate; intros [_ Hc]; try reflexivity; contradiction.
  - split; [discriminate|]. intros [Hr _].
    apply in_range_forallb in Hr. congruence.
Qed.

Lemma check_operation_some (n : nat) (op : operation) (c : constraint) :
  check_operation n op = Some c ->
  (c = IndexOutOfRange /\ ~ in_range n op) \/
  (c = ControlEqualsTarget /\ control_is_target op).
Proof.
  unfold check_operation.
  destruct (forallb (fun q => q <? n)%nat (qubits_of op)) eqn:E; cbn [negb].
  - destruct op as [u q | u c' q | theta c' q | a b]; try discriminate.
    + destruct (Nat.eqb_spec c' q) as [Heq|]; [|discriminate].
      intros [= <-]. right. split; [reflexivity | exact Heq].
    + destruct (Nat.eqb_spec c' q) as [Heq|]; [|discriminate].
      intros [= <-]. right. split; [reflexivity | exact Heq].
  - intros [= <-]. left. split; [reflexivity|].
    intros Hr. apply in_range_forallb in Hr. congruence.
Qed.

Lemma check_operations_none (n k : nat) (ops : list operation) :
  check_operations n k ops = None <->
  Forall (fun op => in_range n op /\ ~ control_is_target op) ops.
Proof.
  revert k. induction ops as [|op ops IH]; intros k; cbn [check_operations].
  - split; [constructor | reflexivity].
  - destruct (check_operation n op) eqn:E.
    + split; [discriminate|]. intros Hall. inversion Hall as [|? ? Hop _].
      apply check_operation_none in Hop. congruence.
    + rewrite IH. apply check_operation_none in E.
      split; [now constructor | intros Hall; now inversion Hall].
Qed.

Lemma check_operations_some (n k : nat) (ops : list operation)
    (e : validation_error) :
  check_operations n k ops = Some e ->
  exists j op c, e = ValidationError c (Some (k + j)) /\
    nth_error ops j = Some op /\
    ((c = IndexOutOfRange /\ ~ in_range n op) \/
     (c = ControlEqualsTarget /\ control_is_target op)).
Proof.
  revert k. induction ops as [|op ops IH]; intros k; cbn [check_operations];
    [discriminate|].
  destruct (check_operation n op) as [c|] eqn:E.
  - intros [= <-]. exists 0%nat, op, c. rewrite Nat.add_0_r.
    split; [reflexivity|]. split; [reflexivity|].
    now apply check_operation_some.
  - intros Hk. destruct (IH _ Hk) as (j & op' & c & -> & Hn & Hc).
    exists (S j), op', c. rewrite Nat.add_succ_r.
    split; [reflexivity|]. split; [exact Hn | exact Hc].
Qed.

(** An accepted circuit is the one that was submitted, within bounds. *)
Lemma validate_accepts (cfg : config) (n : nat) (ops : list operation)
    (c : circuit) :
  validate cfg n ops = inr c ->
  c = Circuit n ops /\ (1 <= n <= max_qubits cfg)%nat /\
  Forall (fun op => in_range n op /\ ~ control_is_target op) ops.
Proof.
  unfold validate.
  destruct (Nat.leb_spec 1 n), (Nat.leb_spec n (max_qubits cfg));
    cbn [andb negb]; try discriminate.
  destruct (max_operations cfg <? List.length ops)%nat; [discriminate|].
  destruct (check_operations n 0 ops) eqn:E; [discriminate|].
  intros [= <-]. apply check_operations_none in E.
  split; [reflexivity|]. split; [lia | exact E].
Qed.

(** A reported failure names a constraint that is violated. *)
Lemma validate_rejects (cfg : config) (n : nat) (ops : list operation)
    (e : validation_error) :
  validate cfg n ops = inl e -> violation cfg n ops e.
Proof.
  unfold validate, violation.
  destruct (Nat.leb_spec 1 n), (Nat.leb_spec n (max_qubits cfg));
    cbn [andb negb]; try (intros [= <-]; cbn; lia).
  destruct (Nat.ltb_spec (max_operations cfg) (List.length ops));
    [intros [= <-]; cbn; lia|].
  destruct (check_operations n 0 ops) eqn:E; [|discriminate].
  intros [= <-].
  destruct (check_operations_some _ _ _ _ E) as (j & op & c & -> & Hn & Hc).
  cbn [violated at_operation Nat.add].
  destruct Hc as [[-> Hc] | [-> Hc]]; exists op; split; assumption.
Qed.

(** A circuit with an offending operation is never accepted. *)
Lemma validate_offending (cfg : config) (n : nat) (ops : list operation) :
  Exists (fun op => ~ in_range n op \/ control_is_target op) ops ->
  exists e, validate cfg n ops = inl e.
Proof.
  intros Hex. destruct (validate cfg n ops) as [e|c] eqn:E; [eauto|].
  apply validate_accepts in E. destruct E as (_ & _ & Hall).
  apply Exists_exists in Hex. destruct Hex as (op & Hin & Hbad).
  rewrite Forall_forall in Hall. destruct (Hall op Hin) as [Hr Hc].
  tauto.
Qed.

End Validation.

(* ================================================================== *)
(** * The Qiskit-backed endpoint on top of the engine *)

Section BackendOnEngine.
Import Engine.
Local Open Scope R_scope.

Lemma visit_length (op : operation) (st : state) (i : nat) :
  List.length (visit op st i) = List.length st.
Proof.
  destruct op; cbn [visit];
    repeat match goal with |- context [if ?b then _ else _] => destruct b end;
    unfold apply_pair, exchange; now rewrite ?upd_length.
Qed.

Lemma apply_operation_length (n : nat) (st : state) (op : operation) :
  List.length (apply_operation n st op) = List.length st.
Proof.
  unfold apply_operation. generalize (seq 0 (2 ^ n)). intros idxs.
  revert st. induction idxs as [|i idxs IH]; intros st; cbn [fold_left];
    [reflexivity|].
  now rewrite IH, visit_length.
Qed.

Lemma simulate_length (c : circuit) :
  List.length (simulate c) = (2 ^ qubit_count c)%nat.
Proof.
  unfold simulate.
  rewrite <- (proj1 (ground_state_normalised (qubit_count c))).
  generalize (ground_state (qubit_count c)). generalize (qubit_count c).
  intros n. induction (operations c) as [|op ops IH]; intros st;
    cbn [fold_left]; [reflexivity|].
  now rewrite IH, apply_operation_length.
Qed.

(** Every circuit that passes validation, with unitary matrices, is
    evolved into a state of norm one. *)
Lemma simulate_normalised (cfg : config) (n : nat) (ops : list operation)
    (c : circuit) :
  validate cfg n ops = inr c -> Forall unitary_operation ops ->
  Stmt.total (simulate c) = 1.
Proof.
  intros Hv Hu. apply validate_accepts in Hv. destruct Hv as (-> & _ & Hall).
  unfold simulate. cbn [qubit_count operations].
  destruct (ground_state_normalised n) as [Hlen Hone].
  destruct (operations_preserved n ops) with (st := ground_state n)
    as [_ Ht]; try assumption.
  - eapply Forall_impl; [|exact Hall]. now intros op [Hr _].
  - now rewrite Ht.
Qed.

Lemma abs_sq_norm2 (a : amplitude) : abs_sq a = norm2 a.
Proof.
  unfold abs_sq, norm2. apply sqrt_sqrt.
  pose proof (Rle_0_sqr (fst a)). pose proof (Rle_0_sqr (snd a)).
  unfold Rsqr in *. lra.
Qed.

Lemma probabilities_total (st : state) :
  Stmt.rsum (Analytics.probabilities_of abs_sq st) = Stmt.total st.
Proof.
  unfold Analytics.probabilities_of, Stmt.total.
  f_equal. apply map_ext. exact abs_sq_norm2.
Qed.

Lemma probabilities_length (c : circuit) :
  Z.of_nat (List.length (Analytics.probabilities_of abs_sq (simulate c)))
  = (2 ^ Z.of_nat (qubit_count c))%Z.
Proof.
  unfold Analytics.probabilities_of.
  rewrite length_map, simulate_length, Nat2Z.inj_pow. reflexivity.
Qed.

Lemma backend_accepts (exec : string -> QiskitAPI.exec_result circuit)
    (code : string) (cfg : config) (n : nat) (ops : list operation)
    (c : circuit) :
  exec code = run_script cfg n ops ->
  validate cfg n ops = inr c ->
  Backend.simulate_quantum_circuit (Q := qiskit exec) 0 Rplus abs_sq
    (Stmt.body code)
  = (Success (Stmt.engine_result c),
     [Backend.EvExec; Backend.EvStatevector (2 ^ Z.of_nat (qubit_count c))]).
Proof.
  intros He Hv. unfold Backend.simulate_quantum_circuit, Stmt.body.
  cbn [dict_get String.eqb Ascii.eqb Bool.eqb].
  cbn [QiskitAPI.exec_code qiskit]. rewrite He. unfold run_script. rewrite Hv.
  cbn [QiskitAPI.evolve_from_zero QiskitAPI.qc_num_qubits QiskitAPI.qc_depth
       QiskitAPI.qc_size qiskit].
  rewrite marginal_probabilities_spec
    by (rewrite probabilities_length; reflexivity).
  reflexivity.
Qed.

Lemma backend_rejects (exec : string -> QiskitAPI.exec_result circuit)
    (code : string) (cfg : config) (n : nat) (ops : list operation)
    (e : validation_error) :
  exec code = run_script cfg n ops ->
  validate cfg n ops = inl e ->
  Backend.simulate_quantum_circuit (Q := qiskit exec) 0 Rplus abs_sq
    (Stmt.body code)
  = (Failure 500 ("Simulation error: " ++ describe (violated e)),
     [Backend.EvExec]).
Proof.
  intros He Hv. unfold Backend.simulate_quantum_circuit, Stmt.body.
  cbn [dict_get String.eqb Ascii.eqb Bool.eqb].
  cbn [QiskitAPI.exec_code qiskit]. rewrite He. unfold run_script. rewrite Hv.
  reflexivity.
Qed.

End BackendOnEngine.

(* ================================================================== *)
(** * What the Qiskit-backed endpoints put in a successful answer *)

Section SuccessfulAnswers.
Import QiskitAPI.

Lemma backend_success (F : Type) (zero : F) (add : F -> F -> F)
    (abs_sq : F * F -> F) (Q : Qiskit F) (data : json_body)
    (r : result F) (log : list Backend.event) :
  Backend.simulate_quantum_circuit zero add abs_sq data = (Success r, log) ->
  probabilities r = map abs_sq (statevector r) /\
  marginal_probabilities r
  = Stmt.marginals_spec zero add (probabilities r) (num_qubits r).
Proof.
  unfold Backend.simulate_quantum_circuit.
  destruct data as [[|kv d]|]; try discriminate.
  destruct (dict_get "qiskit_code" (kv :: d)) as [[code|exn]|];
    try discriminate.
  destruct (exec_code code) as [msg|[c|]]; try discriminate.
  destruct (evolve_from_zero c) as [msg|final_state]; try discriminate.
  destruct (Analytics.marginal_probabilities_of _ _ _ _) as [ms|] eqn:E;
    try discriminate.
  intros [= <- <-]. cbn [probabilities statevector marginal_probabilities num_qubits].
  split; [reflexivity|].
  now apply marginal_probabilities_some.
Qed.

Lemma docker_qiskit_success (abs_sq : float * float -> float)
    (Q : Qiskit float) (qiskit_code : string) (r : result float) :
  Docker.simulate_with_qiskit abs_sq qiskit_code = inr r ->
  probabilities r = map abs_sq (statevector r) /\
  marginal_probabilities r
  = Stmt.marginals_spec 0%float PrimFloat.add (probabilities r) (num_qubits r).
Proof.
  unfold Docker.simulate_with_qiskit.
  destruct (exec_code qiskit_code) as [msg|[c|]]; try discriminate.
  destruct (evolve_from_zero c) as [msg|final_state]; try discriminate.
  destruct (Analytics.marginal_probabilities_of _ _ _ _) as [ms|] eqn:E;
    try discriminate.
  intros [= <-]. cbn [probabilities statevector marginal_probabilities num_qubits].
  split; [reflexivity|].
  now apply marginal_probabilities_some.
Qed.

End SuccessfulAnswers.

(* ================================================================== *)
(** * The claims *)

(** ** C10 *)

(** C10.  The [num_qubits] argument of the fallback simulator has no
    influence on its output: for every [circuit_type] and any two values
    [a] and [b] the two calls return the same dictionary, since every
    branch overwrites [num_qubits] with a constant. *)
Theorem simple_num_qubits_ignored (circuit_type : string) (a b : Z) :
  Simple.simulate_simple_circuit circuit_type a
  = Simple.simulate_simple_circuit circuit_type b.
Proof.
  unfold Simple.simulate_simple_circuit.
  replace (Simple.branches circuit_type b) with (Simple.branches circuit_type a);
    [reflexivity|].
  unfold Simple.branches.
  repeat match goal with |- context [String.eqb ?x ?y] =>
    destruct (String.eqb x y) end; reflexivity.
Qed.

(** ** C9 *)

(** C9.  An input that matches none of the known patterns (bell, ghz,
    single-qubit H, single-qubit X) gets, with [success=true], the fixed
    ground state of two qubits: statevector [[1,0],[0,0],[0,0],[0,0]],
    probabilities [1,0,0,0], marginals P(0)=1 and P(1)=0 for both qubits,
    depth 2 and size 2.  This holds for [simulate_simple_circuit] of the
    simple backend (any [circuit_type] other than the four names), for
    its endpoint, and for the fallback of the docker backend. *)
Theorem fallback_default_is_ground2 :
  (forall circuit_type n,
     circuit_type <> "bell_state"%string ->
     circuit_type <> "ghz_state"%string ->
     circuit_type <> "superposition"%string ->
     circuit_type <> "x_gate"%string ->
     Simple.simulate_simple_circuit circuit_type n = Stmt.ground2 None None)
  /\ (forall code,
        Simple.classify (PyStr.lower code) = "default"%string ->
        Simple.simulate_quantum_circuit (Stmt.body code)
        = Success (Stmt.ground2 None None))
  /\ (forall code,
        Docker.is_bell (PyStr.lower code) = false ->
        Docker.is_ghz (PyStr.lower code) = false ->
        Docker.is_superposition (PyStr.lower code) = false ->
        Docker.is_x_gate (PyStr.lower code) = false ->
        Docker.simulate_simple_circuit code
        = Stmt.ground2 (Some "simple"%string) (Some "default"%string)).
Proof.
  split; [|split].
  - intros circuit_type n Hb Hg Hs Hx.
    unfold Simple.simulate_simple_circuit, Simple.branches.
    apply String.eqb_neq in Hb, Hg, Hs, Hx.
    rewrite Hb, Hg, Hs, Hx. reflexivity.
  - intros code Hc. unfold Simple.simulate_quantum_circuit, Stmt.body.
    cbn [dict_get String.eqb Ascii.eqb Bool.eqb]. rewrite Hc. reflexivity.
  - intros code Hb Hg Hs Hx.
    unfold Docker.simulate_simple_circuit, Docker.branches.
    rewrite Hb, Hg, Hs, Hx. reflexivity.
Qed.

Lemma fallback_default_is_ground2_witness :
  let code := Stmt.lines [ "circ = QuantumCircuit(1)"; "circ.y(0)" ]%string in
  ("default" <> "bell_state" /\ "default" <> "ghz_state"
   /\ "default" <> "superposition" /\ "default" <> "x_gate")%string
  /\ Simple.classify (PyStr.lower code) = "default"%string
  /\ (Docker.is_bell (PyStr.lower code) = false
      /\ Docker.is_ghz (PyStr.lower code) = false
      /\ Docker.is_superposition (PyStr.lower code) = false
      /\ Docker.is_x_gate (PyStr.lower code) = false)
  /\ Simple.simulate_simple_circuit "default" 5 = Stmt.ground2 None None
  /\ Simple.simulate_quantum_circuit (Stmt.body code)
     = Success (Stmt.ground2 None None)
  /\ Docker.simulate_simple_circuit code
     = Stmt.ground2 (Some "simple"%string) (Some "default"%string).
Proof.
  intros code.
  assert (H1 : ("default" <> "bell_state")%string) by discriminate.
  assert (H2 : ("default" <> "ghz_state")%string) by discriminate.
  assert (H3 : ("default" <> "superposition")%string) by discriminate.
  assert (H4 : ("default" <> "x_gate")%string) by discriminate.
  assert (H5 : Simple.classify (PyStr.lower code) = "default"%string)
    by reflexivity.
  assert (H6 : Docker.is_bell (PyStr.lower code) = false) by reflexivity.
  assert (H7 : Docker.is_ghz (PyStr.lower code) = false) by reflexivity.
  assert (H8 : Docker.is_superposition (PyStr.lower code) = false)
    by reflexivity.
  assert (H9 : Docker.is_x_gate (PyStr.lower code) = false) by reflexivity.
  destruct fallback_default_is_ground2 as (T1 & T2 & T3).
  split; [exact (conj H1 (conj H2 (conj H3 H4)))|].
  split; [exact H5|].
  split; [exact (conj H6 (conj H7 (conj H8 H9)))|].
  split; [exact (T1 "default"%string 5%Z H1 H2 H3 H4)|].
  split; [exact (T2 code H5) | exact (T3 code H6 H7 H8 H9)].
Defined.

(* ================================================================== *)
(** * Running the engine on the example circuits *)

(** Closed index arithmetic is evaluated; amplitudes are left alone. *)
Ltac eval_index :=
  repeat match goal with
  | |- context [Engine.bit ?a ?b] =>
    let v := eval vm_compute in (Engine.bit a b) in
    change (Engine.bit a b) with v
  | |- context [Nat.setbit ?a ?b] =>
    let v := eval vm_compute in (Nat.setbit a b) in
    change (Nat.setbit a b) with v
  | |- context [Nat.clearbit ?a ?b] =>
    let v := eval vm_compute in (Nat.clearbit a b) in
    change (Nat.clearbit a b) with v
  end.

(** One index of a sweep. *)
Ltac sweep_step :=
  match goal with
  | |- context [fold_left (Engine.visit ?op) (?i :: ?l) ?st] =>
    change (fold_left (Engine.visit op) (i :: l) st)
      with (fold_left (Engine.visit op) l (Engine.visit op st i));
    cbn [Engine.visit]; eval_index;
    cbn [andb negb Engine.matrix_of];
    unfold Engine.apply_pair, Engine.exchange, Engine.amp;
    cbn [nth Engine.upd Engine.m00 Engine.m01 Engine.m10 Engine.m11];
    unfold Engine.Cadd, Engine.Cmul, Engine.Czero, Engine.Cone; cbn [fst snd]
  end.

(** The innermost pending operation, applied to a state that is already
    a list of amplitudes. *)
Ltac run_operation n :=
  match goal with
  | |- context [Engine.apply_operation n ?st ?op] =>
    lazymatch st with
    | context [Engine.apply_operation] => fail
    | _ => idtac
    end;
    let idxs := eval vm_compute in (seq 0 (2 ^ n)) in
    change (Engine.apply_operation n st op)
      with (fold_left (Engine.visit op) idxs st);
    repeat sweep_step;
    cbn [fold_left]
  end.

Ltac amplitudes_eq :=
  repeat match goal with
  | |- _ :: _ = _ :: _ => apply f_equal2
  | |- (_, _) = (_, _) => apply f_equal2
  | |- @eq R _ _ => ring
  | |- @nil _ = @nil _ => reflexivity
  end.

Ltac marginals_eq :=
  repeat match goal with
  | |- _ :: _ = _ :: _ => apply f_equal2
  | |- @Py.Marginal _ _ _ _ = @Py.Marginal _ _ _ _ => apply f_equal3
  | |- @eq R _ _ => lra
  | |- _ => reflexivity
  end.

Section Examples.
Import Engine.
Local Open Scope R_scope.

Lemma bell_state :
  simulate (Circuit 2 Stmt.bell_circuit)
  = [ (/ sqrt 2, 0); (0, 0); (0, 0); (/ sqrt 2, 0) ].
Proof.
  unfold simulate, Stmt.bell_circuit, H, CX.
  cbn [qubit_count operations fold_left].
  unfold ground_state.
  change (repeat Czero (2 ^ 2)) with (repeat Czero 4).
  cbn [repeat upd]. unfold Czero, Cone.
  do 2 run_operation 2%nat.
  amplitudes_eq.
Qed.

Lemma ghz_state :
  simulate (Circuit 3 Stmt.ghz_circuit)
  = [ (/ sqrt 2, 0); (0, 0); (0, 0); (0, 0);
      (0, 0); (0, 0); (0, 0); (/ sqrt 2, 0) ].
Proof.
  unfold simulate, Stmt.ghz_circuit, H, CX.
  cbn [qubit_count operations fold_left].
  unfold ground_state.
  change (repeat Czero (2 ^ 3)) with (repeat Czero 8).
  cbn [repeat upd]. unfold Czero, Cone.
  do 3 run_operation 3%nat.
  amplitudes_eq.
Qed.

Lemma abs_sq_inv_sqrt2 : abs_sq (/ sqrt 2, 0) = / 2.
Proof.
  rewrite abs_sq_norm2. unfold norm2. cbn [fst snd].
  rewrite sqrt2_inv_sq. ring.
Qed.

Lemma abs_sq_zero : abs_sq (0, 0) = 0.
Proof. rewrite abs_sq_norm2. unfold norm2. cbn [fst snd]. ring. Qed.

(** The index-to-bit convention on two and on three qubits: bit [q] of
    the index selects the group, qubit 0 being the least-significant
    bit. *)
Lemma marginals_two_qubits (p0 p1 p2 p3 : R) :
  Stmt.marginals_spec 0 Rplus [p0; p1; p2; p3] 2
  = [ {| qubit := 0; prob_0 := 0 + p0 + p2; prob_1 := 0 + p1 + p3 |};
      {| qubit := 1; prob_0 := 0 + p0 + p1; prob_1 := 0 + p2 + p3 |} ].
Proof. reflexivity. Qed.

Lemma marginals_three_qubits (p0 p1 p2 p3 p4 p5 p6 p7 : R) :
  Stmt.marginals_spec 0 Rplus [p0; p1; p2; p3; p4; p5; p6; p7] 3
  = [ {| qubit := 0; prob_0 := 0 + p0 + p2 + p4 + p6;
                     prob_1 := 0 + p1 + p3 + p5 + p7 |};
      {| qubit := 1; prob_0 := 0 + p0 + p1 + p4 + p5;
                     prob_1 := 0 + p2 + p3 + p6 + p7 |};
      {| qubit := 2; prob_0 := 0 + p0 + p1 + p2 + p3;
                     prob_1 := 0 + p4 + p5 + p6 + p7 |} ].
Proof. reflexivity. Qed.

Lemma bell_result :
  probabilities (Stmt.engine_result (Circuit 2 Stmt.bell_circuit))
  = [ / 2; 0; 0; / 2 ]
  /\ marginal_probabilities (Stmt.engine_result (Circuit 2 Stmt.bell_circuit))
     = [ {| qubit := 0; prob_0 := / 2; prob_1 := / 2 |};
         {| qubit := 1; prob_0 := / 2; prob_1 := / 2 |} ].
Proof.
  unfold Stmt.engine_result.
  cbn [probabilities marginal_probabilities qubit_count].
  rewrite bell_state. unfold Analytics.probabilities_of. cbn [map].
  rewrite abs_sq_inv_sqrt2, abs_sq_zero.
  split; [reflexivity|].
  change (Z.of_nat 2) with 2%Z. rewrite marginals_two_qubits.
  marginals_eq.
Qed.

Lemma ghz_result :
  probabilities (Stmt.engine_result (Circuit 3 Stmt.ghz_circuit))
  = [ / 2; 0; 0; 0; 0; 0; 0; / 2 ]
  /\ marginal_probabilities (Stmt.engine_result (Circuit 3 Stmt.ghz_circuit))
     = [ {| qubit := 0; prob_0 := / 2; prob_1 := / 2 |};
         {| qubit := 1; prob_0 := / 2; prob_1 := / 2 |};
         {| qubit := 2; prob_0 := / 2; prob_1 := / 2 |} ].
Proof.
  unfold Stmt.engine_result.
  cbn [probabilities marginal_probabilities qubit_count].
  rewrite ghz_state. unfold Analytics.probabilities_of. cbn [map].
  rewrite abs_sq_inv_sqrt2, abs_sq_zero.
  split; [reflexivity|].
  change (Z.of_nat 3) with 3%Z. rewrite marginals_three_qubits.
  marginals_eq.
Qed.

End Examples.

(** ** C3 *)

(** C3.  The 2-qubit circuit made of a Hadamard on qubit 0 followed by a
    CNOT with control 0 and target 1 should yield probabilities
    approximately [0.5, 0, 0, 0.5] and marginals 0.5/0.5 for both qubits.
    The engine does so, and so do both fallback endpoints on the Bell
    example of [get_example_circuits].  But the fallbacks recognise the
    circuit by its text, with [cx(0, 1)] written with a space: the same
    circuit written [circ.cx(0,1)] matches no pattern, and both fallback
    endpoints answer it with the ground state of two qubits,
    probabilities [1, 0, 0, 0] and marginals 1/0, which is not the Bell
    answer. *)
Theorem fallback_bell_depends_on_spelling :
  Simple.simulate_quantum_circuit (Stmt.body Stmt.bell_compact)
  = Success (Stmt.ground2 None None)
  /\ (forall abs_sq (Q : QiskitAPI.Qiskit float),
        Docker.simulate_quantum_circuit false abs_sq
          (Stmt.body Stmt.bell_compact)
        = Success (Stmt.ground2 (Some "simple"%string) (Some "default"%string)))
  /\ (forall simulation_type circuit_type,
        ~ Stmt.bell_answer (Stmt.ground2 simulation_type circuit_type))
  /\ (exists r,
        Simple.simulate_quantum_circuit (Stmt.body Stmt.bell_example) = Success r
        /\ Stmt.bell_answer r)
  /\ (forall abs_sq (Q : QiskitAPI.Qiskit float),
        exists r,
          Docker.simulate_quantum_circuit false abs_sq
            (Stmt.body Stmt.bell_example) = Success r
          /\ Stmt.bell_answer r)
  /\ probabilities (Stmt.engine_result (Engine.Circuit 2 Stmt.bell_circuit))
     = [ / 2; 0; 0; / 2 ]%R.
Proof.
  split; [|split; [|split; [|split; [|split]]]].
  - reflexivity.
  - intros abs_sq Q. reflexivity.
  - intros simulation_type circuit_type (_ & _ & Hclose & _).
    vm_compute in Hclose. discriminate Hclose.
  - eexists. split; [reflexivity|]. repeat split; vm_compute; reflexivity.
  - intros abs_sq Q. eexists. split; [reflexivity|].
    repeat split; vm_compute; reflexivity.
  - exact (proj1 bell_result).
Qed.

(** ** C4 *)

(** C4.  The 3-qubit circuit H(0), CNOT(0,1), CNOT(0,2) should yield
    probabilities 0.5 at indices 0 and 7 and marginals 0.5/0.5 for each of
    the three qubits.  The engine and the simple backend do so; the
    fallback of the docker backend tests the Bell pattern first, the GHZ
    example contains [h(0)] and [cx(0, 1)], and the answer is the 2-qubit
    Bell result: four probabilities, no index 7. *)
Theorem docker_fallback_ghz_example :
  (forall abs_sq (Q : QiskitAPI.Qiskit float),
     exists r,
       Docker.simulate_quantum_circuit false abs_sq
         (Stmt.body Stmt.ghz_example) = Success r
       /\ circuit_type r = Some "bell_state"%string
       /\ Stmt.bell_answer r
       /\ List.length (probabilities r) = 4%nat
       /\ nth_error (probabilities r) 7 = None)
  /\ (exists r,
        Simple.simulate_quantum_circuit (Stmt.body Stmt.ghz_example) = Success r
        /\ Stmt.ghz_answer r)
  /\ (forall n, Stmt.ghz_answer (Simple.simulate_simple_circuit "ghz_state" n))
  /\ probabilities (Stmt.engine_result (Engine.Circuit 3 Stmt.ghz_circuit))
     = [ / 2; 0; 0; 0; 0; 0; 0; / 2 ]%R.
Proof.
  split; [|split; [|split]].
  - intros abs_sq Q. eexists. split; [reflexivity|].
    repeat split; vm_compute; reflexivity.
  - eexists. split; [reflexivity|]. repeat split; vm_compute; reflexivity.
  - intros n. repeat split; vm_compute; reflexivity.
  - exact (proj1 ghz_result).
Qed.

(** ** C5 *)

(** C5.  [circuit_size] should be the number of gate operations and
    [circuit_depth] the length of the longest chain of dependent
    operations; two single-qubit gates on distinct qubits followed by a
    two-qubit gate on both should give depth 2 and size 3.  The metrics of
    the specification do give (2, 3) on that circuit, and (3, 3) on the
    GHZ circuit, whose three gates form one chain.  The fallback simulator
    returns depth 2 and size 2 for every input, for these two circuits
    too. *)
Theorem fallback_metrics_are_constant :
  (forall circuit_type n,
     circuit_depth (Simple.simulate_simple_circuit circuit_type n) = 2%Z
     /\ circuit_size (Simple.simulate_simple_circuit circuit_type n) = 2%Z)
  /\ (forall qiskit_code,
        circuit_depth (Docker.simulate_simple_circuit qiskit_code) = 2%Z
        /\ circuit_size (Docker.simulate_simple_circuit qiskit_code) = 2%Z)
  /\ Engine.metrics (Engine.Circuit 2 Stmt.depth_example) = (2%nat, 3%nat)
  /\ (exists r,
        Simple.simulate_quantum_circuit (Stmt.body Stmt.depth_example_script)
        = Success r
        /\ circuit_depth r = 2%Z /\ circuit_size r = 2%Z)
  /\ Engine.metrics (Engine.Circuit 3 Stmt.ghz_circuit) = (3%nat, 3%nat)
  /\ (exists r,
        Simple.simulate_quantum_circuit (Stmt.body Stmt.ghz_example) = Success r
        /\ num_qubits r = 3%Z
        /\ circuit_depth r = 2%Z /\ circuit_size r = 2%Z).
Proof.
  split; [|split; [|split; [|split; [|split]]]].
  - intros circuit_type n. unfold Simple.simulate_simple_circuit.
    destruct (Simple.branches circuit_type n) as [[nq sv] ms].
    split; reflexivity.
  - intros qiskit_code. unfold Docker.simulate_simple_circuit.
    destruct (Docker.branches _) as [[[nq sv] ms] ct].
    split; reflexivity.
  - reflexivity.
  - eexists. split; [reflexivity|]. split; reflexivity.
  - reflexivity.
  - eexists. split; [reflexivity|]. repeat split.
Qed.

(** ** C6 *)

(** C6.  Every error should come back as a failure value, and no call
    should answer [success=true] with an incorrect result.  Both fallback
    endpoints answer [success=true] with the ground state of two qubits to
    the text [invalid python code] (the input of the error-handling test
    of [test_docker.py]), and to a one-qubit circuit made of a Y gate, whose
    state is i|1>. *)
Theorem fallback_accepts_anything :
  (forall abs_sq (Q : QiskitAPI.Qiskit float),
     Docker.simulate_quantum_circuit false abs_sq
       (Stmt.body "invalid python code")
     = Success (Stmt.ground2 (Some "simple"%string) (Some "default"%string)))
  /\ Simple.simulate_quantum_circuit (Stmt.body "invalid python code")
     = Success (Stmt.ground2 None None)
  /\ Simple.simulate_quantum_circuit
       (Stmt.body (Stmt.lines [ "circ = QuantumCircuit(1)"; "circ.y(0)" ]%string))
     = Success (Stmt.ground2 None None)
  /\ Engine.simulate (Engine.Circuit 1 [ Engine.Single Engine.GateY 0 ])
     = [ (0, 0); (0, 1) ]%R.
Proof.
  split; [|split; [|split]].
  - intros abs_sq Q. reflexivity.
  - reflexivity.
  - reflexivity.
  - unfold Engine.simulate.
    cbn [Engine.qubit_count Engine.operations fold_left].
    unfold Engine.ground_state.
    change (repeat Engine.Czero (2 ^ 1)) with (repeat Engine.Czero 2).
    cbn [repeat Engine.upd]. unfold Engine.Czero, Engine.Cone.
    run_operation 1%nat.
    amplitudes_eq.
Qed.

(** ** C7 *)

(** C7.  A circuit that references a qubit index greater than or equal
    to its qubit count, or that has a controlled gate whose control is its
    target, is rejected with an error that names a violated constraint; no
    statevector is built and the engine is not reached.
    - In [quantum_backend.py], whatever Qiskit is: when running the script
      raises, the answer is the failure ['Simulation error: ' + message]
      with status 500, and the only thing the endpoint did was to run the
      script.
    - With the validation of the specification behind the script, an
      offending operation makes the script raise, the message is the
      description of a constraint that the circuit does violate. *)
Theorem invalid_circuit_rejected :
  (forall F zero add abs_sq (Q : QiskitAPI.Qiskit F) code msg,
     QiskitAPI.exec_code code = QiskitAPI.Raised msg ->
     Backend.simulate_quantum_circuit zero add abs_sq (Stmt.body code)
     = (Failure 500 ("Simulation error: " ++ msg), [Backend.EvExec]))
  /\ (forall exec code cfg n ops,
        exec code = Engine.run_script cfg n ops ->
        Exists (fun op => ~ Engine.in_range n op \/ Engine.control_is_target op)
               ops ->
        exists e,
          Engine.validate cfg n ops = inl e
          /\ Engine.violation cfg n ops e
          /\ Backend.simulate_quantum_circuit (Q := Engine.qiskit exec)
               0%R Rplus Engine.abs_sq (Stmt.body code)
             = (Failure 500
                  ("Simulation error: " ++ Engine.describe (Engine.violated e)),
                [Backend.EvExec])).
Proof.
  split.
  - intros F zero add abs_sq Q code msg He.
    unfold Backend.simulate_quantum_circuit, Stmt.body.
    cbn [dict_get String.eqb Ascii.eqb Bool.eqb]. now rewrite He.
  - intros exec code cfg n ops He Hbad.
    destruct (validate_offending cfg n ops Hbad) as [e Hv].
    exists e. split; [exact Hv|].
    split; [exact (validate_rejects cfg n ops e Hv)|].
    exact (backend_rejects exec code cfg n ops e He Hv).
Qed.

Lemma invalid_circuit_rejected_witness :
  let ops := [ Engine.H 0; Engine.CX 0 0; Engine.X 5 ] in
  let exec := fun _ : string => Engine.run_script Stmt.example_config 2 ops in
  let code := Stmt.lines [ "circ = QuantumCircuit(2)"; "circ.h(0)";
                           "circ.cx(0, 0)"; "circ.x(5)" ]%string in
  (exec code = Engine.run_script Stmt.example_config 2 ops
   /\ Exists (fun op => ~ Engine.in_range 2 op \/ Engine.control_is_target op)
             ops)
  /\ exists e,
       Engine.validate Stmt.example_config 2 ops = inl e
       /\ Engine.violation Stmt.example_config 2 ops e
       /\ Backend.simulate_quantum_circuit (Q := Engine.qiskit exec)
            0%R Rplus Engine.abs_sq (Stmt.body code)
          = (Failure 500
               ("Simulation error: " ++ Engine.describe (Engine.violated e)),
             [Backend.EvExec]).
Proof.
  intros ops exec code.
  assert (He : exec code = Engine.run_script Stmt.example_config 2 ops)
    by reflexivity.
  assert (Hbad : Exists (fun op => ~ Engine.in_range 2 op
                                   \/ Engine.control_is_target op) ops).
  { apply Exists_cons_tl, Exists_cons_hd. right. reflexivity. }
  split; [exact (conj He Hbad)|].
  exact (proj2 invalid_circuit_rejected exec code Stmt.example_config 2%nat ops
           He Hbad).
Defined.

(** ** C8 *)

(** The identity law on the engine: an empty operation list leaves the
    ground state, amplitude 0 being (1, 0) and all others (0, 0). *)
Lemma engine_identity_law (n : nat) :
  Engine.simulate (Engine.Circuit n []) = Engine.ground_state n
  /\ Engine.amp (Engine.ground_state n) 0 = Engine.Cone
  /\ (forall i, i <> 0%nat -> Engine.amp (Engine.ground_state n) i = Engine.Czero)
  /\ List.length (Engine.ground_state n) = (2 ^ n)%nat.
Proof.
  split; [reflexivity|]. unfold Engine.ground_state.
  split; [|split].
  - apply amp_upd_same. rewrite repeat_length. apply pow2_pos.
  - intros i Hi. rewrite amp_upd_other by congruence.
    apply (proj2 (repeat_Czero (2 ^ n))).
  - now rewrite upd_length, repeat_length.
Qed.

(** C8.  For every qubit count [n], a circuit with an empty operation
    list should come back as the ground state of [n] qubits.  The default
    branch of the fallback simulator overwrites [num_qubits] with 2: for
    every [n] it returns four amplitudes and [num_qubits = 2], so the empty
    circuit on three qubits gets four amplitudes where the ground state has
    eight.  An empty circuit whose text mentions [bell] gets the Bell
    state. *)
Theorem fallback_empty_circuit :
  (forall n,
     statevector (Simple.simulate_simple_circuit "default" n)
     = [ (1, 0); (0, 0); (0, 0); (0, 0) ]%float
     /\ num_qubits (Simple.simulate_simple_circuit "default" n) = 2%Z)
  /\ Simple.simulate_quantum_circuit (Stmt.body "circ = QuantumCircuit(3)")
     = Success (Stmt.ground2 None None)
  /\ List.length (statevector (Stmt.ground2 None None)) = 4%nat
  /\ List.length (Engine.simulate (Engine.Circuit 3 [])) = 8%nat
  /\ (exists r,
        Simple.simulate_quantum_circuit
          (Stmt.body (Stmt.lines [ "# Bell pair, gates to be added";
                                   "circ = QuantumCircuit(2)" ]%string))
        = Success r
        /\ Stmt.bell_answer r
        /\ nth_error (statevector r) 0 = Some (Simple.inv_sqrt2, 0%float)).
Proof.
  split; [|split; [|split; [|split]]].
  - intros n. split; reflexivity.
  - reflexivity.
  - reflexivity.
  - rewrite simulate_length. reflexivity.
  - eexists. split; [reflexivity|].
    split; [repeat split; vm_compute; reflexivity | reflexivity].
Qed.

(* ================================================================== *)
(** * Further properties of the code *)

(** ** The string operations *)

Lemma lower_char_idempotent (c : ascii) :
  PyStr.lower_char (PyStr.lower_char c) = PyStr.lower_char c.
Proof.
  destruct c as [b0 b1 b2 b3 b4 b5 b6 b7].
  destruct b0, b1, b2, b3, b4, b5, b6, b7; reflexivity.
Qed.

Lemma lower_idempotent (s : string) :
  PyStr.lower (PyStr.lower s) = PyStr.lower s.
Proof.
  induction s as [|c s IH]; cbn [PyStr.lower]; [reflexivity|].
  now rewrite lower_char_idempotent, IH.
Qed.

Lemma lower_app (s t : string) :
  PyStr.lower (s ++ t) = (PyStr.lower s ++ PyStr.lower t)%string.
Proof.
  induction s as [|c s IH]; cbn [PyStr.lower String.append]; [reflexivity|].
  now rewrite IH.
Qed.

Lemma starts_with_app (p s : string) :
  PyStr.starts_with p (p ++ s) = true.
Proof.
  induction p as [|c p IH]; cbn [PyStr.starts_with String.append].
  - reflexivity.
  - now rewrite Ascii.eqb_refl, IH.
Qed.

Lemma contains_unfold (p s : string) :
  PyStr.contains p s
  = (PyStr.starts_with p s
     || match s with
        | EmptyString => false
        | String _ s' => PyStr.contains p s'
        end)%bool.
Proof. destruct s; reflexivity. Qed.

(** A text that has [p] somewhere contains [p]. *)
Lemma contains_middle (p pre post : string) :
  PyStr.contains p (pre ++ p ++ post) = true.
Proof.
  induction pre as [|c pre IH]; cbn [String.append].
  - rewrite contains_unfold, starts_with_app. reflexivity.
  - rewrite contains_unfold, IH. apply orb_true_r.
Qed.

(** And conversely. *)
Lemma starts_with_split (p s : string) :
  PyStr.starts_with p s = true -> exists post, s = (p ++ post)%string.
Proof.
  revert s. induction p as [|c p IH]; intros s.
  - exists s. reflexivity.
  - destruct s as [|d s]; cbn [PyStr.starts_with]; [discriminate|].
    intros H. apply andb_true_iff in H. destruct H as [Hc Hp].
    apply Ascii.eqb_eq in Hc. subst d.
    destruct (IH s Hp) as [post ->]. exists post. reflexivity.
Qed.

Lemma contains_split (p s : string) :
  PyStr.contains p s = true ->
  exists pre post, s = (pre ++ p ++ post)%string.
Proof.
  induction s as [|c s IH]; rewrite contains_unfold; intros H;
    apply orb_true_iff in H; destruct H as [H|H].
  - apply starts_with_split in H. destruct H as [post ->].
    exists EmptyString, post. reflexivity.
  - discriminate.
  - apply starts_with_split in H. destruct H as [post ->].
    exists EmptyString, post. reflexivity.
  - destruct (IH H) as (pre & post & ->).
    exists (String c pre), post. reflexivity.
Qed.

(** ** The fallback endpoints and their pattern matchers *)

Lemma classify_names (s : string) :
  In (Simple.classify s)
     [ "ghz_state"; "bell_state"; "superposition"; "x_gate"; "default" ]%string.
Proof.
  unfold Simple.classify.
  repeat match goal with
  | |- context [if ?b then _ else _] => destruct b
  end; cbn; tauto.
Qed.

Lemma simple_endpoint_on_text (code : string) :
  Simple.simulate_quantum_circuit (Stmt.body code)
  = Success (Simple.simulate_simple_circuit
               (Simple.classify (PyStr.lower code)) 2).
Proof. reflexivity. Qed.

(** X2.  The endpoint of the simple backend never answers a request whose
    [qiskit_code] is a string with an error: it answers with one of the
    five written-out results, chosen by the pattern matcher, and that
    result is well formed.  A [qiskit_code] that is not a string gets
    status 500. *)
Theorem simple_endpoint_total_on_text :
  forall d v,
    dict_get "qiskit_code" d = Some v ->
    match v with
    | PStr code =>
      exists ct,
        In ct [ "ghz_state"; "bell_state"; "superposition"; "x_gate";
                "default" ]%string
        /\ Simple.simulate_quantum_circuit (Some d)
           = Success (Simple.simulate_simple_circuit ct 2)
        /\ success (Simple.simulate_simple_circuit ct 2) = true
        /\ Stmt.normalised (Simple.simulate_simple_circuit ct 2)
    | POther exn =>
      Simple.simulate_quantum_circuit (Some d)
      = Failure 500 ("Simulation error: " ++ exn)
    end.
Proof.
  intros d v Hd.
  destruct d as [|kv d]; [discriminate|].
  unfold Simple.simulate_quantum_circuit. rewrite Hd.
  destruct v as [code|exn]; [|reflexivity].
  exists (Simple.classify (PyStr.lower code)).
  split; [apply classify_names|].
  split; [reflexivity|].
  split; [|apply simple_normalised].
  unfold Simple.simulate_simple_circuit.
  destruct (Simple.branches _ _) as [[nq sv] ms]. reflexivity.
Qed.

Lemma simple_endpoint_total_on_text_witness :
  let d := [ ("user"%string, POther "ignored");
             ("qiskit_code"%string, PStr "circ.x(0)") ] in
  dict_get "qiskit_code" d = Some (PStr "circ.x(0)")
  /\ exists ct,
       In ct [ "ghz_state"; "bell_state"; "superposition"; "x_gate";
               "default" ]%string
       /\ Simple.simulate_quantum_circuit (Some d)
          = Success (Simple.simulate_simple_circuit ct 2)
       /\ success (Simple.simulate_simple_circuit ct 2) = true
       /\ Stmt.normalised (Simple.simulate_simple_circuit ct 2).
Proof.
  intros d.
  assert (Hd : dict_get "qiskit_code" d = Some (PStr "circ.x(0)"))
    by reflexivity.
  split; [exact Hd|].
  exact (simple_endpoint_total_on_text d (PStr "circ.x(0)") Hd).
Defined.

(** X3.  Both fallbacks look at the lower-cased text only: two texts with
    the same lower-casing get the same answer, and lower-casing a text
    beforehand changes nothing. *)
Theorem fallbacks_are_case_insensitive :
  (forall code code',
     PyStr.lower code = PyStr.lower code' ->
     Simple.simulate_quantum_circuit (Stmt.body code)
     = Simple.simulate_quantum_circuit (Stmt.body code')
     /\ Docker.simulate_simple_circuit code
        = Docker.simulate_simple_circuit code')
  /\ (forall code,
        Simple.simulate_quantum_circuit (Stmt.body (PyStr.lower code))
        = Simple.simulate_quantum_circuit (Stmt.body code)
        /\ Docker.simulate_simple_circuit (PyStr.lower code)
           = Docker.simulate_simple_circuit code).
Proof.
  assert (H : forall code code',
     PyStr.lower code = PyStr.lower code' ->
     Simple.simulate_quantum_circuit (Stmt.body code)
     = Simple.simulate_quantum_circuit (Stmt.body code')
     /\ Docker.simulate_simple_circuit code
        = Docker.simulate_simple_circuit code').
  { intros code code' Hl. rewrite !simple_endpoint_on_text.
    unfold Docker.simulate_simple_circuit. now rewrite Hl. }
  split; [exact H|].
  intros code. apply H. apply lower_idempotent.
Qed.

Lemma fallbacks_are_case_insensitive_witness :
  let code := "CIRC = QuantumCircuit(1); CIRC.X(0)"%string in
  let code' := "circ = quantumcircuit(1); circ.x(0)"%string in
  PyStr.lower code = PyStr.lower code'
  /\ Simple.simulate_quantum_circuit (Stmt.body code)
     = Simple.simulate_quantum_circuit (Stmt.body code')
  /\ Docker.simulate_simple_circuit code
     = Docker.simulate_simple_circuit code'.
Proof.
  intros code code'.
  assert (Hl : PyStr.lower code = PyStr.lower code') by reflexivity.
  split; [exact Hl|].
  exact (proj1 fallbacks_are_case_insensitive code code' Hl).
Defined.

(** X4.  In the simple backend the GHZ keyword wins: a text that has
    [ghz], in any letter case, anywhere (in a comment, in a name) is
    answered with the three-qubit GHZ result, whatever else it says. *)
Theorem ghz_keyword_wins_in_simple (pre kw post : string) :
  PyStr.lower kw = "ghz"%string ->
  Simple.simulate_quantum_circuit (Stmt.body (pre ++ kw ++ post))
  = Success (Simple.simulate_simple_circuit "ghz_state" 2).
Proof.
  intros Hk. rewrite simple_endpoint_on_text.
  rewrite !lower_app, Hk. unfold Simple.classify.
  now rewrite contains_middle.
Qed.

Lemma ghz_keyword_wins_in_simple_witness :
  let pre := "# not a "%string in
  let post := Stmt.lines [ " state"; "circ = QuantumCircuit(1)";
                           "circ.x(0)" ]%string in
  PyStr.lower "GhZ" = "ghz"%string
  /\ Simple.simulate_quantum_circuit (Stmt.body (pre ++ "GhZ" ++ post))
     = Success (Simple.simulate_simple_circuit "ghz_state" 2).
Proof.
  intros pre post.
  assert (Hk : PyStr.lower "GhZ" = "ghz"%string) by reflexivity.
  split; [exact Hk|].
  exact (ghz_keyword_wins_in_simple pre "GhZ" post Hk).
Defined.

(** X5.  In the fallback of the docker backend the Bell keyword wins: a
    text that has [bell], in any letter case, anywhere is answered with the
    two-qubit Bell result, whatever else it says. *)
Theorem bell_keyword_wins_in_docker (pre kw post : string) :
  PyStr.lower kw = "bell"%string ->
  circuit_type (Docker.simulate_simple_circuit (pre ++ kw ++ post))
  = Some "bell_state"%string
  /\ Stmt.bell_answer (Docker.simulate_simple_circuit (pre ++ kw ++ post)).
Proof.
  intros Hk. unfold Docker.simulate_simple_circuit, Docker.branches.
  assert (Hb : Docker.is_bell (PyStr.lower (pre ++ kw ++ post)) = true).
  { unfold Docker.is_bell. rewrite !lower_app, Hk.
    now rewrite contains_middle. }
  rewrite Hb.
  split; [reflexivity|]. repeat split; vm_compute; reflexivity.
Qed.

Lemma bell_keyword_wins_in_docker_witness :
  let pre := "# GHZ, not "%string in
  let post := Stmt.lines [ ""; "circ = QuantumCircuit(3)"; "circ.h(0)";
                           "circ.cx(0, 2)" ]%string in
  PyStr.lower "Bell" = "bell"%string
  /\ circuit_type (Docker.simulate_simple_circuit (pre ++ "Bell" ++ post))
     = Some "bell_state"%string
  /\ Stmt.bell_answer (Docker.simulate_simple_circuit (pre ++ "Bell" ++ post)).
Proof.
  intros pre post.
  assert (Hk : PyStr.lower "Bell" = "bell"%string) by reflexivity.
  split; [exact Hk|].
  exact (bell_keyword_wins_in_docker pre "Bell" post Hk).
Defined.

(** X6.  The two fallbacks test their patterns in different orders, so
    they disagree on every text that mentions both keywords: the simple
    backend answers with the three-qubit GHZ result, the docker backend
    with the two-qubit Bell result. *)
Theorem fallbacks_disagree_on_both_keywords (code : string) :
  PyStr.contains "ghz" (PyStr.lower code) = true ->
  PyStr.contains "bell" (PyStr.lower code) = true ->
  Simple.simulate_quantum_circuit (Stmt.body code)
  = Success (Simple.simulate_simple_circuit "ghz_state" 2)
  /\ num_qubits (Simple.simulate_simple_circuit "ghz_state" 2) = 3%Z
  /\ circuit_type (Docker.simulate_simple_circuit code)
     = Some "bell_state"%string
  /\ num_qubits (Docker.simulate_simple_circuit code) = 2%Z.
Proof.
  intros Hg Hb. rewrite simple_endpoint_on_text.
  unfold Simple.classify. rewrite Hg. cbn [orb].
  split; [reflexivity|]. split; [reflexivity|].
  unfold Docker.simulate_simple_circuit, Docker.branches, Docker.is_bell.
  rewrite Hb. cbn [orb]. split; reflexivity.
Qed.

Lemma fallbacks_disagree_on_both_keywords_witness :
  let code := Stmt.lines [ "# Bell pair first, GHZ later";
                           "circ = QuantumCircuit(2)" ]%string in
  (PyStr.contains "ghz" (PyStr.lower code) = true
   /\ PyStr.contains "bell" (PyStr.lower code) = true)
  /\ Simple.simulate_quantum_circuit (Stmt.body code)
     = Success (Simple.simulate_simple_circuit "ghz_state" 2)
  /\ num_qubits (Simple.simulate_simple_circuit "ghz_state" 2) = 3%Z
  /\ circuit_type (Docker.simulate_simple_circuit code)
     = Some "bell_state"%string
  /\ num_qubits (Docker.simulate_simple_circuit code) = 2%Z.
Proof.
  intros code.
  assert (Hg : PyStr.contains "ghz" (PyStr.lower code) = true) by reflexivity.
  assert (Hb : PyStr.contains "bell" (PyStr.lower code) = true) by reflexivity.
  split; [exact (conj Hg Hb)|].
  exact (fallbacks_disagree_on_both_keywords code Hg Hb).
Defined.

(** X7.  The two fallbacks agree on every text that the docker backend
    does not take for a Bell circuit: same statevector, probabilities,
    marginals, qubit count, depth and size, and the [circuit_type] the
    docker backend reports is the one the simple backend picked. *)
Theorem fallbacks_agree_without_bell (code : string) :
  Docker.is_bell (PyStr.lower code) = false ->
  Simple.simulate_quantum_circuit (Stmt.body code)
  = Success (Simple.simulate_simple_circuit
               (Simple.classify (PyStr.lower code)) 2)
  /\ Routes.same_simulation
       (Docker.simulate_simple_circuit code)
       (Simple.simulate_simple_circuit (Simple.classify (PyStr.lower code)) 2)
  /\ circuit_type (Docker.simulate_simple_circuit code)
     = Some (Simple.classify (PyStr.lower code)).
Proof.
  intros Hb. split; [reflexivity|].
  unfold Docker.simulate_simple_circuit, Docker.branches.
  rewrite Hb. unfold Docker.is_bell in Hb.
  unfold Simple.classify, Docker.is_ghz, Docker.is_superposition,
    Docker.is_x_gate.
  generalize dependent (PyStr.lower code). intros s Hb.
  destruct (PyStr.contains "bell" s); [discriminate|].
  destruct (PyStr.contains "h(0)" s), (PyStr.contains "cx(0, 1)" s);
    try discriminate;
    destruct (PyStr.contains "ghz" s),
             (PyStr.contains "quantumcircuit(3)" s),
             (PyStr.contains "cx(0, 2)" s),
             (PyStr.contains "quantumcircuit(2)" s),
             (PyStr.contains "quantumcircuit(1)" s),
             (PyStr.contains "x(0)" s);
    (split; [repeat split|reflexivity]).
Qed.

Lemma fallbacks_agree_without_bell_witness :
  let code := Stmt.lines [ "circ = QuantumCircuit(1)"; "circ.h(0)" ]%string in
  Docker.is_bell (PyStr.lower code) = false
  /\ Simple.simulate_quantum_circuit (Stmt.body code)
     = Success (Simple.simulate_simple_circuit
                  (Simple.classify (PyStr.lower code)) 2)
  /\ Routes.same_simulation
       (Docker.simulate_simple_circuit code)
       (Simple.simulate_simple_circuit (Simple.classify (PyStr.lower code)) 2)
  /\ circuit_type (Docker.simulate_simple_circuit code)
     = Some (Simple.classify (PyStr.lower code)).
Proof.
  intros code.
  assert (Hb : Docker.is_bell (PyStr.lower code) = false) by reflexivity.
  split; [exact Hb|].
  exact (fallbacks_agree_without_bell code Hb).
Defined.

(** X8.  The fallback of the docker backend is a copy of the simple
    backend that has not drifted: whatever the text, its answer is, key by
    key, what [simulate_simple_circuit] of the simple backend returns for
    the [circuit_type] it reports (and any [num_qubits]). *)
Theorem docker_fallback_is_simple_branch (code : string) :
  exists ct,
    circuit_type (Docker.simulate_simple_circuit code) = Some ct
    /\ In ct [ "bell_state"; "ghz_state"; "superposition"; "x_gate";
               "default" ]%string
    /\ forall n,
         Routes.same_simulation (Docker.simulate_simple_circuit code)
                                (Simple.simulate_simple_circuit ct n).
Proof.
  unfold Docker.simulate_simple_circuit, Docker.branches.
  destruct (Docker.is_bell _).
  { exists "bell_state"%string. split; [reflexivity|].
    split; [cbn; tauto|]. intros n. repeat split. }
  destruct (Docker.is_ghz _).
  { exists "ghz_state"%string. split; [reflexivity|].
    split; [cbn; tauto|]. intros n. repeat split. }
  destruct (Docker.is_superposition _).
  { exists "superposition"%string. split; [reflexivity|].
    split; [cbn; tauto|]. intros n. repeat split. }
  destruct (Docker.is_x_gate _).
  { exists "x_gate"%string. split; [reflexivity|].
    split; [cbn; tauto|]. intros n. repeat split. }
  exists "default"%string. split; [reflexivity|].
  split; [cbn; tauto|]. intros n. repeat split.
Qed.

(** ** The marginal loops: bounds *)

Section LoopBounds.

Variable F : Type.
Variable zero : F.
Variable add : F -> F -> F.

Lemma range_empty (n : Z) : (n <= 0)%Z -> range n = [].
Proof.
  intros Hn. unfold range.
  replace (Z.to_nat n) with 0%nat by lia. reflexivity.
Qed.

Lemma range_cons (n : Z) :
  (0 < n)%Z -> exists rest, range n = 0%Z :: rest.
Proof.
  intros Hn. unfold range.
  destruct (Z.to_nat n) as [|m] eqn:E; [lia|].
  cbn [seq map]. eauto.
Qed.

Lemma range_member (k i : Z) : (0 <= i < k)%Z -> In i (range k).
Proof.
  intros Hi. unfold range. apply in_map_iff.
  exists (Z.to_nat i). split; [lia|]. apply in_seq. lia.
Qed.

Lemma index_of_nat (A : Type) (l : list A) (j : nat) :
  index l (Z.of_nat j) = nth_error l j.
Proof.
  unfold index. destruct (Z.ltb_spec (Z.of_nat j) 0); [lia|].
  now rewrite Nat2Z.id.
Qed.

(** An index past the end of the list stops the inner loop. *)
Lemma marginal_fold_fails (probabilities : list F) (q : Z) (idxs : list Z) :
  (exists i, In i idxs /\ index probabilities i = None) ->
  forall acc,
    fold_left (Analytics.marginal_step add probabilities q) idxs acc = None.
Proof.
  induction idxs as [|i idxs IH]; intros (k & Hin & Hk) acc.
  - destruct Hin.
  - cbn [fold_left]. destruct Hin as [->|Hin].
    + unfold Analytics.marginal_step at 2. rewrite Hk.
      destruct acc as [[p0 p1]|]; apply marginal_fold_none.
    + apply IH. eauto.
Qed.

Lemma marginal_of_fails (probabilities : list F) (n q : Z) :
  (Z.of_nat (List.length probabilities) < 2 ^ n)%Z ->
  Analytics.marginal_of zero add probabilities n q = None.
Proof.
  intros Hlen. unfold Analytics.marginal_of.
  rewrite marginal_fold_fails; [reflexivity|].
  exists (Z.of_nat (List.length probabilities)). split.
  - apply range_member. lia.
  - rewrite index_of_nat. apply nth_error_None. lia.
Qed.

Lemma outer_loop_none (probabilities : list F) (n : Z) (qs : list Z) :
  fold_left
    (fun acc qubit_idx =>
       match acc with
       | None => None
       | Some ms =>
         match Analytics.marginal_of zero add probabilities n qubit_idx with
         | None => None
         | Some m => Some (ms ++ [m])
         end
       end) qs None
  = None.
Proof. induction qs as [|q qs IH]; [reflexivity | exact IH]. Qed.

Lemma marginal_probabilities_fails (probabilities : list F) (n : Z) :
  (0 < n)%Z -> (Z.of_nat (List.length probabilities) < 2 ^ n)%Z ->
  Analytics.marginal_probabilities_of zero add probabilities n = None.
Proof.
  intros Hn Hlen. unfold Analytics.marginal_probabilities_of.
  destruct (range_cons n Hn) as [rest ->]. cbn [fold_left].
  rewrite marginal_of_fails by exact Hlen.
  apply outer_loop_none.
Qed.

Lemma marginal_probabilities_no_qubit (probabilities : list F) (n : Z) :
  (n <= 0)%Z ->
  Analytics.marginal_probabilities_of zero add probabilities n = Some [].
Proof.
  intros Hn. unfold Analytics.marginal_probabilities_of.
  now rewrite range_empty.
Qed.

Lemma fold_left_ext_in (A B : Type) (f g : A -> B -> A) (l : list B) :
  (forall a x, In x l -> f a x = g a x) ->
  forall a, fold_left f l a = fold_left g l a.
Proof.
  induction l as [|x l IH]; intros Hfg a; cbn [fold_left]; [reflexivity|].
  rewrite (Hfg a x (or_introl eq_refl)).
  apply IH. intros a' x' Hx'. apply Hfg. now right.
Qed.

(** Only the indices below [2^n] are read. *)
Lemma marginal_of_firstn (probabilities : list F) (n q : Z) :
  Analytics.marginal_of zero add
    (firstn (Z.to_nat (2 ^ n)) probabilities) n q
  = Analytics.marginal_of zero add probabilities n q.
Proof.
  unfold Analytics.marginal_of.
  rewrite fold_left_ext_in
    with (g := Analytics.marginal_step add probabilities q); [reflexivity|].
  intros acc i Hi. unfold Analytics.marginal_step.
  replace (index (firstn (Z.to_nat (2 ^ n)) probabilities) i)
    with (index probabilities i); [reflexivity|].
  unfold range in Hi. apply in_map_iff in Hi. destruct Hi as (j & <- & Hj).
  apply in_seq in Hj. rewrite !index_of_nat, nth_error_firstn.
  destruct (Nat.ltb_spec j (Z.to_nat (2 ^ n))); [reflexivity | lia].
Qed.

End LoopBounds.

(** X9.  The marginal loops of the Qiskit-backed endpoints raise
    [IndexError] exactly when there is at least one qubit and fewer than
    [2^num_qubits] probabilities; with no qubit they return the empty list
    whatever the probabilities. *)
Theorem marginal_loops_fail_iff :
  forall F (zero : F) add probabilities n,
    (Analytics.marginal_probabilities_of zero add probabilities n = None
     <-> (0 < n)%Z /\ (Z.of_nat (List.length probabilities) < 2 ^ n)%Z)
    /\ ((n <= 0)%Z ->
        Analytics.marginal_probabilities_of zero add probabilities n = Some []).
Proof.
  intros F zero add probabilities n.
  split; [|apply marginal_probabilities_no_qubit].
  split.
  - intros Hnone.
    destruct (Z.ltb_spec 0 n) as [Hn|Hn].
    + split; [exact Hn|].
      destruct (Z.ltb_spec (Z.of_nat (List.length probabilities)) (2 ^ n))
        as [Hl|Hl]; [exact Hl|].
      rewrite marginal_probabilities_spec in Hnone by exact Hl. discriminate.
    + rewrite marginal_probabilities_no_qubit in Hnone by exact Hn.
      discriminate.
  - intros [Hn Hl]. now apply marginal_probabilities_fails.
Qed.

Lemma marginal_loops_fail_iff_witness :
  (0 < 2)%Z /\ (Z.of_nat (List.length [ 0.25; 0.25; 0.5 ]%float) < 2 ^ 2)%Z
  /\ (-1 <= 0)%Z
  /\ Analytics.marginal_probabilities_of 0%float PrimFloat.add
       [ 0.25; 0.25; 0.5 ]%float 2 = None
  /\ Analytics.marginal_probabilities_of 0%float PrimFloat.add
       [ 0.25; 0.25; 0.5 ]%float (-1) = Some [].
Proof.
  assert (H1 : (0 < 2)%Z) by lia.
  assert (H2 : (Z.of_nat (List.length [ 0.25; 0.25; 0.5 ]%float) < 2 ^ 2)%Z)
    by (cbn; lia).
  assert (H3 : (-1 <= 0)%Z) by lia.
  split; [exact H1|]. split; [exact H2|]. split; [exact H3|].
  split.
  - exact (proj2 (proj1 (marginal_loops_fail_iff float 0%float PrimFloat.add
                           [ 0.25; 0.25; 0.5 ]%float 2%Z)) (conj H1 H2)).
  - exact (proj2 (marginal_loops_fail_iff float 0%float PrimFloat.add
                    [ 0.25; 0.25; 0.5 ]%float (-1)%Z) H3).
Defined.

(** X10.  The marginal loops never read a probability at an index of
    [2^num_qubits] or more: dropping the entries from that index on changes
    neither the result nor whether [IndexError] is raised. *)
Theorem marginal_loops_read_first_entries :
  forall F (zero : F) add probabilities n,
    Analytics.marginal_probabilities_of zero add
      (firstn (Z.to_nat (2 ^ n)) probabilities) n
    = Analytics.marginal_probabilities_of zero add probabilities n.
Proof.
  intros F zero add probabilities n.
  unfold Analytics.marginal_probabilities_of.
  apply fold_left_ext_in. intros acc q _.
  now rewrite marginal_of_firstn.
Qed.

(** ** The marginal loops over the reals *)

Section RealMarginals.
Local Open Scope R_scope.

Lemma rsum_nonneg (l : list R) :
  Forall (fun p => 0 <= p) l -> 0 <= Stmt.rsum l.
Proof.
  induction 1 as [|p l Hp _ IH]; cbn [Stmt.rsum fold_right]; [lra|].
  fold (Stmt.rsum l). lra.
Qed.

Lemma index_In (A : Type) (l : list A) (i : Z) (a : A) :
  index l i = Some a -> In a l.
Proof.
  unfold index. destruct (i <? 0)%Z; [discriminate|]. apply nth_error_In.
Qed.

Lemma select_In (probabilities : list R) (q : Z) (b : bool) (idxs : list Z)
    (p : R) :
  In p (Stmt.select probabilities q b idxs) ->
  exists i, In i idxs /\ Z.testbit i q = b /\ index probabilities i = Some p.
Proof.
  unfold Stmt.select. intros Hp. apply in_flat_map in Hp.
  destruct Hp as (i & Hi & Hp). exists i. split; [exact Hi|].
  destruct (Bool.eqb (Z.testbit i q) b) eqn:E; [|destruct Hp].
  apply Bool.eqb_prop in E. split; [exact E|].
  destruct (index probabilities i) as [p'|]; [|destruct Hp].
  destruct Hp as [->|[]]. reflexivity.
Qed.

Lemma select_nonneg (probabilities : list R) (q : Z) (b : bool)
    (idxs : list Z) :
  Forall (fun p => 0 <= p) probabilities ->
  0 <= Stmt.rsum (Stmt.select probabilities q b idxs).
Proof.
  intros Hall. apply rsum_nonneg. apply Forall_forall. intros p Hp.
  apply select_In in Hp. destruct Hp as (i & _ & _ & Hi).
  rewrite Forall_forall in Hall. apply Hall. eapply index_In. exact Hi.
Qed.

Lemma marginal_spec_sums (probabilities : list R) (n q : Z) :
  Stmt.marginal_spec 0 Rplus probabilities n q
  = (Stmt.rsum (Stmt.select probabilities q false (range (2 ^ n))),
     Stmt.rsum (Stmt.select probabilities q true (range (2 ^ n)))).
Proof.
  unfold Stmt.marginal_spec. rewrite !fold_left_Rplus, !Rplus_0_l.
  reflexivity.
Qed.

End RealMarginals.

Section BasisStates.
Local Open Scope R_scope.

Lemma range_NoDup (k : Z) : NoDup (range k).
Proof.
  unfold range. apply NoDup_map_NoDup_ForallPairs; [|apply seq_NoDup].
  intros a b _ _ Hab. now apply Nat2Z.inj.
Qed.

Lemma indicator_absent (k : Z) (l : list Z) :
  ~ In k l ->
  Stmt.rsum (map (fun i => if (i =? k)%Z then 1 else 0) l) = 0.
Proof.
  induction l as [|i l IH]; intros Hk; cbn [map Stmt.rsum fold_right];
    [reflexivity|].
  fold (Stmt.rsum (map (fun i => if (i =? k)%Z then 1 else 0) l)).
  rewrite IH by (intros H; apply Hk; now right).
  destruct (Z.eqb_spec i k) as [->|_]; [|lra].
  exfalso. apply Hk. now left.
Qed.

Lemma indicator_present (k : Z) (l : list Z) :
  NoDup l -> In k l ->
  Stmt.rsum (map (fun i => if (i =? k)%Z then 1 else 0) l) = 1.
Proof.
  induction 1 as [|i l Hi Hnd IH]; intros Hk; [destruct Hk|].
  cbn [map Stmt.rsum fold_right].
  fold (Stmt.rsum (map (fun i => if (i =? k)%Z then 1 else 0) l)).
  destruct Hk as [->|Hk].
  - rewrite Z.eqb_refl, indicator_absent by exact Hi. lra.
  - rewrite IH by exact Hk.
    destruct (Z.eqb_spec i k) as [->|_]; [contradiction | lra].
Qed.

Lemma basis_length (n k : Z) :
  (0 <= n)%Z ->
  Z.of_nat (List.length (Routes.basis_probabilities n k)) = (2 ^ n)%Z.
Proof.
  intros Hn. unfold Routes.basis_probabilities, range.
  rewrite !length_map, length_seq. apply Z2Nat.id. now apply Z.pow_nonneg.
Qed.

Lemma basis_index (n k i : Z) :
  In i (range (2 ^ n)) ->
  index (Routes.basis_probabilities n k) i
  = Some (if (i =? k)%Z then 1 else 0).
Proof.
  intros Hi. unfold Routes.basis_probabilities.
  unfold range in Hi |- *. apply in_map_iff in Hi.
  destruct Hi as (j & <- & Hj). apply in_seq in Hj.
  rewrite index_of_nat, !nth_error_map, nth_error_seq.
  destruct (Nat.ltb_spec j (Z.to_nat (2 ^ n))); [reflexivity | lia].
Qed.

Lemma rsum_zeros (l : list R) :
  (forall p, In p l -> p = 0) -> Stmt.rsum l = 0.
Proof.
  induction l as [|p l IH]; intros Hz; cbn [Stmt.rsum fold_right];
    [reflexivity|].
  fold (Stmt.rsum l).
  rewrite IH by (intros p' Hp'; apply Hz; now right).
  rewrite (Hz p (or_introl eq_refl)). lra.
Qed.

(** The group that does not hold index [k] sums to 0. *)
Lemma basis_other_group (n k q : Z) (b : bool) :
  Z.testbit k q <> b ->
  Stmt.rsum (Stmt.select (Routes.basis_probabilities n k) q b (range (2 ^ n)))
  = 0.
Proof.
  intros Hb. apply rsum_zeros. intros p Hp.
  apply select_In in Hp. destruct Hp as (i & Hi & Hbit & Hp).
  rewrite basis_index in Hp by exact Hi.
  destruct (Z.eqb_spec i k) as [->|_]; [contradiction|].
  now injection Hp as <-.
Qed.

Lemma basis_total (n k : Z) :
  (0 <= k < 2 ^ n)%Z -> Stmt.rsum (Routes.basis_probabilities n k) = 1.
Proof.
  intros Hk. unfold Routes.basis_probabilities.
  apply indicator_present; [apply range_NoDup | now apply range_member].
Qed.

Lemma basis_marginal (n k q : Z) :
  (0 <= k < 2 ^ n)%Z ->
  Stmt.marginal_spec 0 Rplus (Routes.basis_probabilities n k) n q
  = (if Z.testbit k q then 0 else 1, if Z.testbit k q then 1 else 0).
Proof.
  intros Hk.
  assert (Hn : (0 <= n)%Z).
  { destruct (Z.ltb_spec n 0) as [Hneg|]; [|assumption].
    rewrite Z.pow_neg_r in Hk by exact Hneg. lia. }
  pose proof (marginal_spec_total _ n q (basis_length n k Hn)) as Hsum.
  rewrite basis_total in Hsum by exact Hk.
  rewrite marginal_spec_sums in *. cbn [fst snd] in Hsum.
  destruct (Z.testbit k q) eqn:E.
  - rewrite (basis_other_group n k q false) in * by (rewrite E; discriminate).
    f_equal. lra.
  - rewrite (basis_other_group n k q true) in * by (rewrite E; discriminate).
    f_equal. lra.
Qed.

End BasisStates.

(** X12.  On the probabilities of a basis state, 1 at index [k] and 0
    elsewhere, the marginal loops read the bits of [k]: qubit [q] gets
    (P0, P1) = (1, 0) when bit [q] of [k] is 0 and (0, 1) when it is 1, bit
    0 being the least-significant one. *)
Theorem basis_state_marginals (n k : Z) :
  (0 <= k < 2 ^ n)%Z ->
  Analytics.marginal_probabilities_of 0%R Rplus
    (Routes.basis_probabilities n k) n
  = Some (map (fun q =>
                 {| qubit := q;
                    prob_0 := if Z.testbit k q then 0%R else 1%R;
                    prob_1 := if Z.testbit k q then 1%R else 0%R |})
              (range n)).
Proof.
  intros Hk.
  assert (Hn : (0 <= n)%Z).
  { destruct (Z.ltb_spec n 0) as [Hneg|]; [|assumption].
    rewrite Z.pow_neg_r in Hk by exact Hneg. lia. }
  rewrite marginal_probabilities_spec
    by (rewrite basis_length by exact Hn; lia).
  unfold Stmt.marginals_spec. f_equal. apply map_ext. intros q.
  now rewrite basis_marginal by exact Hk.
Qed.

Lemma basis_state_marginals_witness :
  (0 <= 5 < 2 ^ 3)%Z
  /\ Analytics.marginal_probabilities_of 0%R Rplus
       (Routes.basis_probabilities 3 5) 3
     = Some [ {| qubit := 0%Z; prob_0 := 0%R; prob_1 := 1%R |};
              {| qubit := 1%Z; prob_0 := 1%R; prob_1 := 0%R |};
              {| qubit := 2%Z; prob_0 := 0%R; prob_1 := 1%R |} ].
Proof.
  assert (Hk : (0 <= 5 < 2 ^ 3)%Z) by (cbn; lia).
  split; [exact Hk|].
  exact (basis_state_marginals 3%Z 5%Z Hk).
Defined.

(** ** The three [/simulate] endpoints: requests and failures *)

(** X1.  For a request whose body [get_json] returns as [None] (the JSON
    value [null]) or as a JSON object: the body carries no [qiskit_code]
    ([null], the empty object, or an object without the key) exactly when
    the endpoint answers status 400 with [Missing qiskit_code parameter].
    This holds for the three endpoints, whatever Qiskit does and whether or
    not it is available, and [quantum_backend.py] then has not run any
    script.  Bodies of other JSON types, and requests on which [get_json]
    raises, are outside this statement. *)
Theorem missing_code_iff_400 :
  (forall data,
     Routes.lacks_code data <->
     Simple.simulate_quantum_circuit data
     = Failure 400 "Missing qiskit_code parameter")
  /\ (forall flag abs_sq (Q : QiskitAPI.Qiskit float) data,
        Routes.lacks_code data <->
        Docker.simulate_quantum_circuit flag abs_sq data
        = Failure 400 "Missing qiskit_code parameter")
  /\ (forall F zero add abs_sq (Q : QiskitAPI.Qiskit F) data,
        (Routes.lacks_code data <->
         fst (Backend.simulate_quantum_circuit zero add abs_sq data)
         = Failure 400 "Missing qiskit_code parameter")
        /\ (Routes.lacks_code data ->
            snd (Backend.simulate_quantum_circuit zero add abs_sq data) = [])).
Proof.
  split; [|split].
  - intros data. unfold Simple.simulate_quantum_circuit, Routes.lacks_code.
    destruct data as [[|kv d]|]; try (split; reflexivity || tauto).
    destruct (dict_get "qiskit_code" (kv :: d)) as [[code|exn]|];
      split; intros H; try reflexivity; discriminate.
  - intros flag abs_sq Q data.
    unfold Docker.simulate_quantum_circuit, Routes.lacks_code.
    destruct data as [[|kv d]|]; try (split; reflexivity || tauto).
    destruct (dict_get "qiskit_code" (kv :: d)) as [[code|exn]|];
      [| |split; reflexivity].
    + destruct flag; [destruct (Docker.simulate_with_qiskit abs_sq code)|];
        split; intros H; discriminate.
    + split; intros H; discriminate.
  - intros F zero add abs_sq Q data.
    unfold Backend.simulate_quantum_circuit, Routes.lacks_code.
    destruct data as [[|kv d]|];
      try (split; [split; reflexivity || tauto | reflexivity]).
    destruct (dict_get "qiskit_code" (kv :: d)) as [[code|exn]|];
      [| |split; [split; reflexivity | reflexivity]].
    + destruct (QiskitAPI.exec_code code) as [msg|[c|]];
        [| |split; [split|]; intros H; discriminate].
      * split; [split|]; intros H; discriminate.
      * destruct (QiskitAPI.evolve_from_zero c) as [msg|final_state];
          [split; [split|]; intros H; discriminate|].
        destruct (Analytics.marginal_probabilities_of _ _ _ _);
          split; try split; intros H; discriminate.
    + split; [split|]; intros H; discriminate.
Qed.

(** X13.  [quantum_backend.py] answers a script with success exactly when
    the script leaves a circuit behind, Qiskit evolves it, and either the
    circuit has no qubit or Qiskit returned at least [2^num_qubits]
    amplitudes.  The answer then carries the amplitudes as Qiskit gave
    them, the circuit's qubit count, depth and size, one marginal per
    qubit, and the endpoint built exactly one statevector, after running
    the script. *)
Theorem backend_success_iff :
  forall F zero add abs_sq (Q : QiskitAPI.Qiskit F) code,
    (forall r log,
       Backend.simulate_quantum_circuit zero add abs_sq (Stmt.body code)
       = (Success r, log) ->
       exists c data,
         QiskitAPI.exec_code code = QiskitAPI.Locals (Some c)
         /\ QiskitAPI.evolve_from_zero c = inr data
         /\ ((QiskitAPI.qc_num_qubits c <= 0)%Z
             \/ (2 ^ QiskitAPI.qc_num_qubits c
                 <= Z.of_nat (List.length data))%Z)
         /\ success r = true
         /\ statevector r = data
         /\ List.length (probabilities r) = List.length data
         /\ num_qubits r = QiskitAPI.qc_num_qubits c
         /\ circuit_depth r = QiskitAPI.qc_depth c
         /\ circuit_size r = QiskitAPI.qc_size c
         /\ List.length (marginal_probabilities r)
            = Z.to_nat (QiskitAPI.qc_num_qubits c)
         /\ log = [ Backend.EvExec;
                    Backend.EvStatevector (2 ^ QiskitAPI.qc_num_qubits c) ])
    /\ (forall c data,
          QiskitAPI.exec_code code = QiskitAPI.Locals (Some c) ->
          QiskitAPI.evolve_from_zero c = inr data ->
          (QiskitAPI.qc_num_qubits c <= 0)%Z
          \/ (2 ^ QiskitAPI.qc_num_qubits c <= Z.of_nat (List.length data))%Z ->
          exists r log,
            Backend.simulate_quantum_circuit zero add abs_sq (Stmt.body code)
            = (Success r, log)).
Proof.
  intros F zero add abs_sq Q code. split.
  - intros r log. unfold Backend.simulate_quantum_circuit, Stmt.body.
    cbn [dict_get String.eqb Ascii.eqb Bool.eqb].
    destruct (QiskitAPI.exec_code code) as [msg|[c|]] eqn:He;
      try discriminate.
    destruct (QiskitAPI.evolve_from_zero c) as [msg|data] eqn:Hv;
      try discriminate.
    destruct (Analytics.marginal_probabilities_of _ _ _ _) as [ms|] eqn:E;
      try discriminate.
    intros [= <- <-]. exists c, data.
    split; [reflexivity|]. split; [exact Hv|].
    cbn [success statevector probabilities num_qubits circuit_depth
         circuit_size marginal_probabilities].
    split.
    { destruct (Z.ltb_spec 0 (QiskitAPI.qc_num_qubits c)) as [Hn|Hn];
        [|now left]. right.
      destruct (Z.ltb_spec (Z.of_nat (List.length data))
                           (2 ^ QiskitAPI.qc_num_qubits c)) as [Hl|Hl];
        [|exact Hl].
      rewrite marginal_probabilities_fails in E;
        [discriminate | exact Hn |].
      unfold Analytics.probabilities_of. now rewrite length_map. }
    apply marginal_probabilities_some in E. subst ms.
    unfold Stmt.marginals_spec, Analytics.probabilities_of, range.
    rewrite !length_map, length_seq. repeat split.
  - intros c data He Hv Hlen.
    unfold Backend.simulate_quantum_circuit, Stmt.body.
    cbn [dict_get String.eqb Ascii.eqb Bool.eqb]. rewrite He, Hv.
    destruct Hlen as [Hn|Hl].
    + rewrite marginal_probabilities_no_qubit by exact Hn. eauto.
    + rewrite marginal_probabilities_spec; [eauto|].
      unfold Analytics.probabilities_of. now rewrite length_map.
Qed.

Lemma backend_success_iff_witness :
  let exec := fun _ : string =>
    Engine.run_script Stmt.example_config 2 Stmt.bell_circuit in
  let c := Engine.Circuit 2 Stmt.bell_circuit in
  (@QiskitAPI.exec_code R (Engine.qiskit exec) "circ"
   = QiskitAPI.Locals (Some c)
   /\ @QiskitAPI.evolve_from_zero R (Engine.qiskit exec) c
      = inr (Engine.simulate c)
   /\ (2 ^ @QiskitAPI.qc_num_qubits R (Engine.qiskit exec) c
       <= Z.of_nat (List.length (Engine.simulate c)))%Z)
  /\ exists r log,
       Backend.simulate_quantum_circuit (Q := Engine.qiskit exec)
         0%R Rplus Engine.abs_sq (Stmt.body "circ") = (Success r, log).
Proof.
  intros exec c.
  assert (He : @QiskitAPI.exec_code R (Engine.qiskit exec) "circ"
               = QiskitAPI.Locals (Some c)) by reflexivity.
  assert (Hv : @QiskitAPI.evolve_from_zero R (Engine.qiskit exec) c
               = inr (Engine.simulate c)) by reflexivity.
  assert (Hl : (2 ^ @QiskitAPI.qc_num_qubits R (Engine.qiskit exec) c
                <= Z.of_nat (List.length (Engine.simulate c)))%Z).
  { rewrite simulate_length. cbn. lia. }
  split; [exact (conj He (conj Hv Hl))|].
  exact (proj2 (backend_success_iff R 0%R Rplus Engine.abs_sq
                  (Engine.qiskit exec) "circ"%string)
               c (Engine.simulate c) He Hv (or_intror Hl)).
Defined.

(** X14.  With Qiskit available and a [qiskit_code] that is a string (or
    absent), the endpoint of the docker backend answers a request as
    [quantum_backend.py] does, with two differences: a successful answer
    has the extra key [simulation_type = qiskit], and a script that leaves
    no circuit behind gets status 500 with the message prefixed by
    [Simulation error: ] instead of status 400.  (On a [qiskit_code] that
    is not a string the two endpoints raise different exceptions: the
    docker backend slices the value for its log before running it.) *)
Theorem docker_follows_backend :
  forall abs_sq (Q : QiskitAPI.Qiskit float) data,
    Routes.text_code data ->
    Docker.simulate_quantum_circuit true abs_sq data
    = match fst (Backend.simulate_quantum_circuit 0%float PrimFloat.add
                   abs_sq data) with
      | Success r => Success (Routes.with_simulation_type r "qiskit")
      | Failure status error =>
        if String.eqb error "No QuantumCircuit found in the provided code"
        then Failure 500 ("Simulation error: " ++ error)
        else Failure status error
      end.
Proof.
  intros abs_sq Q data Htext.
  unfold Docker.simulate_quantum_circuit, Backend.simulate_quantum_circuit,
    Docker.simulate_with_qiskit.
  destruct data as [[|kv d]|]; try reflexivity.
  unfold Routes.text_code in Htext.
  destruct (dict_get "qiskit_code" (kv :: d)) as [[code|exn]|];
    [|destruct Htext|reflexivity].
  destruct (QiskitAPI.exec_code code) as [msg|[c|]]; try reflexivity.
  destruct (QiskitAPI.evolve_from_zero c) as [msg|final_state];
    try reflexivity.
  destruct (Analytics.marginal_probabilities_of _ _ _ _); reflexivity.
Qed.

Lemma docker_follows_backend_witness :
  let abs_sq := fun a : float * float =>
    (fst a * fst a + snd a * snd a)%float in
  let Q := {| QiskitAPI.circuit := unit;
              QiskitAPI.exec_code := fun _ => QiskitAPI.Locals None;
              QiskitAPI.qc_num_qubits := fun _ => 0%Z;
              QiskitAPI.evolve_from_zero := fun _ => inr [];
              QiskitAPI.qc_depth := fun _ => 0%Z;
              QiskitAPI.qc_size := fun _ => 0%Z |} in
  Routes.text_code (Stmt.body "x = 1")
  /\ Docker.simulate_quantum_circuit (Q := Q) true abs_sq (Stmt.body "x = 1")
     = Failure 500
         "Simulation error: No QuantumCircuit found in the provided code".
Proof.
  intros abs_sq Q.
  assert (H : Routes.text_code (Stmt.body "x = 1")) by exact I.
  split; [exact H|].
  exact (docker_follows_backend abs_sq Q (Stmt.body "x = 1") H).
Defined.

(** X15.  The failure answers of the three endpoints: the status is 400 or
    500; status 400 comes with [Missing qiskit_code parameter] or, in
    [quantum_backend.py] only, with [No QuantumCircuit found in the
    provided code]; status 500 always comes with a message that starts
    with [Simulation error: ]. *)
Theorem failure_answers :
  (forall data status error,
     Simple.simulate_quantum_circuit data = Failure status error ->
     (status = 400%Z /\ error = "Missing qiskit_code parameter"%string)
     \/ (status = 500%Z
         /\ exists m, error = ("Simulation error: " ++ m)%string))
  /\ (forall flag abs_sq (Q : QiskitAPI.Qiskit float) data status error,
        Docker.simulate_quantum_circuit flag abs_sq data
        = Failure status error ->
        (status = 400%Z /\ error = "Missing qiskit_code parameter"%string)
        \/ (status = 500%Z
            /\ exists m, error = ("Simulation error: " ++ m)%string))
  /\ (forall F zero add abs_sq (Q : QiskitAPI.Qiskit F) data status error,
        fst (Backend.simulate_quantum_circuit zero add abs_sq data)
        = Failure status error ->
        (status = 400%Z
         /\ (error = "Missing qiskit_code parameter"%string
             \/ error = "No QuantumCircuit found in the provided code"%string))
        \/ (status = 500%Z
            /\ exists m, error = ("Simulation error: " ++ m)%string)).
Proof.
  split; [|split].
  - intros data status error.
    unfold Simple.simulate_quantum_circuit.
    destruct data as [[|kv d]|]; try (intros [= <- <-]; now left).
    destruct (dict_get "qiskit_code" (kv :: d)) as [[code|exn]|];
      try discriminate; intros [= <- <-]; [right; split; [reflexivity | eexists; reflexivity] | now left].
  - intros flag abs_sq Q data status error.
    unfold Docker.simulate_quantum_circuit.
    destruct data as [[|kv d]|]; try (intros [= <- <-]; now left).
    destruct (dict_get "qiskit_code" (kv :: d)) as [[code|exn]|];
      [| |intros [= <- <-]; now left].
    + destruct flag; [|discriminate].
      destruct (Docker.simulate_with_qiskit abs_sq code) as [msg|r];
        [|discriminate].
      intros [= <- <-]. right. split; [reflexivity | eexists; reflexivity].
    + intros [= <- <-]. right. split; [reflexivity | eexists; reflexivity].
  - intros F zero add abs_sq Q data status error.
    unfold Backend.simulate_quantum_circuit.
    destruct data as [[|kv d]|]; try (intros [= <- <-]; left; tauto).
    destruct (dict_get "qiskit_code" (kv :: d)) as [[code|exn]|];
      [| |intros [= <- <-]; left; tauto].
    + destruct (QiskitAPI.exec_code code) as [msg|[c|]].
      * intros [= <- <-]. right. split; [reflexivity | eexists; reflexivity].
      * destruct (QiskitAPI.evolve_from_zero c) as [msg|final_state];
          [intros [= <- <-]; right; split; [reflexivity | eexists; reflexivity]|].
        destruct (Analytics.marginal_probabilities_of _ _ _ _);
          [discriminate|].
        intros [= <- <-]. right.
        split; [reflexivity|]. exists "list index out of range"%string.
        reflexivity.
      * intros [= <- <-]. left. tauto.
    + intros [= <- <-]. right. split; [reflexivity | eexists; reflexivity].
Qed.

Lemma failure_answers_witness :
  Simple.simulate_quantum_circuit
    (Some [ ("qiskit_code"%string, POther "'int' object has no attribute 'lower'") ])
  = Failure 500 "Simulation error: 'int' object has no attribute 'lower'"
  /\ ((500%Z = 400%Z
       /\ "Simulation error: 'int' object has no attribute 'lower'"%string
          = "Missing qiskit_code parameter"%string)
      \/ (500%Z = 500%Z
          /\ exists m,
               "Simulation error: 'int' object has no attribute 'lower'"%string
               = ("Simulation error: " ++ m)%string)).
Proof.
  assert (H : Simple.simulate_quantum_circuit
                (Some [ ("qiskit_code"%string,
                         POther "'int' object has no attribute 'lower'") ])
              = Failure 500
                  "Simulation error: 'int' object has no attribute 'lower'")
    by reflexivity.
  split; [exact H|].
  exact (proj1 failure_answers _ _ _ H).
Defined.

(** ** The example circuits *)

(** X16.  The simple backend recognises its own examples: every example
    that its [get_example_circuits] serves, posted to its [/simulate]
    endpoint, gets the written-out result of the circuit of that name. *)
Theorem simple_examples_round_trip (name code : string) :
  In (name, code) (Routes.examples Routes.simple_get_example_circuits) ->
  Simple.simulate_quantum_circuit (Stmt.body code)
  = Success (Simple.simulate_simple_circuit name 2).
Proof.
  cbn [Routes.examples Routes.simple_get_example_circuits
       Routes.common_examples In].
  intros [H|[H|[H|[H|[]]]]]; injection H as <- <-; reflexivity.
Qed.

Lemma simple_examples_round_trip_witness :
  In ("x_gate"%string, Routes.x_gate_text)
     (Routes.examples Routes.simple_get_example_circuits)
  /\ Simple.simulate_quantum_circuit (Stmt.body Routes.x_gate_text)
     = Success (Simple.simulate_simple_circuit "x_gate" 2).
Proof.
  assert (H : In ("x_gate"%string, Routes.x_gate_text)
                 (Routes.examples Routes.simple_get_example_circuits))
    by (cbn; tauto).
  split; [exact H|].
  exact (simple_examples_round_trip "x_gate" Routes.x_gate_text H).
Defined.

(** X17.  Without Qiskit the docker backend serves the same four examples
    as the simple backend, and its fallback reports each of them under its
    own name, except the GHZ example, which it reports as [bell_state]. *)
Theorem docker_examples_round_trip :
  Routes.examples (Routes.docker_get_example_circuits false)
  = Routes.examples Routes.simple_get_example_circuits
  /\ forall abs_sq (Q : QiskitAPI.Qiskit float) name code,
       In (name, code)
          (Routes.examples (Routes.docker_get_example_circuits false)) ->
       exists r,
         Docker.simulate_quantum_circuit false abs_sq (Stmt.body code)
         = Success r
         /\ circuit_type r
            = Some (if String.eqb name "ghz_state" then "bell_state"%string
                    else name).
Proof.
  split; [reflexivity|].
  intros abs_sq Q name code.
  cbn [Routes.examples Routes.docker_get_example_circuits
       Routes.common_examples In].
  intros [H|[H|[H|[H|[]]]]]; injection H as <- <-;
    eexists; split; reflexivity.
Qed.

(** X18.  The three backends serve the same four examples, name and text:
    every example of the simple backend is served by the other two, and
    the docker backend serves the names of [quantum_backend.py] when Qiskit
    is available and those of the simple backend when it is not. *)
Theorem example_lists_agree :
  (forall flag name code,
     In (name, code) (Routes.examples Routes.simple_get_example_circuits) ->
     In (name, code) (Routes.examples (Routes.docker_get_example_circuits flag))
     /\ In (name, code) (Routes.examples Routes.backend_get_example_circuits))
  /\ (forall flag,
        map fst (Routes.examples (Routes.docker_get_example_circuits flag))
        = map fst (Routes.examples
                     (if flag then Routes.backend_get_example_circuits
                      else Routes.simple_get_example_circuits))).
Proof.
  split.
  - intros flag name code H.
    cbn [Routes.examples Routes.simple_get_example_circuits] in H.
    split.
    + destruct flag;
        cbn [Routes.examples Routes.docker_get_example_circuits];
        [apply in_or_app; left|]; exact H.
    + cbn [Routes.examples Routes.backend_get_example_circuits].
      apply in_or_app; left; exact H.
  - intros [|]; reflexivity.
Qed.

(** ** The shape of the fallback answers *)

(** The shape of a fallback answer: one, two or three qubits,
    [2^num_qubits] amplitudes, all of them real, and one marginal per
    qubit, in qubit order. *)
Lemma simple_shape (circuit_type : string) (n : Z) :
  let r := Simple.simulate_simple_circuit circuit_type n in
  In (num_qubits r) [ 1; 2; 3 ]%Z
  /\ Z.of_nat (List.length (statevector r)) = (2 ^ num_qubits r)%Z
  /\ Forall (fun a => snd a = 0%float) (statevector r)
  /\ map (@qubit float) (marginal_probabilities r) = range (num_qubits r).
Proof.
  unfold Simple.simulate_simple_circuit.
  pattern (Simple.branches circuit_type n).
  apply branches_cases;
    (split; [cbn; tauto|]; split; [reflexivity|];
     split; [repeat constructor | reflexivity]).
Qed.

(** X19.  Whatever the input, an answer of either fallback simulator has
    one, two or three qubits, [2^num_qubits] amplitudes with imaginary part
    zero, and one marginal per qubit, listed in qubit order. *)
Theorem fallback_answers_shape :
  (forall circuit_type n,
     let r := Simple.simulate_simple_circuit circuit_type n in
     In (num_qubits r) [ 1; 2; 3 ]%Z
     /\ Z.of_nat (List.length (statevector r)) = (2 ^ num_qubits r)%Z
     /\ Forall (fun a => snd a = 0%float) (statevector r)
     /\ map (@qubit float) (marginal_probabilities r) = range (num_qubits r))
  /\ (forall code,
        let r := Docker.simulate_simple_circuit code in
        In (num_qubits r) [ 1; 2; 3 ]%Z
        /\ Z.of_nat (List.length (statevector r)) = (2 ^ num_qubits r)%Z
        /\ Forall (fun a => snd a = 0%float) (statevector r)
        /\ map (@qubit float) (marginal_probabilities r)
           = range (num_qubits r)).
Proof.
  split; [exact simple_shape|].
  intros code. unfold Docker.simulate_simple_circuit, Docker.branches.
  destruct (Docker.is_bell _);
    [split; [cbn; tauto|]; split; [reflexivity|];
     split; [repeat constructor | reflexivity]|].
  destruct (Docker.is_ghz _);
    [split; [cbn; tauto|]; split; [reflexivity|];
     split; [repeat constructor | reflexivity]|].
  destruct (Docker.is_superposition _);
    [split; [cbn; tauto|]; split; [reflexivity|];
     split; [repeat constructor | reflexivity]|].
  destruct (Docker.is_x_gate _);
    (split; [cbn; tauto|]; split; [reflexivity|];
     split; [repeat constructor | reflexivity]).
Qed.

(* ================================================================== *)
(** * Binary64 arithmetic: the rounding error of one operation

    The bounds are derived from the definitions of [SpecFloat], which
    [PrimFloat] takes as the specification of its operations: a result is
    the exact result shifted right to 53 bits and rounded to nearest
    even. *)

Section Binary64Facts.
Import Binary64.
Local Open Scope R_scope.

(** ** Shifting a mantissa to the right *)

(** [iter_pos] is an iteration over [nat]. *)
Lemma iter_pos_nat (A : Type) (f : A -> A) (p : positive) (x : A) :
  SpecFloat.iter_pos f p x = Nat.iter (Pos.to_nat p) f x.
Proof.
  revert x. induction p as [p IH|p IH|]; intros x; cbn [SpecFloat.iter_pos].
  - rewrite !IH. rewrite Pos2Nat.inj_xI.
    replace (S (2 * Pos.to_nat p)) with (Pos.to_nat p + S (Pos.to_nat p))%nat by lia.
    rewrite Nat.iter_add. f_equal. now rewrite Nat.iter_succ_r.
  - rewrite !IH. rewrite Pos2Nat.inj_xO.
    replace (2 * Pos.to_nat p)%nat with (Pos.to_nat p + Pos.to_nat p)%nat by lia.
    now rewrite Nat.iter_add.
  - reflexivity.
Qed.

Lemma shr_1_spec (m : Z) (r s : bool) :
  (0 <= m)%Z ->
  shr_1 (Build_shr_record m r s)
  = Build_shr_record (Z.div2 m) (Z.odd m) (r || s).
Proof.
  intros Hm. destruct m as [|[p|p|]|p]; try reflexivity; lia.
Qed.

Lemma shr_iter (m : Z) (k : nat) :
  (0 <= m)%Z ->
  exists q rem r s,
    Nat.iter k shr_1 (Build_shr_record m false false)
    = Build_shr_record q r s
    /\ (0 <= q)%Z /\ (0 <= rem < 2 ^ Z.of_nat k)%Z
    /\ (m = q * 2 ^ Z.of_nat k + rem)%Z
    /\ loc_ok (Z.of_nat k) rem r s.
Proof.
  intros Hm. induction k as [|k IH].
  - exists m, 0%Z, false, false. cbn. repeat split; lia.
  - destruct IH as (q & rem & r & s & Hit & Hq & Hrem & Hval & Hloc).
    rewrite Nat.iter_succ, Hit, shr_1_spec by exact Hq.
    unfold loc_ok. rewrite Nat2Z.inj_succ, Z.pow_succ_r by lia.
    set (P := (2 ^ Z.of_nat k)%Z) in *.
    assert (HP : (0 < P)%Z) by (apply Z.pow_pos_nonneg; lia).
    assert (Hloc' : loc_ok (Z.of_nat k) rem r s) by exact Hloc.
    unfold loc_ok in Hloc'. fold P in Hloc'. clear Hloc.
    unfold loc_ok. clearbody P.
    pose proof (Z.div2_odd q) as Hq2.
    exists (Z.div2 q), ((if Z.odd q then P else 0) + rem)%Z, (Z.odd q), (r || s).
    split; [reflexivity|].
    assert (Hd : (0 <= Z.div2 q)%Z) by (apply Z.div2_nonneg; lia).
    destruct (Z.odd q); cbn [Z.b2z] in Hq2; cbv iota.
    + split; [exact Hd|]. split; [lia|]. split; [nia|].
      destruct r, s; cbn [orb] in *; lia.
    + split; [exact Hd|]. split; [lia|]. split; [nia|].
      destruct r, s; cbn [orb] in *; lia.
Qed.

Lemma digits2_bounds (m : positive) :
  (2 ^ (Zpos (digits2_pos m) - 1) <= Zpos m < 2 ^ Zpos (digits2_pos m))%Z.
Proof.
  induction m as [m IH|m IH|]; cbn [digits2_pos].
  - rewrite Pos2Z.inj_succ.
    replace (Z.succ (Zpos (digits2_pos m)) - 1)%Z
      with (Z.succ (Zpos (digits2_pos m) - 1)) by lia.
    rewrite !Z.pow_succ_r by lia. lia.
  - rewrite Pos2Z.inj_succ.
    replace (Z.succ (Zpos (digits2_pos m)) - 1)%Z
      with (Z.succ (Zpos (digits2_pos m) - 1)) by lia.
    rewrite !Z.pow_succ_r by lia. lia.
  - cbn. lia.
Qed.

Lemma digits2_unique (m : positive) (d : Z) :
  (2 ^ (d - 1) <= Zpos m < 2 ^ d)%Z -> (0 < d)%Z -> Zpos (digits2_pos m) = d.
Proof.
  intros H Hd. pose proof (digits2_bounds m) as B.
  set (d' := Zpos (digits2_pos m)) in *.
  assert (Hd' : (0 < d')%Z) by (unfold d'; lia).
  destruct (Z.lt_trichotomy d' d) as [Hlt|[Heq|Hgt]]; [|exact Heq|].
  - assert ((2 ^ d' <= 2 ^ (d - 1))%Z) by (apply Z.pow_le_mono_r; lia). lia.
  - assert ((2 ^ d <= 2 ^ (d' - 1))%Z) by (apply Z.pow_le_mono_r; lia). lia.
Qed.

Lemma fexp_64 (e : Z) : fexp prec emax e = fexp64 e.
Proof. reflexivity. Qed.

Lemma shr_fexp_noshift (m e : Z) :
  (fexp64 (Zdigits2 m + e) <= e)%Z ->
  shr_fexp prec emax m e loc_Exact
  = (Build_shr_record m false false, e).
Proof.
  intros H. unfold shr_fexp. rewrite fexp_64. cbn [shr_record_of_loc].
  unfold shr. destruct (fexp64 (Zdigits2 m + e) - e)%Z eqn:E; try reflexivity.
  lia.
Qed.

Lemma shr_fexp_shift (m e : Z) :
  (0 <= m)%Z ->
  (e < fexp64 (Zdigits2 m + e))%Z ->
  exists q rem r s,
    shr_fexp prec emax m e loc_Exact
    = (Build_shr_record q r s, fexp64 (Zdigits2 m + e))
    /\ (0 <= q)%Z
    /\ (0 <= rem < 2 ^ (fexp64 (Zdigits2 m + e) - e))%Z
    /\ (m = q * 2 ^ (fexp64 (Zdigits2 m + e) - e) + rem)%Z
    /\ loc_ok (fexp64 (Zdigits2 m + e) - e) rem r s.
Proof.
  intros Hm H. unfold shr_fexp. rewrite fexp_64. cbn [shr_record_of_loc].
  set (fe := fexp64 (Zdigits2 m + e)) in *.
  unfold shr. destruct (fe - e)%Z as [|p|p] eqn:E; try lia.
  rewrite iter_pos_nat.
  destruct (shr_iter m (Pos.to_nat p) Hm) as (q & rem & r & s & Hit & Hq & Hrem & Hval & Hloc).
  rewrite positive_nat_Z in *.
  exists q, rem, r, s. rewrite Hit.
  replace (e + Zpos p)%Z with fe by lia. auto.
Qed.

Lemma round_aux_exact (s : bool) (m : positive) (e : Z) :
  (fexp64 (Zpos (digits2_pos m) + e) <= e)%Z ->
  binary_round_aux prec emax s (Zpos m) e loc_Exact = rounded s (Zpos m) e.
Proof.
  intros H. unfold binary_round_aux.
  rewrite shr_fexp_noshift by exact H.
  cbn [shr_m loc_of_shr_record round_nearest_even].
  rewrite shr_fexp_noshift by exact H. reflexivity.
Qed.

Lemma round_aux_inexact (s : bool) (m : positive) (e : Z) :
  let fe := fexp64 (Zpos (digits2_pos m) + e) in
  (e < fe)%Z ->
  exists m2 e2,
    binary_round_aux prec emax s (Zpos m) e loc_Exact = rounded s m2 e2
    /\ (0 <= m2)%Z
    /\ (fe <= e2 <= fe + 1)%Z
    /\ (2 * Z.abs (m2 * 2 ^ (e2 - e) - Zpos m) <= 2 ^ (fe - e))%Z.
Proof.
  intros fe H. unfold binary_round_aux.
  destruct (shr_fexp_shift (Zpos m) e) as (q & rem & r & s0 & Hs & Hq & Hrem & Hval & Hloc);
    [lia | exact H |].
  cbn [Zdigits2] in Hs, Hrem, Hval, Hloc. fold fe in Hs, Hrem, Hval, Hloc.
  rewrite Hs. cbn [shr_m].
  set (P := (2 ^ (fe - e))%Z) in *.
  assert (HP : (0 < P)%Z) by (apply Z.pow_pos_nonneg; lia).
  set (m2 := round_nearest_even q (loc_of_shr_record (Build_shr_record q r s0))).
  (* the rounded mantissa *)
  assert (Hm2 : (q <= m2 <= q + 1)%Z /\ (2 * Z.abs (m2 * P - Zpos m) <= P)%Z).
  { unfold m2. unfold loc_ok in Hloc. fold P in Hloc. clearbody P.
    destruct r, s0; cbn [loc_of_shr_record round_nearest_even];
      try (destruct (Z.even q)); split; lia. }
  destruct Hm2 as (Hm2q & Hm2e).
  (* the quotient has at most 53 digits *)
  pose proof (digits2_bounds m) as Hd.
  set (d := Zpos (digits2_pos m)) in *.
  assert (Hfe : (d + e - 53 <= fe)%Z /\ (-1074 <= fe)%Z) by (unfold fe, fexp64; lia).
  assert (Hq53 : (q < 2 ^ 53)%Z).
  { assert (Hle : (2 ^ d <= 2 ^ 53 * P)%Z).
    { unfold P. rewrite <- Z.pow_add_r by lia.
      apply Z.pow_le_mono_r; lia. }
    clearbody P. nia. }
  clearbody m2.
  destruct (Z.eq_dec m2 0) as [Hz|Hnz].
  - (* rounds to zero *)
    subst m2. rewrite shr_fexp_noshift
      by (cbn [Zdigits2]; unfold fexp64; lia).
    cbn [shr_m]. exists 0%Z, fe. split; [reflexivity|].
    split; [lia|]. split; [lia|]. fold P. exact Hm2e.
  - destruct m2 as [|p2|p2]; try lia.
    destruct (Z_lt_le_dec (Zpos p2) (2 ^ 53)) as [Hlt|Hge].
    + (* no carry *)
      assert (Hd2 : (Zpos (digits2_pos p2) <= 53)%Z).
      { pose proof (digits2_bounds p2) as B.
        destruct (Z_lt_le_dec 53 (Zpos (digits2_pos p2))) as [Hc|Hc]; [|exact Hc].
        assert ((2 ^ 53 <= 2 ^ (Zpos (digits2_pos p2) - 1))%Z)
          by (apply Z.pow_le_mono_r; lia). lia. }
      rewrite shr_fexp_noshift
        by (cbn [Zdigits2]; unfold fexp64; lia).
      cbn [shr_m]. exists (Zpos p2), fe. split; [reflexivity|].
      split; [lia|]. split; [lia|]. fold P. exact Hm2e.
    + (* carry: the mantissa is 2^53 *)
      assert (Hp2 : Zpos p2 = (2 ^ 53)%Z) by lia.
      assert (Hp2' : p2 = (2 ^ 53)%positive).
      { apply Pos2Z.inj. rewrite Hp2. reflexivity. }
      subst p2.
      unfold shr_fexp. rewrite fexp_64. cbn [Zdigits2 shr_record_of_loc].
      replace (fexp64 (Zpos (digits2_pos (2 ^ 53)) + fe) - fe)%Z with 1%Z
        by (change (Zpos (digits2_pos (2 ^ 53))) with 54%Z; unfold fexp64; lia).
      cbn [shr SpecFloat.iter_pos]. 
      change (shr_1 {| shr_m := Zpos (2 ^ 53); shr_r := false; shr_s := false |})
        with {| shr_m := (2 ^ 52)%Z; shr_r := false; shr_s := false |}.
      cbn [shr_m]. exists (2 ^ 52)%Z, (fe + 1)%Z.
      split; [reflexivity|]. split; [lia|]. split; [lia|].
      replace (fe + 1 - e)%Z with (Z.succ (fe - e)) by lia.
      rewrite Z.pow_succ_r by lia. fold P.
      replace (2 ^ 52 * (2 * P))%Z with (2 ^ 53 * P)%Z by lia.
      rewrite <- Hp2. exact Hm2e.
Qed.

(** ** Real values *)

Lemma bpow_pos (e : Z) : 0 < bpow e.
Proof. apply powerRZ_lt. lra. Qed.

Lemma bpow_add (a b : Z) : bpow (a + b) = bpow a * bpow b.
Proof. apply powerRZ_add. lra. Qed.

Lemma bpow_IZR (k : Z) : (0 <= k)%Z -> IZR (2 ^ k) = bpow k.
Proof.
  intros Hk. unfold bpow. rewrite <- (Z2Nat.id k) by exact Hk.
  rewrite <- pow_powerRZ, pow_IZR. reflexivity.
Qed.

Lemma bpow_le (a b : Z) : (a <= b)%Z -> bpow a <= bpow b.
Proof.
  intros H. replace b with (a + (b - a))%Z by lia.
  rewrite bpow_add, <- (bpow_IZR (b - a)) by lia.
  assert (1 <= IZR (2 ^ (b - a))).
  { apply IZR_le. assert (0 < 2 ^ (b - a))%Z by (apply Z.pow_pos_nonneg; lia). lia. }
  pose proof (bpow_pos a). nra.
Qed.

Lemma bpow_lt (a b : Z) : (a < b)%Z -> bpow a < bpow b.
Proof.
  intros H. replace b with (a + (b - a))%Z by lia.
  rewrite bpow_add, <- (bpow_IZR (b - a)) by lia.
  assert (2 <= IZR (2 ^ (b - a))).
  { apply IZR_le.
    assert (2 ^ 1 <= 2 ^ (b - a))%Z by (apply Z.pow_le_mono_r; lia). lia. }
  pose proof (bpow_pos a). nra.
Qed.

Lemma bpow_succ (a : Z) : bpow (a + 1) = 2 * bpow a.
Proof.
  rewrite bpow_add. change (bpow 1) with (2 * 1). ring.
Qed.

Lemma bpow_lt_inv (a b : Z) : bpow a < bpow b -> (a < b)%Z.
Proof.
  intros H. destruct (Z_lt_le_dec a b) as [Hl|Hl]; [exact Hl|].
  pose proof (bpow_le b a Hl). lra.
Qed.

Lemma mantissa_bounds (m : positive) (e : Z) :
  bpow (Zpos (digits2_pos m) - 1 + e) <= IZR (Zpos m) * bpow e
  < bpow (Zpos (digits2_pos m) + e).
Proof.
  pose proof (digits2_bounds m) as (Hl & Hu).
  rewrite !bpow_add. pose proof (bpow_pos e).
  rewrite <- (bpow_IZR (Zpos (digits2_pos m) - 1)) by lia.
  rewrite <- (bpow_IZR (Zpos (digits2_pos m))) by lia.
  apply IZR_le in Hl. apply IZR_lt in Hu. nra.
Qed.

Lemma rounded_value (s : bool) (m2 e2 : Z) :
  (0 <= m2)%Z -> (e2 <= 971)%Z ->
  SFfinite (rounded s m2 e2) = true
  /\ SF2R (rounded s m2 e2) = sgn s * (IZR m2 * bpow e2).
Proof.
  intros Hm He. unfold rounded. destruct m2 as [|p|p]; try lia.
  - cbn. split; [reflexivity | lra].
  - replace (e2 <=? 971)%Z with true by (symmetry; apply Z.leb_le; lia).
    cbn. split; reflexivity.
Qed.

Lemma round_aux_R (s : bool) (m : positive) (e : Z) :
  (Zpos (digits2_pos m) + e <= 971)%Z ->
  exists t,
    SFfinite (binary_round_aux prec emax s (Zpos m) e loc_Exact) = true
    /\ SF2R (binary_round_aux prec emax s (Zpos m) e loc_Exact) = sgn s * t
    /\ 0 <= t
    /\ Rabs (t - IZR (Zpos m) * bpow e) <= round_err m e.
Proof.
  intros Hov. unfold round_err.
  set (d := Zpos (digits2_pos m)) in *.
  assert (Hd : (1 <= d)%Z) by (unfold d; lia).
  destruct (Z.ltb_spec e (fexp64 (d + e))) as [Hlt|Hge].
  - destruct (round_aux_inexact s m e Hlt) as (m2 & e2 & Hr & Hm2 & He2 & Herr).
    fold d in He2, Herr. set (fe := fexp64 (d + e)) in *.
    assert (Hfe : (fe <= 918)%Z) by (unfold fe, fexp64; lia).
    destruct (rounded_value s m2 e2 Hm2 ltac:(lia)) as (Hf & Hv).
    exists (IZR m2 * bpow e2). rewrite Hr. split; [exact Hf|]. split; [exact Hv|].
    pose proof (bpow_pos e2). split.
    { apply Rmult_le_pos; [apply IZR_le; lia | lra]. }
    replace e2 with (e + (e2 - e))%Z at 1 by lia.
    rewrite bpow_add, <- (bpow_IZR (e2 - e)) by lia.
    replace (IZR m2 * (bpow e * IZR (2 ^ (e2 - e))) - IZR (Zpos m) * bpow e)
      with (IZR (m2 * 2 ^ (e2 - e) - Zpos m) * bpow e)
      by (rewrite minus_IZR, mult_IZR; ring).
    rewrite Rabs_mult, (Rabs_pos_eq (bpow e)) by (pose proof (bpow_pos e); lra).
    rewrite <- abs_IZR.
    replace (fe - 1)%Z with (e + (fe - e - 1))%Z by lia.
    rewrite bpow_add, <- (bpow_IZR (fe - e - 1)) by lia.
    assert (Hh : (Z.abs (m2 * 2 ^ (e2 - e) - Zpos m) <= 2 ^ (fe - e - 1))%Z).
    { replace (fe - e)%Z with (Z.succ (fe - e - 1)) in Herr by lia.
      rewrite Z.pow_succ_r in Herr by lia. lia. }
    apply IZR_le in Hh. pose proof (bpow_pos e). nra.
  - rewrite round_aux_exact by exact Hge.
    destruct (rounded_value s (Zpos m) e ltac:(lia) ltac:(lia)) as (Hf & Hv).
    exists (IZR (Zpos m) * bpow e). split; [exact Hf|]. split; [exact Hv|].
    pose proof (bpow_pos e). split.
    { apply Rmult_le_pos; [apply IZR_le; lia | lra]. }
    rewrite Rminus_diag, Rabs_R0. lra.
Qed.

Lemma round_err_general (m : positive) (e : Z) :
  round_err m e <= u64 * (IZR (Zpos m) * bpow e) + eta64.
Proof.
  unfold round_err, u64, eta64.
  pose proof (mantissa_bounds m e) as (Hl & _).
  set (d := Zpos (digits2_pos m)) in *.
  pose proof (bpow_pos (-53)). pose proof (bpow_pos (-1075)).
  pose proof (bpow_pos (d - 1 + e)).
  destruct (Z.ltb_spec e (fexp64 (d + e))) as [Hlt|Hge]; [|nra].
  unfold fexp64 in *.
  destruct (Z.max_spec (d + e - 53) (-1074)) as [(Hc & ->)|(Hc & ->)].
  - change (-1074 - 1)%Z with (-1075)%Z. nra.
  - replace (d + e - 53 - 1)%Z with (-53 + (d - 1 + e))%Z by lia.
    rewrite bpow_add. nra.
Qed.

Lemma round_err_normal (m : positive) (e : Z) :
  (-1074 <= e)%Z ->
  round_err m e <= u64 * (IZR (Zpos m) * bpow e).
Proof.
  intros He. unfold round_err, u64.
  pose proof (mantissa_bounds m e) as (Hl & _).
  set (d := Zpos (digits2_pos m)) in *.
  pose proof (bpow_pos (-53)). pose proof (bpow_pos (d - 1 + e)).
  destruct (Z.ltb_spec e (fexp64 (d + e))) as [Hlt|Hge]; [|nra].
  unfold fexp64 in *.
  destruct (Z.max_spec (d + e - 53) (-1074)) as [(Hc & Hm)|(Hc & Hm)];
    rewrite Hm in *; [lia|].
  replace (d + e - 53 - 1)%Z with (-53 + (d - 1 + e))%Z by lia.
  rewrite bpow_add. nra.
Qed.

Lemma digits_of_bound (m : positive) (e k : Z) :
  IZR (Zpos m) * bpow e <= bpow k -> (Zpos (digits2_pos m) + e <= k + 1)%Z.
Proof.
  intros H. pose proof (mantissa_bounds m e) as (Hl & _).
  destruct (Z_lt_le_dec (k + 1) (Zpos (digits2_pos m) + e)) as [Hc|Hc]; [|exact Hc].
  assert (bpow k < bpow (Zpos (digits2_pos m) - 1 + e)) by (apply bpow_lt; lia).
  lra.
Qed.

(** ** Alignment and normalisation *)

Lemma iter_xO (d m : positive) :
  Zpos (Pos.iter xO m d) = (Zpos m * 2 ^ Zpos d)%Z.
Proof.
  induction d as [|d IH] using Pos.peano_ind.
  - cbn [Pos.iter]. rewrite Pos2Z.inj_xO. change (2 ^ 1)%Z with 2%Z. lia.
  - rewrite Pos.iter_succ, Pos2Z.inj_xO, IH, Pos2Z.inj_succ, Z.pow_succ_r by lia.
    lia.
Qed.

Lemma shl_align_spec (mx : positive) (ex ex' : Z) :
  snd (shl_align mx ex ex') = Z.min ex ex'
  /\ Zpos (fst (shl_align mx ex ex'))
     = (Zpos mx * 2 ^ (ex - Z.min ex ex'))%Z.
Proof.
  unfold shl_align. destruct (ex' - ex)%Z as [|d|d] eqn:E; cbn [fst snd].
  - replace (Z.min ex ex') with ex by lia. rewrite Z.sub_diag. cbn. lia.
  - replace (Z.min ex ex') with ex by lia. rewrite Z.sub_diag. cbn. lia.
  - replace (Z.min ex ex') with ex' by lia. split; [reflexivity|].
    rewrite iter_xO. f_equal. f_equal. lia.
Qed.

Lemma digits2_shift (m mz : positive) (k : Z) :
  (0 <= k)%Z -> Zpos mz = (Zpos m * 2 ^ k)%Z ->
  Zpos (digits2_pos mz) = (Zpos (digits2_pos m) + k)%Z.
Proof.
  intros Hk H. apply digits2_unique; [|lia].
  pose proof (digits2_bounds m) as (Hl & Hu). rewrite H.
  replace (Zpos (digits2_pos m) + k - 1)%Z
    with ((Zpos (digits2_pos m) - 1) + k)%Z by lia.
  rewrite !Z.pow_add_r by lia.
  assert (0 < 2 ^ k)%Z by (apply Z.pow_pos_nonneg; lia). nia.
Qed.

Lemma binary_round_R (s : bool) (m : positive) (e : Z) :
  (-1074 <= e)%Z ->
  (Zpos (digits2_pos m) + e <= 971)%Z ->
  exists t,
    SFfinite (binary_round prec emax s m e) = true
    /\ SF2R (binary_round prec emax s m e) = sgn s * t
    /\ 0 <= t
    /\ Rabs (t - IZR (Zpos m) * bpow e) <= u64 * (IZR (Zpos m) * bpow e).
Proof.
  intros He Hov. unfold binary_round. rewrite fexp_64.
  set (fe := fexp64 (Zpos (digits2_pos m) + e)).
  destruct (shl_align_spec m e fe) as (Hez & Hmz).
  destruct (shl_align m e fe) as (mz, ez). cbn [fst snd] in Hez, Hmz.
  assert (Hfe : (-1074 <= fe)%Z) by (unfold fe, fexp64; lia).
  assert (Hdz : Zpos (digits2_pos mz) = (Zpos (digits2_pos m) + (e - ez))%Z).
  { apply digits2_shift; [lia|]. now rewrite Hez. }
  assert (Hval : IZR (Zpos mz) * bpow ez = IZR (Zpos m) * bpow e).
  { rewrite Hmz, mult_IZR, bpow_IZR by lia.
    rewrite <- Hez. rewrite Rmult_assoc, <- bpow_add. f_equal. f_equal. lia. }
  destruct (round_aux_R s mz ez) as (t & Hf & Hv & Ht & Herr); [lia|].
  exists t. split; [exact Hf|]. split; [exact Hv|]. split; [exact Ht|].
  rewrite <- Hval. eapply Rle_trans; [exact Herr|].
  apply round_err_normal. lia.
Qed.

(** ** The operations on [spec_float] *)

Lemma valid_exponent (s : bool) (m : positive) (e : Z) :
  SFvalid (S754_finite s m e) -> (-1074 <= e <= 971)%Z.
Proof.
  unfold SFvalid, SpecFloat.valid_binary, SpecFloat.bounded, SpecFloat.canonical_mantissa.
  rewrite fexp_64. intros H. apply andb_true_iff in H. destruct H as (H1 & H2).
  apply Z.eqb_eq in H1. apply Z.leb_le in H2. unfold fexp64 in H1.
  change (emax - prec)%Z with 971%Z in H2. lia.
Qed.

Lemma sgn_xorb (a b : bool) : sgn (xorb a b) = sgn a * sgn b.
Proof. destruct a, b; cbn; lra. Qed.

Lemma Rabs_sgn (s : bool) (t : R) : Rabs (sgn s * t) = Rabs t.
Proof.
  destruct s; cbn.
  - replace (-1 * t) with (- t) by ring. apply Rabs_Ropp.
  - now rewrite Rmult_1_l.
Qed.

Lemma SFmul_R (x y : spec_float) :
  SFfinite x = true -> SFfinite y = true ->
  Rabs (SF2R x * SF2R y) <= bpow 970 ->
  SFfinite (SFmul prec emax x y) = true
  /\ Rabs (SF2R (SFmul prec emax x y) - SF2R x * SF2R y)
     <= u64 * Rabs (SF2R x * SF2R y) + eta64.
Proof.
  assert (Heta : 0 <= eta64) by (pose proof (bpow_pos (-1075)); unfold eta64; lra).
  assert (Hu : 0 <= u64) by (pose proof (bpow_pos (-53)); unfold u64; lra).
  intros Hx Hy Hb.
  destruct x as [sx|sx| |sx mx ex]; try discriminate Hx;
    destruct y as [sy|sy| |sy my ey]; try discriminate Hy;
      cbn [SFmul SF2R SFfinite];
      try (split; [reflexivity|];
           rewrite ?Rmult_0_l, ?Rmult_0_r, Rminus_diag, Rabs_R0; lra).
  cbn [SF2R] in Hb.
  set (X := IZR (Zpos mx) * bpow ex) in *.
  set (Y := IZR (Zpos my) * bpow ey) in *.
  assert (HX : 0 < X).
  { unfold X. apply Rmult_lt_0_compat; [apply IZR_lt; lia | apply bpow_pos]. }
  assert (HY : 0 < Y).
  { unfold Y. apply Rmult_lt_0_compat; [apply IZR_lt; lia | apply bpow_pos]. }
  assert (Hprod : IZR (Zpos (mx * my)) * bpow (ex + ey) = X * Y).
  { rewrite Pos2Z.inj_mul, mult_IZR, bpow_add. unfold X, Y. ring. }
  replace (sgn sx * X * (sgn sy * Y)) with (sgn (xorb sx sy) * (X * Y)) in *
    by (rewrite sgn_xorb; ring).
  rewrite Rabs_sgn in *. rewrite (Rabs_pos_eq (X * Y)) in * by nra.
  destruct (round_aux_R (xorb sx sy) (mx * my) (ex + ey)) as (t & Hf & Hv & Ht & Herr).
  { assert (H := digits_of_bound (mx * my) (ex + ey) 970). rewrite Hprod in H.
    specialize (H Hb). lia. }
  split; [exact Hf|]. rewrite Hv.
  replace (sgn (xorb sx sy) * t - sgn (xorb sx sy) * (X * Y))
    with (sgn (xorb sx sy) * (t - X * Y)) by ring.
  rewrite Rabs_sgn. rewrite Hprod in Herr.
  eapply Rle_trans; [exact Herr|].
  rewrite <- Hprod. apply round_err_general.
Qed.

Lemma cond_Zopp_IZR (s : bool) (z : Z) : IZR (cond_Zopp s z) = sgn s * IZR z.
Proof. destruct s; cbn; [rewrite opp_IZR|]; lra. Qed.

Lemma binary_normalize_R (M e : Z) (sz : bool) :
  (-1074 <= e)%Z ->
  Rabs (IZR M * bpow e) <= bpow 970 ->
  SFfinite (binary_normalize prec emax M e sz) = true
  /\ Rabs (SF2R (binary_normalize prec emax M e sz) - IZR M * bpow e)
     <= u64 * Rabs (IZR M * bpow e).
Proof.
  intros He Hb. unfold binary_normalize.
  assert (Hu : 0 <= u64) by (pose proof (bpow_pos (-53)); unfold u64; lra).
  destruct M as [|p|p].
  - cbn [SFfinite SF2R]. split; [reflexivity|].
    rewrite Rmult_0_l, Rminus_diag, Rabs_R0. lra.
  - assert (Hpos : 0 < IZR (Zpos p) * bpow e).
    { apply Rmult_lt_0_compat; [apply IZR_lt; lia | apply bpow_pos]. }
    rewrite (Rabs_pos_eq (IZR (Zpos p) * bpow e)) in * by lra.
    destruct (binary_round_R false p e He) as (t & Hf & Hv & Ht & Herr).
    { pose proof (digits_of_bound p e 970 Hb). lia. }
    split; [exact Hf|]. rewrite Hv. cbn [sgn]. rewrite Rmult_1_l. exact Herr.
  - assert (Hpos : 0 < IZR (Zpos p) * bpow e).
    { apply Rmult_lt_0_compat; [apply IZR_lt; lia | apply bpow_pos]. }
    replace (IZR (Zneg p) * bpow e) with (- (IZR (Zpos p) * bpow e)) in *
      by (change (Zneg p) with (- Zpos p)%Z; rewrite opp_IZR; ring).
    rewrite Rabs_Ropp in *.
    rewrite (Rabs_pos_eq (IZR (Zpos p) * bpow e)) in * by lra.
    destruct (binary_round_R true p e He) as (t & Hf & Hv & Ht & Herr).
    { pose proof (digits_of_bound p e 970 Hb). lia. }
    split; [exact Hf|]. rewrite Hv. cbn [sgn].
    replace (-1 * t - - (IZR (Zpos p) * bpow e))
      with (- (t - IZR (Zpos p) * bpow e)) by ring.
    rewrite Rabs_Ropp. exact Herr.
Qed.

Lemma aligned_value (s : bool) (m : positive) (e ez : Z) :
  (ez <= e)%Z ->
  IZR (cond_Zopp s (Zpos (fst (shl_align m e ez)))) * bpow ez
  = SF2R (S754_finite s m e).
Proof.
  intros H. destruct (shl_align_spec m e ez) as (_ & Hm).
  rewrite cond_Zopp_IZR, Hm, mult_IZR.
  replace (Z.min e ez) with ez by lia.
  rewrite bpow_IZR by lia. cbn [SF2R].
  replace (bpow e) with (bpow (ez + (e - ez))) by (f_equal; lia).
  rewrite bpow_add. ring.
Qed.

Lemma SFadd_R (x y : spec_float) :
  SFvalid x -> SFvalid y ->
  SFfinite x = true -> SFfinite y = true ->
  Rabs (SF2R x + SF2R y) <= bpow 970 ->
  SFfinite (SFadd prec emax x y) = true
  /\ Rabs (SF2R (SFadd prec emax x y) - (SF2R x + SF2R y))
     <= u64 * Rabs (SF2R x + SF2R y).
Proof.
  assert (Hu : 0 <= u64) by (pose proof (bpow_pos (-53)); unfold u64; lra).
  intros Vx Vy Hx Hy Hb.
  destruct x as [sx|sx| |sx mx ex]; try discriminate Hx;
    destruct y as [sy|sy| |sy my ey]; try discriminate Hy.
  - cbn [SFadd]. destruct sx, sy; cbn [SFfinite SF2R]; split; try reflexivity;
      rewrite Rplus_0_l, Rminus_diag, Rabs_R0; lra.
  - cbn [SFadd SFfinite]. split; [reflexivity|].
    cbn [SF2R]. rewrite Rplus_0_l, Rminus_diag, Rabs_R0.
    pose proof (Rabs_pos (sgn sy * (IZR (Zpos my) * bpow ey))). nra.
  - cbn [SFadd SFfinite]. split; [reflexivity|].
    cbn [SF2R]. rewrite Rplus_0_r, Rminus_diag, Rabs_R0.
    pose proof (Rabs_pos (sgn sx * (IZR (Zpos mx) * bpow ex))). nra.
  - apply valid_exponent in Vx, Vy. cbn [SFadd].
    set (ez := Z.min ex ey).
    rewrite <- (aligned_value sx mx ex ez), <- (aligned_value sy my ey ez) in *
      by (unfold ez; lia).
    rewrite <- Rmult_plus_distr_r, <- plus_IZR in *.
    apply binary_normalize_R; [unfold ez; lia | exact Hb].
Qed.

Lemma SFsub_R (x y : spec_float) :
  SFvalid x -> SFvalid y ->
  SFfinite x = true -> SFfinite y = true ->
  Rabs (SF2R x - SF2R y) <= bpow 970 ->
  SFfinite (SFsub prec emax x y) = true
  /\ Rabs (SF2R (SFsub prec emax x y) - (SF2R x - SF2R y))
     <= u64 * Rabs (SF2R x - SF2R y).
Proof.
  assert (Hu : 0 <= u64) by (pose proof (bpow_pos (-53)); unfold u64; lra).
  intros Vx Vy Hx Hy Hb.
  destruct x as [sx|sx| |sx mx ex]; try discriminate Hx;
    destruct y as [sy|sy| |sy my ey]; try discriminate Hy.
  - cbn [SFsub]. destruct sx, sy; cbn [SFfinite SF2R]; split; try reflexivity;
      rewrite Rminus_diag, Rminus_diag, Rabs_R0; lra.
  - cbn [SFsub SFfinite]. split; [reflexivity|].
    cbn [SF2R]. 
    replace (sgn (negb sy) * (IZR (Zpos my) * bpow ey)
             - (0 - sgn sy * (IZR (Zpos my) * bpow ey))) with 0
      by (destruct sy; cbn; ring).
    rewrite Rabs_R0.
    pose proof (Rabs_pos (0 - sgn sy * (IZR (Zpos my) * bpow ey))). nra.
  - cbn [SFsub SFfinite]. split; [reflexivity|].
    cbn [SF2R]. rewrite Rminus_0_r, Rminus_diag, Rabs_R0.
    pose proof (Rabs_pos (sgn sx * (IZR (Zpos mx) * bpow ex))). nra.
  - apply valid_exponent in Vx, Vy. cbn [SFsub].
    set (ez := Z.min ex ey).
    rewrite <- (aligned_value sx mx ex ez), <- (aligned_value sy my ey ez) in *
      by (unfold ez; lia).
    rewrite <- Rmult_minus_distr_r, <- minus_IZR in *.
    apply binary_normalize_R; [unfold ez; lia | exact Hb].
Qed.

(** ** The operations of [PrimFloat] *)

Lemma add_R (x y : float) :
  finite x = true -> finite y = true ->
  Rabs (B2R x + B2R y) <= bpow 970 ->
  finite (x + y) = true
  /\ Rabs (B2R (x + y) - (B2R x + B2R y)) <= u64 * Rabs (B2R x + B2R y).
Proof.
  unfold finite, B2R. rewrite add_spec. intros Hx Hy Hb.
  apply SFadd_R; auto; apply Prim2SF_valid.
Qed.

Lemma sub_R (x y : float) :
  finite x = true -> finite y = true ->
  Rabs (B2R x - B2R y) <= bpow 970 ->
  finite (x - y) = true
  /\ Rabs (B2R (x - y) - (B2R x - B2R y)) <= u64 * Rabs (B2R x - B2R y).
Proof.
  unfold finite, B2R. rewrite sub_spec. intros Hx Hy Hb.
  apply SFsub_R; auto; apply Prim2SF_valid.
Qed.

Lemma mul_R (x y : float) :
  finite x = true -> finite y = true ->
  Rabs (B2R x * B2R y) <= bpow 970 ->
  finite (x * y) = true
  /\ Rabs (B2R (x * y) - B2R x * B2R y) <= u64 * Rabs (B2R x * B2R y) + eta64.
Proof.
  unfold finite, B2R. rewrite mul_spec. intros Hx Hy Hb.
  apply SFmul_R; auto.
Qed.

Lemma u64_bounds : 0 < u64 < 1.
Proof.
  unfold u64. split; [apply bpow_pos|].
  change 1 with (bpow 0). apply bpow_lt. lia.
Qed.

(** Addition of non-negative values. *)
Lemma add_nonneg (x y : float) :
  finite x = true -> finite y = true ->
  0 <= B2R x -> 0 <= B2R y ->
  B2R x + B2R y <= bpow 970 ->
  finite (x + y) = true
  /\ (1 - u64) * (B2R x + B2R y) <= B2R (x + y) <= (1 + u64) * (B2R x + B2R y).
Proof.
  intros Hx Hy Px Py Hb.
  destruct (add_R x y Hx Hy) as (Hf & He).
  { rewrite Rabs_pos_eq; lra. }
  split; [exact Hf|]. rewrite (Rabs_pos_eq (B2R x + B2R y)) in He by lra.
  unfold Rabs in He at 1. destruct (Rcase_abs _); lra.
Qed.

(** A finite number that is not negative. *)
Lemma nonneg_spec (x : float) :
  nonneg x = true <-> finite x = true /\ 0 <= B2R x.
Proof.
  unfold nonneg, finite, B2R.
  destruct (Prim2SF x) as [s|s| |[|] m e]; cbn [SFfinite SF2R sgn]; split;
    try (intros H; discriminate H);
    try (intros (H & _); discriminate H);
    try (intros _; split; [reflexivity|lra]);
    try reflexivity.
  - intros (_ & H).
    assert (0 < IZR (Zpos m) * bpow e)
      by (apply Rmult_lt_0_compat; [apply IZR_lt; lia | apply bpow_pos]).
    lra.
  - intros _. split; [reflexivity|].
    assert (0 < IZR (Zpos m) * bpow e)
      by (apply Rmult_lt_0_compat; [apply IZR_lt; lia | apply bpow_pos]).
    lra.
Qed.

(** The sum of non-negative numbers computed from left to right, as the
    loops compute it, against the exact sum. *)
Lemma fsum_bounds (l : list float) :
  forall acc,
    Forall (fun p => nonneg p = true) l -> nonneg acc = true ->
    (1 + u64) ^ List.length l * (B2R acc + vsum l) <= bpow 970 ->
    nonneg (fold_left PrimFloat.add l acc) = true
    /\ (1 - u64) ^ List.length l * (B2R acc + vsum l)
       <= B2R (fold_left PrimFloat.add l acc)
       <= (1 + u64) ^ List.length l * (B2R acc + vsum l).
Proof.
  pose proof u64_bounds as Hu.
  induction l as [|p l IH]; intros acc Hl Hacc Hb.
  - unfold vsum. cbn. split; [exact Hacc|]. lra.
  - inversion Hl as [|p' l' Hp Hl']; subst.
    apply nonneg_spec in Hacc. destruct Hacc as (Fa & Pa).
    apply nonneg_spec in Hp. destruct Hp as (Fp & Pp).
    assert (HS : 0 <= vsum l).
    { apply rsum_nonneg. apply Forall_map.
      eapply Forall_impl; [|exact Hl']. intros q Hq.
      apply nonneg_spec in Hq. apply Hq. }
    change (vsum (p :: l)) with (B2R p + vsum l) in *.
    change (List.length (p :: l)) with (S (List.length l)) in *.
    change (fold_left PrimFloat.add (p :: l) acc)
      with (fold_left PrimFloat.add l (acc + p)%float).
    rewrite <- !tech_pow_Rmult in *.
    set (T := (1 + u64) ^ List.length l) in *.
    set (T' := (1 - u64) ^ List.length l) in *.
    set (A := B2R acc) in *. set (P := B2R p) in *.
    set (S := vsum l) in *.
    assert (Hpow1 : 1 <= T) by (apply pow_R1_Rle; lra).
    assert (Hpow0 : 0 <= T') by (apply pow_le; lra).
    assert (HTS : A + P + S <= T * (A + P + S)) by nra.
    assert (HuTS : T * (A + P + S) <= (1 + u64) * T * (A + (P + S))) by nra.
    destruct (add_nonneg acc p Fa Fp Pa Pp) as (Fs & Bs).
    { fold A P. lra. }
    fold A P in Bs. set (A' := B2R (acc + p)) in *.
    assert (HuS : 0 <= u64 * S) by nra.
    assert (HuAP : 0 <= u64 * (A + P)) by nra.
    assert (HuAP' : 0 <= (1 - u64) * (A + P)) by (apply Rmult_le_pos; lra).
    assert (HA' : 0 <= A') by lra.
    assert (Hup : A' + S <= (1 + u64) * (A + P + S)) by lra.
    assert (Hlo : (1 - u64) * (A + P + S) <= A' + S) by lra.
    assert (HTup : T * (A' + S) <= T * ((1 + u64) * (A + P + S)))
      by (apply Rmult_le_compat_l; lra).
    assert (HTlo : T' * ((1 - u64) * (A + P + S)) <= T' * (A' + S))
      by (apply Rmult_le_compat_l; lra).
    destruct (IH (acc + p)%float Hl') as (Hg & Bl).
    { apply nonneg_spec. split; [exact Fs|exact HA']. }
    { fold A' S T. lra. }
    fold A' S T T' in Bl.
    split; [exact Hg|]. split; lra.
Qed.

Lemma pow_upper (k : nat) (u : R) :
  0 <= u -> 2 * INR k * u <= 1 -> (1 + u) ^ k <= 1 + 2 * INR k * u.
Proof.
  intros Hu. induction k as [|k IH]; intros H.
  - cbn. lra.
  - rewrite S_INR in *. pose proof (pos_INR k).
    cbn [pow]. assert (IH' := IH ltac:(nra)). nra.
Qed.

Lemma pow_lower (k : nat) (u : R) :
  0 <= u <= 1 -> 1 - INR k * u <= (1 - u) ^ k.
Proof.
  intros Hu. induction k as [|k IH].
  - cbn. lra.
  - rewrite S_INR. pose proof (pos_INR k). cbn [pow].
    assert (0 <= (1 - u) ^ k) by (apply pow_le; lra).
    destruct (Rle_dec (INR k * u) 1); nra.
Qed.

End Binary64Facts.

(* ================================================================== *)
(** * The marginal loops on binary64 values *)

Section FloatMarginals.
Import Binary64.
Local Open Scope R_scope.

Lemma select_length (F : Type) (probabilities : list F) (q : Z) (b : bool)
    (idxs : list Z) :
  (List.length (Stmt.select probabilities q b idxs) <= List.length idxs)%nat.
Proof.
  unfold Stmt.select. induction idxs as [|i idxs IH]; cbn [flat_map List.length].
  - lia.
  - rewrite length_app.
    destruct (Bool.eqb (Z.testbit i q) b); [|cbn; lia].
    destruct (index probabilities i); cbn; lia.
Qed.

Lemma select_Forall (F : Type) (P : F -> Prop) (probabilities : list F)
    (q : Z) (b : bool) (idxs : list Z) :
  Forall P probabilities -> Forall P (Stmt.select probabilities q b idxs).
Proof.
  intros Hall. unfold Stmt.select. apply Forall_flat_map.
  apply Forall_forall. intros i _.
  destruct (Bool.eqb (Z.testbit i q) b); [|constructor].
  destruct (index probabilities i) as [p|] eqn:E; [|constructor].
  constructor; [|constructor].
  rewrite Forall_forall in Hall. apply Hall.
  unfold index in E. destruct (i <? 0)%Z; [discriminate|].
  eapply nth_error_In. exact E.
Qed.

Lemma select_map (F G : Type) (f : F -> G) (probabilities : list F)
    (q : Z) (b : bool) (idxs : list Z) :
  Stmt.select (map f probabilities) q b idxs
  = map f (Stmt.select probabilities q b idxs).
Proof.
  unfold Stmt.select. induction idxs as [|i idxs IH]; cbn [flat_map map].
  - reflexivity.
  - rewrite map_app, IH. f_equal.
    destruct (Bool.eqb (Z.testbit i q) b); [|reflexivity].
    unfold index. destruct (i <? 0)%Z; [reflexivity|].
    rewrite nth_error_map.
    destruct (nth_error probabilities (Z.to_nat i)); reflexivity.
Qed.

Lemma range_length (k : Z) : List.length (range k) = Z.to_nat k.
Proof. unfold range. now rewrite length_map, length_seq. Qed.

Lemma bpow_inv (k : Z) : bpow (- k) = / bpow k.
Proof.
  pose proof (bpow_pos k) as Hk.
  apply Rmult_eq_reg_r with (bpow k); [|lra].
  rewrite <- bpow_add, Rinv_l by lra.
  replace (- k + k)%Z with 0%Z by lia. reflexivity.
Qed.

(** Up to [2^30] additions lose at most a relative [2^-22]. *)
Lemma pow_u64 (k : nat) :
  (Z.of_nat k <= 2 ^ 30)%Z ->
  (1 + u64) ^ k <= 1 + bpow (-22) /\ 1 - bpow (-23) <= (1 - u64) ^ k.
Proof.
  intros Hk. pose proof u64_bounds as Hu.
  assert (HK : INR k <= bpow 30).
  { rewrite INR_IZR_INZ, <- bpow_IZR by lia. apply IZR_le. exact Hk. }
  pose proof (pos_INR k) as Hk0.
  assert (H22 : bpow 30 * u64 = bpow (-23)).
  { unfold u64. rewrite <- bpow_add. reflexivity. }
  assert (H23 : 2 * bpow (-23) = bpow (-22)).
  { rewrite <- (bpow_succ (-23)). reflexivity. }
  assert (Hlt : bpow (-22) < 1).
  { change 1 with (bpow 0). apply bpow_lt. lia. }
  assert (Hku : INR k * u64 <= bpow (-23)).
  { rewrite <- H22. apply Rmult_le_compat_r; lra. }
  split.
  - eapply Rle_trans; [apply pow_upper; [lra|]|]; lra.
  - eapply Rle_trans; [|apply pow_lower; lra]. lra.
Qed.

Lemma pow_mono (x : R) (k k' : nat) :
  1 <= x -> (k <= k')%nat -> x ^ k <= x ^ k'.
Proof. intros Hx Hk. apply Rle_pow; assumption. Qed.

Lemma B2R_zero : B2R 0%float = 0 /\ nonneg 0%float = true.
Proof. split; reflexivity. Qed.

(** One marginal pair computed in binary64, against the exact sums of
    the two groups of probabilities. *)
Lemma float_marginal (probabilities : list float) (n q : Z) :
  (0 <= n <= 30)%Z ->
  Forall (fun p => nonneg p = true) probabilities ->
  Z.of_nat (List.length probabilities) = (2 ^ n)%Z ->
  vsum probabilities <= 2 ->
  let m := Stmt.marginal_spec 0%float PrimFloat.add probabilities n q in
  let S0 := vsum (Stmt.select probabilities q false (range (2 ^ n))) in
  let S1 := vsum (Stmt.select probabilities q true (range (2 ^ n))) in
  nonneg (fst m) = true /\ nonneg (snd m) = true
  /\ 0 <= S0 /\ 0 <= S1 /\ S0 + S1 = vsum probabilities
  /\ (1 - bpow (-23)) * S0 <= B2R (fst m) <= (1 + bpow (-22)) * S0
  /\ (1 - bpow (-23)) * S1 <= B2R (snd m) <= (1 + bpow (-22)) * S1.
Proof.
  intros Hn Hall Hlen Hsum m S0 S1.
  assert (Htot : S0 + S1 = vsum probabilities).
  { unfold S0, S1, vsum. rewrite <- !select_map.
    pose proof (marginal_spec_total (map B2R probabilities) n q) as H.
    rewrite length_map in H. specialize (H Hlen).
    rewrite marginal_spec_sums in H. exact H. }
  assert (Hpos : forall b, 0 <= vsum (Stmt.select probabilities q b (range (2 ^ n)))).
  { intros b. apply rsum_nonneg. apply Forall_map.
    apply select_Forall. eapply Forall_impl; [|exact Hall].
    intros p Hp. apply nonneg_spec in Hp. apply Hp. }
  pose proof (Hpos false) as HS0. pose proof (Hpos true) as HS1.
  fold S0 in HS0. fold S1 in HS1.
  assert (Hbound : forall b,
    let l := Stmt.select probabilities q b (range (2 ^ n)) in
    nonneg (fold_left PrimFloat.add l 0%float) = true
    /\ (1 - bpow (-23)) * vsum l <= B2R (fold_left PrimFloat.add l 0%float)
       <= (1 + bpow (-22)) * vsum l).
  { intros b l.
    assert (Hl : (Z.of_nat (List.length l) <= 2 ^ 30)%Z).
    { pose proof (select_length float probabilities q b (range (2 ^ n))) as H.
      fold l in H. rewrite range_length in H.
      assert (2 ^ n <= 2 ^ 30)%Z by (apply Z.pow_le_mono_r; lia).
      assert (0 < 2 ^ n)%Z by (apply Z.pow_pos_nonneg; lia). lia. }
    destruct (pow_u64 (List.length l) Hl) as (Hup & Hlo).
    assert (Hvl : 0 <= vsum l <= 2).
    { split; [apply Hpos|]. destruct b; unfold l; fold S0 S1; lra. }
    pose proof u64_bounds as Hu.
    assert (H22 : 0 < bpow (-22) < 1).
    { split; [apply bpow_pos|]. change 1 with (bpow 0). apply bpow_lt. lia. }
    destruct (fsum_bounds l 0%float) as (Hg & Hb).
    - apply select_Forall. exact Hall.
    - reflexivity.
    - change (B2R 0%float) with 0. rewrite Rplus_0_l.
      assert (4 <= bpow 970).
      { replace 4 with (bpow 2) by (rewrite <- bpow_IZR by lia; reflexivity).
        apply bpow_le. lia. }
      assert ((1 + u64) ^ List.length l * vsum l <= (1 + bpow (-22)) * vsum l)
        by (apply Rmult_le_compat_r; lra).
      nra.
    - change (B2R 0%float) with 0 in Hb. rewrite Rplus_0_l in Hb.
      split; [exact Hg|]. split.
      + eapply Rle_trans; [|apply Hb]. apply Rmult_le_compat_r; lra.
      + eapply Rle_trans; [apply Hb|]. apply Rmult_le_compat_r; lra. }
  destruct (Hbound false) as (G0 & B0). destruct (Hbound true) as (G1 & B1).
  unfold m, Stmt.marginal_spec. cbn [fst snd]. fold S0 S1 in B0, B1.
  repeat split; try assumption; try apply B0; try apply B1.
Qed.

End FloatMarginals.

Section FloatLoops.
Import Binary64.
Local Open Scope R_scope.

Lemma Rabs_bounds (x a : R) : Rabs x <= a -> - a <= x <= a.
Proof. unfold Rabs. destruct (Rcase_abs x); lra. Qed.

Lemma bpow_opp_IZR (k : Z) : (0 <= k)%Z -> bpow (Z.opp k) = / IZR (2 ^ k).
Proof. intros Hk. rewrite bpow_inv, bpow_IZR by exact Hk. reflexivity. Qed.

Lemma bpow_neg22 : bpow (-22) = / 4194304.
Proof. exact (bpow_opp_IZR 22 ltac:(lia)). Qed.

Lemma u64_small : u64 <= / 100000000.
Proof.
  unfold u64. eapply Rle_trans; [apply (bpow_le (-53) (-27)); lia|].
  pose proof (bpow_opp_IZR 27 ltac:(lia)) as E.
  change (bpow (-27) = / 134217728) in E. rewrite E. lra.
Qed.

(** The marginal loops on [2^n] finite, non-negative binary64
    probabilities, [n <= 30]: they do not fail, every value they return is
    finite and non-negative, at most [1 + 2^-22] times the exact sum of the
    probabilities, and the two values of a qubit add up to that sum with a
    relative error of at most [2^-22]. *)
Lemma float_loops (probabilities : list float) (n : Z) :
  (0 <= n <= 30)%Z ->
  Forall (fun p => nonneg p = true) probabilities ->
  Z.of_nat (List.length probabilities) = (2 ^ n)%Z ->
  vsum probabilities <= 2 ->
  exists ms,
    Analytics.marginal_probabilities_of 0%float PrimFloat.add probabilities n
    = Some ms
    /\ map (@qubit float) ms = range n
    /\ forall m, In m ms ->
         nonneg (prob_0 m) = true /\ nonneg (prob_1 m) = true
         /\ B2R (prob_0 m) <= (1 + bpow (-22)) * vsum probabilities
         /\ B2R (prob_1 m) <= (1 + bpow (-22)) * vsum probabilities
         /\ Rabs (B2R (prob_0 m) + B2R (prob_1 m) - vsum probabilities)
            <= bpow (-22) * vsum probabilities.
Proof.
  intros Hn Hall Hlen Hsum.
  exists (Stmt.marginals_spec 0%float PrimFloat.add probabilities n).
  split; [apply marginal_probabilities_spec; lia|].
  unfold Stmt.marginals_spec. split.
  { rewrite map_map. cbn [qubit]. apply map_id. }
  intros m Hm. apply in_map_iff in Hm. destruct Hm as (q & <- & _).
  cbn [prob_0 prob_1].
  destruct (float_marginal probabilities n q Hn Hall Hlen Hsum)
    as (G0 & G1 & HS0 & HS1 & Htot & B0 & B1).
  set (S0 := vsum (Stmt.select probabilities q false (range (2 ^ n)))) in *.
  set (S1 := vsum (Stmt.select probabilities q true (range (2 ^ n)))) in *.
  set (P0 := B2R (fst (Stmt.marginal_spec 0%float PrimFloat.add probabilities n q))) in *.
  set (P1 := B2R (snd (Stmt.marginal_spec 0%float PrimFloat.add probabilities n q))) in *.
  clearbody S0 S1 P0 P1. clear Hn Hall Hlen.
  assert (H22 : 0 < bpow (-22)) by apply bpow_pos.
  assert (H23 : 2 * bpow (-23) = bpow (-22)).
  { rewrite <- (bpow_succ (-23)). reflexivity. }
  assert (0 <= bpow (-22) * S0) by (apply Rmult_le_pos; lra).
  assert (0 <= bpow (-22) * S1) by (apply Rmult_le_pos; lra).
  assert (0 <= bpow (-23) * S0) by (apply Rmult_le_pos; lra).
  assert (0 <= bpow (-23) * S1) by (apply Rmult_le_pos; lra).
  rewrite <- Htot.
  split; [exact G0|]. split; [exact G1|].
  split; [lra|]. split; [lra|].
  apply Rabs_le. rewrite <- H23 in *. lra.
Qed.

(** The values the loops return, as a binary64 test of the tolerance
    would add them. *)
Lemma float_pair_sum (p0 p1 : float) (S : R) :
  nonneg p0 = true -> nonneg p1 = true ->
  Rabs (B2R p0 + B2R p1 - S) <= bpow (-22) * S ->
  Rabs (S - 1) <= 7 * / 10000000 ->
  Rabs (B2R p0 + B2R p1 - 1) <= tolerance
  /\ finite (p0 + p1) = true
  /\ Rabs (B2R (p0 + p1) - 1) <= tolerance.
Proof.
  intros G0 G1 Hs H1. unfold tolerance.
  apply nonneg_spec in G0, G1. destruct G0 as (F0 & N0), G1 as (F1 & N1).
  apply Rabs_bounds in Hs, H1. rewrite bpow_neg22 in Hs.
  assert (Hsum : Rabs (B2R p0 + B2R p1 - 1) <= 94 * / 100000000).
  { apply Rabs_le. lra. }
  split; [eapply Rle_trans; [exact Hsum|]; lra|].
  apply Rabs_bounds in Hsum.
  destruct (add_nonneg p0 p1 F0 F1 N0 N1) as (Ff & Bf).
  { replace (bpow 970) with (bpow 2 * bpow 968) by (rewrite <- bpow_add; reflexivity).
    assert (1 <= bpow 968) by (change 1 with (bpow 0); apply bpow_le; lia).
    replace (bpow 2) with 4 by (rewrite <- bpow_IZR by lia; reflexivity).
    lra. }
  split; [exact Ff|].
  pose proof u64_small as Hu.
  pose proof u64_bounds.
  assert (0 <= u64 * (B2R p0 + B2R p1) <= / 100000000 * 2) by nra.
  apply Rabs_le. lra.
Qed.

End FloatLoops.

(** ** Values of some binary64 numbers *)

Section Binary64Values.
Import Binary64.
Local Open Scope R_scope.

Lemma B2R_zero_value : B2R 0%float = 0.
Proof. reflexivity. Qed.

Lemma B2R_one : B2R 1%float = 1.
Proof.
  unfold B2R.
  change (Prim2SF 1%float) with (S754_finite false 4503599627370496 (-52)).
  cbn [SF2R sgn].
  replace (IZR 4503599627370496) with (bpow 52)
    by (rewrite <- bpow_IZR by lia; reflexivity).
  rewrite <- bpow_add. change (52 + -52)%Z with 0%Z. unfold bpow. cbn. lra.
Qed.

Lemma B2R_half : B2R 0.5%float = / 2.
Proof.
  unfold B2R.
  change (Prim2SF 0.5%float) with (S754_finite false 4503599627370496 (-53)).
  cbn [SF2R sgn].
  replace (IZR 4503599627370496) with (bpow 52)
    by (rewrite <- bpow_IZR by lia; reflexivity).
  rewrite <- bpow_add. change (52 + -53)%Z with (Z.opp 1).
  rewrite bpow_opp_IZR by lia. change (IZR (2 ^ 1)) with 2. lra.
Qed.

End Binary64Values.

(* ================================================================== *)
(** * The claims on the analytics of the Qiskit-backed endpoints *)

(** ** C2 *)

(** C2.  For every statevector of [2^n] amplitudes and every qubit [q] in
    [0, n), the marginal pair (P(q=0), P(q=1)) is obtained by summing the
    basis-state probabilities over the indices grouped by bit [q] of the
    index, the least-significant bit being qubit 0, and
    P(q=0) + P(q=1) = 1 within floating-point tolerance.
    - The loops of both Qiskit-backed endpoints compute exactly
      [Stmt.marginals_spec], in any scalar arithmetic, and never fail on
      [2^n] probabilities.
    - The marginals written out in the fallback simulator add up to 1 and
      are, within 1e-6, these sums of the probabilities it returns.
    - In binary64, as the loops run: on [2^n] finite non-negative
      probabilities, [n <= 30], the two values of a qubit add up to the
      exact sum of the probabilities with a relative error of at most
      [2^-22]; when that sum is within 7e-7 of 1 they add up to 1 within
      1e-6, added exactly or in binary64. *)
Theorem marginals_by_bit :
  (forall F zero add abs_sq (Q : QiskitAPI.Qiskit F) data r log,
     Backend.simulate_quantum_circuit zero add abs_sq data = (Success r, log) ->
     marginal_probabilities r
     = Stmt.marginals_spec zero add (probabilities r) (num_qubits r))
  /\ (forall abs_sq (Q : QiskitAPI.Qiskit float) qiskit_code r,
        Docker.simulate_with_qiskit abs_sq qiskit_code = inr r ->
        marginal_probabilities r
        = Stmt.marginals_spec 0%float PrimFloat.add
            (probabilities r) (num_qubits r))
  /\ (forall F (zero : F) add probabilities n,
        (2 ^ n <= Z.of_nat (List.length probabilities))%Z ->
        Analytics.marginal_probabilities_of zero add probabilities n
        = Some (Stmt.marginals_spec zero add probabilities n))
  /\ (forall circuit_type n,
        Stmt.marginals_consistent
          (Simple.simulate_simple_circuit circuit_type n))
  /\ (forall probabilities n,
        (0 <= n <= 30)%Z ->
        Forall (fun p => Binary64.nonneg p = true) probabilities ->
        Z.of_nat (List.length probabilities) = (2 ^ n)%Z ->
        (Binary64.vsum probabilities <= 2)%R ->
        exists ms,
          Analytics.marginal_probabilities_of 0%float PrimFloat.add
            probabilities n = Some ms
          /\ map (@qubit float) ms = range n
          /\ forall m, In m ms ->
               (Rabs (Binary64.B2R (prob_0 m) + Binary64.B2R (prob_1 m)
                      - Binary64.vsum probabilities)
                <= Binary64.bpow (-22) * Binary64.vsum probabilities)%R
               /\ ((Rabs (Binary64.vsum probabilities - 1)
                    <= 7 * / 10000000)%R ->
                   (Rabs (Binary64.B2R (prob_0 m) + Binary64.B2R (prob_1 m) - 1)
                    <= Binary64.tolerance)%R
                   /\ Binary64.finite (prob_0 m + prob_1 m) = true
                   /\ (Rabs (Binary64.B2R (prob_0 m + prob_1 m) - 1)
                       <= Binary64.tolerance)%R)).
Proof.
  split.
  { intros F zero add abs_sq Q data r log Hs.
    exact (proj2 (backend_success F zero add abs_sq Q data r log Hs)). }
  split.
  { intros abs_sq Q code r Hs.
    exact (proj2 (docker_qiskit_success abs_sq Q code r Hs)). }
  split; [exact marginal_probabilities_spec|].
  split; [exact simple_marginals_consistent|].
  intros probabilities n Hn Hall Hlen Hsum.
  destruct (float_loops probabilities n Hn Hall Hlen Hsum) as (ms & Hms & Hq & Hb).
  exists ms. split; [exact Hms|]. split; [exact Hq|].
  intros m Hm. destruct (Hb m Hm) as (G0 & G1 & _ & _ & Hpair).
  split; [exact Hpair|]. intros Hone.
  exact (float_pair_sum (prob_0 m) (prob_1 m) _ G0 G1 Hpair Hone).
Qed.

Lemma marginals_by_bit_witness :
  let probabilities := [ 0.5; 0; 0; 0.5 ]%float in
  ((2 ^ 2 <= Z.of_nat (List.length probabilities))%Z
   /\ (0 <= 2 <= 30)%Z
   /\ Forall (fun p => Binary64.nonneg p = true) probabilities
   /\ Z.of_nat (List.length probabilities) = (2 ^ 2)%Z
   /\ (Binary64.vsum probabilities <= 2)%R)
  /\ Analytics.marginal_probabilities_of 0%float PrimFloat.add probabilities 2
     = Some (Stmt.marginals_spec 0%float PrimFloat.add probabilities 2)
  /\ exists ms,
       Analytics.marginal_probabilities_of 0%float PrimFloat.add
         probabilities 2 = Some ms
       /\ map (@qubit float) ms = range 2
       /\ forall m, In m ms ->
            (Rabs (Binary64.B2R (prob_0 m) + Binary64.B2R (prob_1 m)
                   - Binary64.vsum probabilities)
             <= Binary64.bpow (-22) * Binary64.vsum probabilities)%R
            /\ ((Rabs (Binary64.vsum probabilities - 1)
                 <= 7 * / 10000000)%R ->
                (Rabs (Binary64.B2R (prob_0 m) + Binary64.B2R (prob_1 m) - 1)
                 <= Binary64.tolerance)%R
                /\ Binary64.finite (prob_0 m + prob_1 m) = true
                /\ (Rabs (Binary64.B2R (prob_0 m + prob_1 m) - 1)
                    <= Binary64.tolerance)%R).
Proof.
  intros probabilities.
  assert (H1 : (2 ^ 2 <= Z.of_nat (List.length probabilities))%Z) by (cbn; lia).
  assert (H2 : (0 <= 2 <= 30)%Z) by lia.
  assert (H3 : Forall (fun p => Binary64.nonneg p = true) probabilities)
    by (repeat constructor).
  assert (H4 : Z.of_nat (List.length probabilities) = (2 ^ 2)%Z) by reflexivity.
  assert (H5 : (Binary64.vsum probabilities <= 2)%R).
  { unfold Binary64.vsum, probabilities. cbn [map Stmt.rsum fold_right].
    rewrite B2R_half, B2R_zero_value. lra. }
  destruct marginals_by_bit as (_ & _ & T3 & _ & T5).
  split; [exact (conj H1 (conj H2 (conj H3 (conj H4 H5))))|].
  split; [exact (T3 float 0%float PrimFloat.add probabilities 2%Z H1)|].
  exact (T5 probabilities 2%Z H2 H3 H4 H5).
Defined.

(** X11.  In binary64, as the loops run: on [2^n] finite non-negative
    probabilities, [n <= 30], every [prob_0] and [prob_1] that the marginal
    loops return is a finite non-negative number, at most [1 + 2^-22]
    times the exact sum of the probabilities (1 for a normalised
    state). *)
Theorem marginals_are_bounded :
  forall probabilities n ms,
    (0 <= n <= 30)%Z ->
    Forall (fun p => Binary64.nonneg p = true) probabilities ->
    Z.of_nat (List.length probabilities) = (2 ^ n)%Z ->
    (Binary64.vsum probabilities <= 2)%R ->
    Analytics.marginal_probabilities_of 0%float PrimFloat.add probabilities n
    = Some ms ->
    forall m, In m ms ->
      Binary64.nonneg (prob_0 m) = true
      /\ Binary64.nonneg (prob_1 m) = true
      /\ (0 <= Binary64.B2R (prob_0 m)
          <= (1 + Binary64.bpow (-22)) * Binary64.vsum probabilities)%R
      /\ (0 <= Binary64.B2R (prob_1 m)
          <= (1 + Binary64.bpow (-22)) * Binary64.vsum probabilities)%R.
Proof.
  intros probabilities n ms Hn Hall Hlen Hsum Hms m Hm.
  destruct (float_loops probabilities n Hn Hall Hlen Hsum) as (ms' & Hms' & _ & Hb).
  rewrite Hms in Hms'. injection Hms' as <-.
  destruct (Hb m Hm) as (G0 & G1 & B0 & B1 & _).
  split; [exact G0|]. split; [exact G1|].
  apply nonneg_spec in G0, G1. split; split; tauto.
Qed.

Lemma marginals_are_bounded_witness :
  let probabilities := [ 0.5; 0; 0; 0.5 ]%float in
  let ms := Stmt.marginals_spec 0%float PrimFloat.add probabilities 2 in
  let m := {| qubit := 0%Z; prob_0 := 0.5%float; prob_1 := 0.5%float |} in
  ((0 <= 2 <= 30)%Z
   /\ Forall (fun p => Binary64.nonneg p = true) probabilities
   /\ Z.of_nat (List.length probabilities) = (2 ^ 2)%Z
   /\ (Binary64.vsum probabilities <= 2)%R
   /\ Analytics.marginal_probabilities_of 0%float PrimFloat.add probabilities 2
      = Some ms
   /\ In m ms)
  /\ Binary64.nonneg (prob_0 m) = true
  /\ Binary64.nonneg (prob_1 m) = true
  /\ (0 <= Binary64.B2R (prob_0 m)
      <= (1 + Binary64.bpow (-22)) * Binary64.vsum probabilities)%R
  /\ (0 <= Binary64.B2R (prob_1 m)
      <= (1 + Binary64.bpow (-22)) * Binary64.vsum probabilities)%R.
Proof.
  intros probabilities ms m.
  assert (H2 : (0 <= 2 <= 30)%Z) by lia.
  assert (H3 : Forall (fun p => Binary64.nonneg p = true) probabilities)
    by (repeat constructor).
  assert (H4 : Z.of_nat (List.length probabilities) = (2 ^ 2)%Z) by reflexivity.
  assert (H5 : (Binary64.vsum probabilities <= 2)%R).
  { unfold Binary64.vsum, probabilities. cbn [map Stmt.rsum fold_right].
    rewrite B2R_half, B2R_zero_value. lra. }
  assert (H6 : Analytics.marginal_probabilities_of 0%float PrimFloat.add
                 probabilities 2 = Some ms) by reflexivity.
  assert (H7 : In m ms) by (left; reflexivity).
  split; [exact (conj H2 (conj H3 (conj H4 (conj H5 (conj H6 H7)))))|].
  exact (marginals_are_bounded probabilities 2%Z ms H2 H3 H4 H5 H6 m H7).
Defined.

(* ================================================================== *)
(** * The probabilities on binary64 values *)

Section NumpyFacts.
Import Binary64.
Local Open Scope R_scope.

(** A square is not negative, rounded or not. *)
Lemma SFmul_self_nonneg (x : spec_float) :
  SFfinite x = true ->
  Rabs (SF2R x * SF2R x) <= bpow 970 ->
  0 <= SF2R (SFmul prec emax x x).
Proof.
  intros Hx Hb.
  destruct x as [sx|sx| |sx mx ex]; try discriminate Hx; cbn [SFmul SF2R]; try lra.
  cbn [SF2R] in Hb.
  set (X := IZR (Zpos mx) * bpow ex) in *.
  assert (HX : 0 < X).
  { unfold X. apply Rmult_lt_0_compat; [apply IZR_lt; lia | apply bpow_pos]. }
  assert (Hprod : IZR (Zpos (mx * mx)) * bpow (ex + ex) = X * X).
  { rewrite Pos2Z.inj_mul, mult_IZR, bpow_add. unfold X. ring. }
  replace (sgn sx * X * (sgn sx * X)) with (X * X) in Hb
    by (destruct sx; cbn; ring).
  rewrite (Rabs_pos_eq (X * X)) in Hb by nra.
  destruct (round_aux_R (xorb sx sx) (mx * mx) (ex + ex)) as (t & Hf & Hv & Ht & Herr).
  { assert (H := digits_of_bound (mx * mx) (ex + ex) 970). rewrite Hprod in H.
    specialize (H Hb). lia. }
  rewrite Hv, xorb_nilpotent. cbn [sgn]. lra.
Qed.

Lemma mul_self_nonneg (x : float) :
  finite x = true -> Rabs (B2R x * B2R x) <= bpow 970 ->
  nonneg (x * x) = true.
Proof.
  intros Hx Hb. apply nonneg_spec.
  split; [exact (proj1 (mul_R x x Hx Hx Hb))|].
  unfold B2R. rewrite mul_spec. apply SFmul_self_nonneg; assumption.
Qed.

Lemma norm2_nonneg (a : float * float) : 0 <= norm2 a.
Proof. unfold norm2. nra. Qed.

Lemma bpow_small (k : Z) : (k <= -27)%Z -> bpow k <= / 100000000.
Proof.
  intros Hk. eapply Rle_trans; [apply (bpow_le k (-27)); exact Hk|].
  pose proof (bpow_opp_IZR 27 ltac:(lia)) as E.
  change (bpow (-27) = / 134217728) in E. rewrite E. lra.
Qed.

Variable hypot : float -> float -> float.

(** The entry [float(abs(amplitude)**2)] of an amplitude at which [hypot]
    keeps its promise: finite, not negative, and within a relative [2^-50]
    (and half the smallest positive number) of the squared magnitude. *)
Lemma abs_sq_accurate (a : float * float) :
  Numpy.accurate hypot a -> norm2 a <= 4 ->
  nonneg (Numpy.abs_sq hypot a) = true
  /\ Rabs (B2R (Numpy.abs_sq hypot a) - norm2 a)
     <= bpow (-50) * norm2 a + eta64.
Proof.
  intros (Hf & Hacc) HN. unfold Numpy.abs_sq.
  set (h := hypot (fst a) (snd a)) in *.
  pose proof (norm2_nonneg a) as HN0.
  set (N := norm2 a) in *. set (r := sqrt N) in *.
  assert (Hr0 : 0 <= r) by apply sqrt_pos.
  assert (Hrr : r * r = N) by (apply sqrt_sqrt; exact HN0).
  set (H := B2R h) in *. set (eps := bpow (-52)) in *.
  assert (Heps : 0 < eps <= / 1000).
  { split; [apply bpow_pos|].
    eapply Rle_trans; [apply bpow_small; lia|]. lra. }
  assert (Hu : u64 = eps / 2).
  { unfold u64, eps.
    replace (bpow (-52)) with (2 * bpow (-53))
      by (rewrite <- (bpow_succ (-53)); reflexivity).
    lra. }
  assert (H50 : bpow (-50) = 4 * eps).
  { unfold eps. replace (-50)%Z with (-52 + 1 + 1)%Z by lia.
    rewrite !bpow_succ. ring. }
  apply Rabs_bounds in Hacc.
  assert (HepsR : 0 <= eps * r) by nra.
  assert (HH : (1 - eps) * r <= H <= (1 + eps) * r) by lra.
  assert (HH0 : 0 <= H) by nra.
  assert (HHup : H * H <= (1 + eps) * (1 + eps) * N).
  { rewrite <- Hrr. 
    replace ((1 + eps) * (1 + eps) * (r * r))
      with (((1 + eps) * r) * ((1 + eps) * r)) by ring.
    apply Rmult_le_compat; lra. }
  assert (HHlo : (1 - eps) * (1 - eps) * N <= H * H).
  { rewrite <- Hrr. 
    replace ((1 - eps) * (1 - eps) * (r * r))
      with (((1 - eps) * r) * ((1 - eps) * r)) by ring.
    apply Rmult_le_compat; nra. }
  assert (Hb16 : H * H <= 16) by nra.
  assert (Hov : Rabs (H * H) <= bpow 970).
  { rewrite Rabs_pos_eq by nra.
    eapply Rle_trans; [exact Hb16|].
    replace 16 with (bpow 4) by (rewrite <- bpow_IZR by lia; reflexivity).
    apply bpow_le. lia. }
  split; [exact (mul_self_nonneg h Hf Hov)|].
  destruct (mul_R h h Hf Hf Hov) as (_ & Hm).
  fold H in Hm. rewrite (Rabs_pos_eq (H * H)) in Hm by nra.
  apply Rabs_bounds in Hm. rewrite H50, Hu in *.
  assert (He : 0 <= eta64) by (pose proof (bpow_pos (-1075)); unfold eta64; lra).
  assert (HepsN : 0 <= eps * N) by nra.
  assert (Heps2N : 0 <= eps * eps * N) by nra.
  assert (Hu1 : eps / 2 * (H * H) <= eps * N).
  { assert (H * H <= 2 * N) by nra. nra. }
  apply Rabs_le. split; nra.
Qed.

(** The whole list of probabilities against the squared magnitudes. *)
Lemma probabilities_accurate (data : list (float * float)) :
  Forall (fun a => Numpy.accurate hypot a /\ norm2 a <= 4) data ->
  Forall2 (fun a p =>
             nonneg p = true
             /\ Rabs (B2R p - norm2 a) <= bpow (-50) * norm2 a + eta64)
          data (map (Numpy.abs_sq hypot) data)
  /\ Rabs (vsum (map (Numpy.abs_sq hypot) data) - Stmt.rsum (map norm2 data))
     <= bpow (-50) * Stmt.rsum (map norm2 data)
        + INR (List.length data) * eta64.
Proof.
  induction 1 as [|a data (Ha & HN) _ (IH1 & IH2)].
  - split; [constructor|]. unfold vsum. cbn.
    rewrite Rminus_diag, Rabs_R0. lra.
  - destruct (abs_sq_accurate a Ha HN) as (Hg & He).
    split; [constructor; [split; assumption | exact IH1]|].
    change (vsum (map (Numpy.abs_sq hypot) (a :: data)))
      with (B2R (Numpy.abs_sq hypot a) + vsum (map (Numpy.abs_sq hypot) data)).
    change (Stmt.rsum (map norm2 (a :: data)))
      with (norm2 a + Stmt.rsum (map norm2 data)).
    change (List.length (a :: data)) with (S (List.length data)).
    rewrite S_INR.
    apply Rabs_bounds in He, IH2. apply Rabs_le. lra.
Qed.

(** With a state normalised within 9e-7 and at most [2^64] amplitudes,
    the probabilities sum to 1 within 1e-6. *)
Lemma probabilities_sum (data : list (float * float)) :
  Forall (fun a => Numpy.accurate hypot a /\ norm2 a <= 4) data ->
  (Z.of_nat (List.length data) <= 2 ^ 64)%Z ->
  Rabs (Stmt.rsum (map norm2 data) - 1) <= 9 * / 10000000 ->
  Rabs (vsum (map (Numpy.abs_sq hypot) data) - 1) <= tolerance.
Proof.
  intros Hall Hlen Hone. unfold tolerance.
  destruct (probabilities_accurate data Hall) as (_ & Hsum).
  assert (Hl : INR (List.length data) * eta64 <= / 100000000).
  { assert (INR (List.length data) <= bpow 64).
    { rewrite INR_IZR_INZ, <- bpow_IZR by lia. apply IZR_le. exact Hlen. }
    pose proof (pos_INR (List.length data)).
    assert (0 < eta64) by (unfold eta64; apply bpow_pos).
    assert (bpow 64 * eta64 <= / 100000000).
    { unfold eta64. rewrite <- bpow_add. apply bpow_small. lia. }
    nra. }
  pose proof (bpow_small (-50) ltac:(lia)) as H50.
  pose proof (bpow_pos (-50)) as H50p.
  apply Rabs_bounds in Hsum, Hone.
  set (S := Stmt.rsum (map norm2 data)) in *.
  assert (0 <= bpow (-50) * S <= / 100000000 * 2) by nra.
  apply Rabs_le. lra.
Qed.

End NumpyFacts.

(** ** C1 *)

Section BellData.
Import Binary64.
Local Open Scope R_scope.

(** The binary64 number next to [1/sqrt 2], its value and its square. *)
Lemma B2R_amplitude :
  B2R 0x1.6a09e667f3bcdp-1%float = 6369051672525773 * / 9007199254740992.
Proof.
  unfold B2R.
  change (Prim2SF 0x1.6a09e667f3bcdp-1%float)
    with (S754_finite false 6369051672525773 (-53)).
  cbn [SF2R sgn]. change (-53)%Z with (Z.opp 53).
  rewrite bpow_opp_IZR by lia.
  change (IZR (2 ^ 53)) with 9007199254740992. lra.
Qed.

Lemma sqrt_norm2_real (x : float) :
  0 <= B2R x -> sqrt (norm2 (x, 0%float)) = B2R x.
Proof.
  intros Hx. unfold norm2. cbn [fst snd].
  rewrite B2R_zero_value, Rmult_0_l, Rplus_0_r. apply sqrt_square. exact Hx.
Qed.

End BellData.

(** C1.  For every simulated circuit the returned [probabilities] has one
    entry per basis state, entry [i] being the squared magnitude
    (real^2 + imag^2) of amplitude [i] of the returned statevector, and the
    entries sum to 1 within 1e-6.
    - Both fallback simulators, on binary64 values, for every input.
    - Both Qiskit-backed endpoints, on binary64 values, whatever Qiskit
      returns: one probability per amplitude; where [hypot] keeps its
      promise, each probability is finite, not negative and within a
      relative [2^-50] of real^2 + imag^2; and when the amplitudes Qiskit
      returned are normalised within 9e-7, the probabilities sum to 1
      within 1e-6.
    - That an evolution by unitary gates returns a normalised state is
      Qiskit's part.  Over the reals, without rounding, the engine of the
      specification keeps the sum at exactly 1 for every circuit that
      passes validation and carries unitary matrices. *)
Theorem probabilities_normalised :
  (forall circuit_type n,
     Stmt.normalised (Simple.simulate_simple_circuit circuit_type n))
  /\ (forall qiskit_code,
        Stmt.normalised (Docker.simulate_simple_circuit qiskit_code))
  /\ (forall hypot (Q : QiskitAPI.Qiskit float) data r log,
        Backend.simulate_quantum_circuit 0%float PrimFloat.add
          (Numpy.abs_sq hypot) data = (Success r, log) ->
        List.length (probabilities r) = List.length (statevector r)
        /\ (Forall (fun a => Numpy.accurate hypot a
                             /\ (Binary64.norm2 a <= 4)%R) (statevector r) ->
            Forall2 (fun a p =>
                       Binary64.nonneg p = true
                       /\ (Rabs (Binary64.B2R p - Binary64.norm2 a)
                           <= Binary64.bpow (-50) * Binary64.norm2 a
                              + Binary64.eta64)%R)
                    (statevector r) (probabilities r)
            /\ ((Z.of_nat (List.length (statevector r)) <= 2 ^ 64)%Z ->
                (Rabs (Stmt.rsum (map Binary64.norm2 (statevector r)) - 1)
                 <= 9 * / 10000000)%R ->
                (Rabs (Binary64.vsum (probabilities r) - 1)
                 <= Binary64.tolerance)%R)))
  /\ (forall hypot (Q : QiskitAPI.Qiskit float) qiskit_code r,
        Docker.simulate_with_qiskit (Numpy.abs_sq hypot) qiskit_code = inr r ->
        List.length (probabilities r) = List.length (statevector r)
        /\ (Forall (fun a => Numpy.accurate hypot a
                             /\ (Binary64.norm2 a <= 4)%R) (statevector r) ->
            Forall2 (fun a p =>
                       Binary64.nonneg p = true
                       /\ (Rabs (Binary64.B2R p - Binary64.norm2 a)
                           <= Binary64.bpow (-50) * Binary64.norm2 a
                              + Binary64.eta64)%R)
                    (statevector r) (probabilities r)
            /\ ((Z.of_nat (List.length (statevector r)) <= 2 ^ 64)%Z ->
                (Rabs (Stmt.rsum (map Binary64.norm2 (statevector r)) - 1)
                 <= 9 * / 10000000)%R ->
                (Rabs (Binary64.vsum (probabilities r) - 1)
                 <= Binary64.tolerance)%R)))
  /\ (forall exec code cfg n ops c,
        exec code = Engine.run_script cfg n ops ->
        Engine.validate cfg n ops = inr c ->
        Forall Engine.unitary_operation ops ->
        exists r log,
          Backend.simulate_quantum_circuit (Q := Engine.qiskit exec)
            0%R Rplus Engine.abs_sq (Stmt.body code) = (Success r, log)
          /\ num_qubits r = Z.of_nat n
          /\ Z.of_nat (List.length (probabilities r)) = (2 ^ Z.of_nat n)%Z
          /\ (forall i a, nth_error (statevector r) i = Some a ->
                nth_error (probabilities r) i
                = Some (fst a * fst a + snd a * snd a)%R)
          /\ Stmt.rsum (probabilities r) = 1%R).
Proof.
  split; [exact simple_normalised|].
  split; [exact docker_normalised|].
  split; [|split].
  - intros hypot Q data r log Hs.
    destruct (backend_success float 0%float PrimFloat.add (Numpy.abs_sq hypot)
                Q data r log Hs) as (-> & _).
    split; [apply length_map|]. intros Hall.
    split; [exact (proj1 (probabilities_accurate hypot (statevector r) Hall))|].
    intros Hlen Hone.
    exact (probabilities_sum hypot (statevector r) Hall Hlen Hone).
  - intros hypot Q code r Hs.
    destruct (docker_qiskit_success (Numpy.abs_sq hypot) Q code r Hs) as (-> & _).
    split; [apply length_map|]. intros Hall.
    split; [exact (proj1 (probabilities_accurate hypot (statevector r) Hall))|].
    intros Hlen Hone.
    exact (probabilities_sum hypot (statevector r) Hall Hlen Hone).
  - intros exec code cfg n ops c He Hv Hu.
    exists (Stmt.engine_result c), [Backend.EvExec;
      Backend.EvStatevector (2 ^ Z.of_nat (Engine.qubit_count c))].
    split; [exact (backend_accepts exec code cfg n ops c He Hv)|].
    destruct (validate_accepts cfg n ops c Hv) as (Hc & _ & _).
    cbn [Stmt.engine_result num_qubits probabilities statevector].
    split; [now rewrite Hc|].
    split; [rewrite probabilities_length; now rewrite Hc|].
    split.
    + intros i a Hi. unfold Analytics.probabilities_of.
      rewrite nth_error_map, Hi. cbn [option_map].
      f_equal. apply abs_sq_norm2.
    + rewrite probabilities_total.
      exact (simulate_normalised cfg n ops c Hv Hu).
Qed.

Lemma probabilities_normalised_witness :
  let hypot := fun x y : float => PrimFloat.sqrt (x * x + y * y) in
  let h := 0x1.6a09e667f3bcdp-1%float in
  let bell := [ (h, 0); (0, 0); (0, 0); (h, 0) ]%float in
  let Q := {| QiskitAPI.circuit := unit;
              QiskitAPI.exec_code := fun _ => QiskitAPI.Locals (Some tt);
              QiskitAPI.qc_num_qubits := fun _ => 2%Z;
              QiskitAPI.evolve_from_zero := fun _ => inr bell;
              QiskitAPI.qc_depth := fun _ => 2%Z;
              QiskitAPI.qc_size := fun _ => 2%Z |} in
  exists r log,
    (Backend.simulate_quantum_circuit (Q := Q) 0%float PrimFloat.add
       (Numpy.abs_sq hypot) (Stmt.body Stmt.bell_example) = (Success r, log)
     /\ statevector r = bell
     /\ Forall (fun a => Numpy.accurate hypot a
                         /\ (Binary64.norm2 a <= 4)%R) (statevector r)
     /\ (Z.of_nat (List.length (statevector r)) <= 2 ^ 64)%Z
     /\ (Rabs (Stmt.rsum (map Binary64.norm2 (statevector r)) - 1)
         <= 9 * / 10000000)%R)
    /\ List.length (probabilities r) = List.length (statevector r)
    /\ Forall2 (fun a p =>
                  Binary64.nonneg p = true
                  /\ (Rabs (Binary64.B2R p - Binary64.norm2 a)
                      <= Binary64.bpow (-50) * Binary64.norm2 a
                         + Binary64.eta64)%R)
               (statevector r) (probabilities r)
    /\ (Rabs (Binary64.vsum (probabilities r) - 1) <= Binary64.tolerance)%R.
Proof.
  intros hypot h bell Q.
  destruct (Backend.simulate_quantum_circuit (Q := Q) 0%float PrimFloat.add
              (Numpy.abs_sq hypot) (Stmt.body Stmt.bell_example))
    as [resp log] eqn:E.
  vm_compute in E. injection E as <- <-.
  eexists. eexists.
  assert (Hh : (0 <= Binary64.B2R h)%R).
  { unfold h. rewrite B2R_amplitude. lra. }
  assert (Hamp : Numpy.accurate hypot (h, 0%float)
                 /\ (Binary64.norm2 (h, 0%float) <= 4)%R).
  { split; [split; [reflexivity|]|].
    - rewrite sqrt_norm2_real by exact Hh.
      change (hypot (fst (h, 0%float)) (snd (h, 0%float))) with h.
      rewrite Rminus_diag, Rabs_R0.
      pose proof (bpow_pos (-52)). nra.
    - unfold Binary64.norm2. cbn [fst snd]. unfold h.
      rewrite B2R_amplitude, B2R_zero_value. lra. }
  assert (Hzero : Numpy.accurate hypot (0%float, 0%float)
                  /\ (Binary64.norm2 (0%float, 0%float) <= 4)%R).
  { split; [split; [reflexivity|]|].
    - rewrite sqrt_norm2_real by (rewrite B2R_zero_value; lra).
      change (hypot (fst (0%float, 0%float)) (snd (0%float, 0%float)))
        with 0%float.
      rewrite Rminus_diag, Rabs_R0, B2R_zero_value. lra.
    - unfold Binary64.norm2. cbn [fst snd]. rewrite B2R_zero_value. lra. }
  assert (Hall : Forall (fun a => Numpy.accurate hypot a
                                  /\ (Binary64.norm2 a <= 4)%R) bell)
    by (unfold bell;
        repeat (apply Forall_cons; [first [exact Hamp | exact Hzero]|]);
        apply Forall_nil).
  assert (Hlen : (Z.of_nat (List.length bell) <= 2 ^ 64)%Z) by (cbn; lia).
  assert (Hone : (Rabs (Stmt.rsum (map Binary64.norm2 bell) - 1)
                  <= 9 * / 10000000)%R).
  { unfold bell, Binary64.norm2. cbn [map fst snd Stmt.rsum fold_right].
    unfold h. rewrite B2R_amplitude, B2R_zero_value.
    apply Rabs_le. lra. }
  split.
  { split; [reflexivity|]. cbn [statevector].
    split; [reflexivity|]. exact (conj Hall (conj Hlen Hone)). }
  pose proof (proj1 (proj2 (proj2 probabilities_normalised)) hypot Q
                (Stmt.body Stmt.bell_example) _ _ eq_refl) as T.
  cbn [statevector probabilities] in T |- *.
  destruct T as (T1 & T2). specialize (T2 Hall). destruct T2 as (T2 & T3).
  split; [exact T1|]. split; [exact T2|]. exact (T3 Hlen Hone).
Defined.
